(** * The paginated repository layer of ambrosus-node-extended

    A shallow embedding of [BaseRepository] (base.repository.ts) and
    [OrganizationRepository] (organization.repository.ts), together with a
    reference model of the two external collaborators they drive: the MongoDB
    Node driver (collections held in memory) and mongo-cursor-pagination.
    [EventService] and the helper [matchHexOfLength] are embedded on top of
    it.

    Conventions.
    - Documents are flat JS objects: finite maps from field names to scalar
      values.  Dotted paths are ordinary field names.
    - A repository method is a computation over [state] which either returns
      a value or throws; JS exceptions are the constructors of [error].
    - JS numbers are mathematical integers ([Z]). *)

From Stdlib Require Import ZArith Ascii.
From stdpp Require Import gmap strings list sorting.

Local Open Scope string_scope.
Local Open Scope list_scope.
Local Open Scope Z_scope.

(** ** Values and documents *)

(** The scalar values a document field may hold; [VId] is an ObjectId.
    [VNum n] is the JS number that holds the integer [n].  The arithmetic
    of the model is that of [Z]; it is the arithmetic of JS numbers as
    long as operands and results are safe integers. *)
Inductive value :=
  | VNull
  | VBool (b : bool)
  | VNum (n : Z)
  | VStr (s : string)
  | VId (n : Z).

#[global] Instance value_eq_dec : EqDecision value.
Proof. solve_decision. Defined.

(** [Number.MAX_SAFE_INTEGER] and [Number.isSafeInteger]. *)
Definition MAX_SAFE_INTEGER : Z := 9007199254740991.
Definition isSafeInteger (n : Z) : Prop :=
  - MAX_SAFE_INTEGER ≤ n ≤ MAX_SAFE_INTEGER.

Abbreviation document := (gmap string value).

Module Bson.

(** BSON comparison order across types:
    null < numbers < strings < ObjectId < booleans. *)
Definition rank (v : value) : Z :=
  match v with
  | VNull => 1
  | VNum _ => 2
  | VStr _ => 3
  | VId _ => 4
  | VBool _ => 5
  end.

Definition leb (a b : value) : bool :=
  match a, b with
  | VNull, VNull => true
  | VNum x, VNum y => bool_decide (x ≤ y)
  | VStr x, VStr y => String.leb x y
  | VId x, VId y => bool_decide (x ≤ y)
  | VBool x, VBool y => implb x y
  | _, _ => bool_decide (rank a < rank b)
  end.

Definition ltb (a b : value) : bool := leb a b && negb (bool_decide (a = b)).

(** The key a document is sorted under: a missing field sorts as null. *)
Definition sort_key (f : string) (d : document) : value :=
  default VNull (d !! f).

(** [{ f1: dir1, f2: dir2, ... }]: lexicographic comparison, [true] being
    ascending (1) and [false] descending (-1). *)
Fixpoint sort_leb (spec : list (string * bool)) (a b : document) : bool :=
  match spec with
  | [] => true
  | (f, asc) :: rest =>
      let ka := sort_key f a in
      let kb := sort_key f b in
      if bool_decide (ka = kb) then sort_leb rest a b
      else if asc then leb ka kb else leb kb ka
  end.

Definition sort_le (spec : list (string * bool)) : relation document :=
  λ a b, Is_true (sort_leb spec a b).

#[global] Instance sort_le_dec spec : RelDecision (sort_le spec).
Proof. intros a b. unfold sort_le. apply _. Defined.

Definition sort_docs (spec : list (string * bool)) (l : list document)
  : list document :=
  merge_sort (sort_le spec) l.

End Bson.

(** The names every plain object inherits from [Object.prototype]. *)
Definition prototype_names : list string :=
  [ "constructor"; "hasOwnProperty"; "isPrototypeOf"; "propertyIsEnumerable";
    "toLocaleString"; "toString"; "valueOf"; "__proto__";
    "__defineGetter__"; "__defineSetter__";
    "__lookupGetter__"; "__lookupSetter__" ].

(** ** Query filters *)

(** What a filter may require of one field: a bare value is an equality
    match, an object with a [$]-operator a comparison. *)
Inductive matcher :=
  | MEq (v : value)
  | MIn (vs : list value)
  | MLt (v : value)
  | MGt (v : value).

#[global] Instance matcher_eq_dec : EqDecision matcher.
Proof. solve_decision. Defined.

Abbreviation fields_query := (gmap string matcher).

(** A projection specification [{ field: 1 | 0 }]. *)
Abbreviation projection := (gmap string bool).

(** What the driver receives as a filter: a plain field query, a top
    level [$or] of plain clauses, a [$and] of two filters, or something
    that is no filter object at all. *)
Inductive find_filter :=
  | FQuery (q : fields_query)
  | FOr (clauses : list fields_query)
  | FAnd (a b : find_filter)
  | FBad.

(** Aggregation pipeline stages. *)
Inductive stage :=
  | SMatch (f : find_filter)
  | SSort (spec : list (string * bool))
  | SLimit (n : Z)
  | SSkip (n : Z)
  | SProject (p : projection).

(** [APIQuery.query] is untyped: callers store a filter object in it for
    the find family and an array of stages for the aggregate family. *)
Inductive query_arg :=
  | QFilter (q : fields_query)
  | QPipeline (p : list stage).

Definition filter_of (q : query_arg) : find_filter :=
  match q with
  | QFilter q => FQuery q
  | QPipeline _ => FBad
  end.

Module Match.

(** Comparison operators only relate values of the same BSON type. *)
Definition same_type (a b : value) : bool :=
  bool_decide (Bson.rank a = Bson.rank b).

(** [{ f: null }] also matches documents without the field. *)
Definition field (m : matcher) (o : option value) : bool :=
  match m, o with
  | MEq VNull, None => true
  | MEq v, Some x => bool_decide (x = v)
  | MIn vs, Some x => bool_decide (x ∈ vs)
  | MIn vs, None => bool_decide (VNull ∈ vs)
  | MLt v, Some x => same_type x v && Bson.ltb x v
  | MGt v, Some x => same_type x v && Bson.ltb v x
  | _, None => false
  end.

Definition query (q : fields_query) (d : document) : bool :=
  bool_decide (map_Forall (λ f m, Is_true (field m (d !! f))) q).

Fixpoint doc (f : find_filter) (d : document) : bool :=
  match f with
  | FQuery q => query q d
  | FOr clauses => existsb (λ q, query q d) clauses
  | FAnd a b => doc a d && doc b d
  | FBad => false
  end.

(** The server rejects a filter with a non-object in it. *)
Fixpoint well_formed (f : find_filter) : bool :=
  match f with
  | FQuery _ | FOr _ => true
  | FAnd a b => well_formed a && well_formed b
  | FBad => false
  end.

End Match.

Module Projection.

(** A specification that lists a field other than [_id] with 1 is an
    inclusion, one that lists such a field with 0 an exclusion; the
    server rejects a mix of both. *)
Definition includes (p : projection) : bool :=
  bool_decide (map_Exists (λ f b, f ≠ "_id" ∧ b = true) p).
Definition excludes (p : projection) : bool :=
  bool_decide (map_Exists (λ f b, f ≠ "_id" ∧ b = false) p).
Definition mixed (p : projection) : bool := includes p && excludes p.

(** Whether field [f] survives projection [p]. *)
Definition keeps (p : projection) (f : string) : bool :=
  if bool_decide (f = "_id") then
    match p !! "_id" with
    | Some b => b
    | None => true
    end
  else if includes p then bool_decide (p !! f = Some true)
  else if excludes p then negb (bool_decide (p !! f = Some false))
  else
    match p !! "_id" with
    | Some true => false
    | _ => true
    end.

Definition apply (p : projection) (d : document) : document :=
  filter (λ kv, Is_true (keeps p kv.1)) d.

End Projection.

(** ** Errors, state and the computation monad *)

(** The exceptions that can cross the repository boundary.  [MongoError]
    and [TypeError] are raw: the first is what the driver rejects with, the
    second what the JS runtime throws on a property read of [undefined] or
    [null].  [RepositoryError] is built either from a caught error or from
    a [{ reason }] literal. *)
Inductive error :=
  | MongoError (msg : string)
  | TypeError (msg : string)
  | DeveloperError (reason : string)
  | RepositoryError (cause : error)
  | RepositoryErrorReason (reason : string).

Definition is_RepositoryError (e : error) : bool :=
  match e with
  | RepositoryError _ | RepositoryErrorReason _ => true
  | _ => false
  end.

(** A raw error is one the repository did not produce itself. *)
Definition is_raw (e : error) : bool :=
  match e with
  | MongoError _ | TypeError _ => true
  | _ => false
  end.

Inductive log_entry :=
  | LogDebug (operation : string)
  | LogCaptured (e : error).

(** Everything a repository method can read or change.
    - [client_db]: the DBClient holds an open connection ([client.db]).
    - [handle]: the repository's cached [collection] field.
    - [outage]: when set, the server is unreachable and every round trip
      of the driver rejects with that message.
    - [store]: the collections by name, each in insertion order.
    - [clock]: what [getTimestamp()] reads. *)
Record state := mkState {
  client_db : bool;
  handle : option string;
  outage : option string;
  store : gmap string (list document);
  clock : Z;
  log : list log_entry
}.

Definition with_client_db (b : bool) (s : state) : state :=
  mkState b (handle s) (outage s) (store s) (clock s) (log s).
Definition with_handle (h : option string) (s : state) : state :=
  mkState (client_db s) h (outage s) (store s) (clock s) (log s).
Definition with_outage (o : option string) (s : state) : state :=
  mkState (client_db s) (handle s) o (store s) (clock s) (log s).
Definition with_store (m : gmap string (list document)) (s : state) : state :=
  mkState (client_db s) (handle s) (outage s) m (clock s) (log s).
Definition with_clock (t : Z) (s : state) : state :=
  mkState (client_db s) (handle s) (outage s) (store s) t (log s).
Definition with_log (l : list log_entry) (s : state) : state :=
  mkState (client_db s) (handle s) (outage s) (store s) (clock s) l.

Inductive outcome (A : Type) :=
  | Return (a : A)
  | Throw (e : error).
Arguments Return {A} a.
Arguments Throw {A} e.

Definition M (A : Type) : Type := state → outcome A * state.

Definition ret {A} (a : A) : M A := λ s, (Return a, s).
Definition throw {A} (e : error) : M A := λ s, (Throw e, s).
Definition bind {A B} (c : M A) (k : A → M B) : M B :=
  λ s, match c s with
       | (Return a, s') => k a s'
       | (Throw e, s') => (Throw e, s')
       end.
Definition try_catch {A} (body : M A) (handler : error → M A) : M A :=
  λ s, match body s with
       | (Return a, s') => (Return a, s')
       | (Throw e, s') => handler e s'
       end.
Definition get_state : M state := λ s, (Return s, s).
Definition modify (f : state → state) : M unit := λ s, (Return tt, f s).

Notation "'let*' x ':=' c 'in' k" := (bind c (λ x, k))
  (at level 10, x name, c at level 100, k at level 200).
Notation "c ';;' k" := (bind c (λ _, k))
  (at level 100, k at level 200, right associativity).

(** The value a computation produced, if it returned. *)
Definition returned {A} (r : outcome A * state) : option A :=
  match r.1 with
  | Return a => Some a
  | Throw _ => None
  end.

Definition thrown {A} (r : outcome A * state) : option error :=
  match r.1 with
  | Return _ => None
  | Throw e => Some e
  end.

(** ** The document store: a model of the MongoDB Node driver

    The collections live in memory.  The operations follow the documented
    behaviour of the driver and the server for the part of the query
    language modelled here.  Besides the unique index on [_id] the store
    holds the unique indexes the repositories declare. *)

Module Mongo.

Definition docs (coll : string) (s : state) : list document :=
  default [] (store s !! coll).

Definition put_docs (coll : string) (l : list document) : M unit :=
  modify (λ s, with_store (<[coll := l]> (store s)) s).

(** Every driver call is one round trip to the server. *)
Definition round_trip : M unit :=
  λ s, match outage s with
       | Some msg => (Throw (MongoError msg), s)
       | None => (Return tt, s)
       end.

(** ObjectIds are minted above every id already in the collection. *)
Definition oid_bound (l : list document) : Z :=
  foldr (λ d acc, match d !! "_id" with
                  | Some (VId n) => Z.max (n + 1) acc
                  | _ => acc
                  end) 1 l.

Definition with_id (l : list document) (d : document) : document :=
  match d !! "_id" with
  | Some _ => d
  | None => <["_id" := VId (oid_bound l)]> d
  end.

(** The unique index on [_id]. *)
Definition id_taken (l : list document) (d : document) : bool :=
  existsb (λ x, bool_decide (x !! "_id" = d !! "_id")) l.

(** The unique indexes declared with [createIndex(..., { unique: true })]:
    the constructor of [OrganizationRepository] registers three on the
    organization collection, created when the client connects.  An index
    lives in the database, so it is a property of the collection. *)
Definition unique_fields (coll : string) : list string :=
  if bool_decide (coll = "organization")
  then ["organizationId"; "title"; "owner"]
  else [].

(** A unique index keeps one document per key; a document without the
    field is filed under null. *)
Definition clashes (fields : list string) (l : list document) (d : document)
  : bool :=
  existsb (λ f, existsb (λ x, bool_decide (Bson.sort_key f x = Bson.sort_key f d)) l)
          fields.

(** The indexed fields under which an update files the document anew:
    those whose key it changes. *)
Definition rekeyed (fields : list string) (d d' : document) : list string :=
  filter (λ f, Bson.sort_key f d' ≠ Bson.sort_key f d) fields.

(** What the server refuses to store in collection [coll] beside the
    documents [l]. *)
Definition refused (coll : string) (l : list document) (d : document) : bool :=
  id_taken l d || clashes (unique_fields coll) l d.

Record insert_ack := { insertedId : option value; insertedCount : Z }.

Definition insertOne (coll : string) (item : document) : M insert_ack :=
  round_trip ;;
  let* s := get_state in
  let d := with_id (docs coll s) item in
  if refused coll (docs coll s) d
  then throw (MongoError "E11000 duplicate key error")
  else put_docs coll (docs coll s ++ [d]) ;;
       ret {| insertedId := d !! "_id"; insertedCount := 1 |}.

(** An ordered bulk insert stops at the first document the server
    rejects; what was inserted before stays. *)
Fixpoint insert_ordered (coll : string) (l items : list document)
  : list document * bool :=
  match items with
  | [] => (l, true)
  | item :: rest =>
      let d := with_id l item in
      if refused coll l d then (l, false)
      else insert_ordered coll (l ++ [d]) rest
  end.

(** [insertMany] answers with [result.result.n].  It runs as an ordered
    bulk write, and the driver refuses to execute a bulk write without
    operations: an empty batch is rejected with the MongoError "Invalid
    Operation, no operations specified" before anything is sent. *)
Definition insertMany (coll : string) (items : list document) : M Z :=
  match items with
  | [] => throw (MongoError "Invalid Operation, no operations specified")
  | _ =>
      round_trip ;;
      let* s := get_state in
      let '(l, ok) := insert_ordered coll (docs coll s) items in
      put_docs coll l ;;
      if ok then ret (Z.of_nat (length items))
      else throw (MongoError "E11000 duplicate key error")
  end.

Inductive update_spec :=
  | USet (item : document)
  | USetOnInsert (item : document)
  | UInc (f : string) (n : Z).

Definition apply_update (inserting : bool) (u : update_spec) (d : document)
  : error + document :=
  match u with
  | USet item => inr (item ∪ d)
  | USetOnInsert item => inr (if inserting then item ∪ d else d)
  | UInc f n =>
      match d !! f with
      | None => inr (<[f := VNum n]> d)
      | Some (VNum x) => inr (<[f := VNum (x + n)]> d)
      | Some _ =>
          inl (MongoError "Cannot apply $inc to a value of non-numeric type")
      end
  end.

(** [_id] is immutable. *)
Definition updated (inserting : bool) (u : update_spec) (d : document)
  : error + document :=
  match apply_update inserting u d with
  | inl e => inl e
  | inr d' =>
      match d !! "_id" with
      | Some i =>
          if bool_decide (d' !! "_id" = Some i) then inr d'
          else inl (MongoError "Performing an update on the path '_id' would modify the immutable field '_id'")
      | None => inr d'
      end
  end.

(** On upsert the new document starts from the equality clauses of the
    query; comparison clauses contribute nothing. *)
Definition equality_fields (q : fields_query) : document :=
  omap (λ m, match m with MEq v => Some v | _ => None end) q.

Definition first_match (q : fields_query) (l : list document)
  : option (nat * document) :=
  list_find (λ d, Is_true (Match.query q d)) l.

(** What the server answers when handed an array for a filter. *)
Definition bad_filter {A} : M A :=
  throw (MongoError "BadValue: filter must be an object").

(** [findOneAndUpdate(query, update, { upsert, returnOriginal })] answers
    with [result.value]: the first match after (or before) the update,
    the inserted document, or null.  The document written must keep the
    unique indexes intact. *)
Definition findOneAndUpdate (coll : string) (qa : query_arg)
    (u : update_spec) (upsert returnOriginal : bool) : M (option document) :=
  round_trip ;;
  match qa with
  | QPipeline _ => bad_filter
  | QFilter q =>
      let* s := get_state in
      let l := docs coll s in
      match first_match q l with
      | Some (i, d) =>
          match updated false u d with
          | inl e => throw e
          | inr d' =>
              if clashes (rekeyed (unique_fields coll) d d') (delete i l) d'
              then throw (MongoError "E11000 duplicate key error")
              else put_docs coll (<[i := d']> l) ;;
                   ret (Some (if returnOriginal then d else d'))
          end
      | None =>
          if upsert then
            match updated true u (equality_fields q) with
            | inl e => throw e
            | inr d0 =>
                let d' := with_id l d0 in
                if refused coll l d'
                then throw (MongoError "E11000 duplicate key error")
                else put_docs coll (l ++ [d']) ;;
                     ret (if returnOriginal then None else Some d')
            end
          else ret None
      end
  end.

(** The option object of [collection.find]: only [projection] is read. *)
Record find_options := { projection_opt : option projection }.

(** [cursor.limit(n)]: 0 is no limit, a negative [n] limits to [|n|]. *)
Definition limited (n : Z) (l : list document) : list document :=
  if bool_decide (n = 0) then l else take (Z.abs_nat n) l.

(** [collection.find(filter, options).sort(spec).limit(n).toArray()]. *)
Definition find_toArray (coll : string) (f : find_filter)
    (o : option find_options) (sort : list (string * bool))
    (limit : option Z) : M (list document) :=
  round_trip ;;
  if negb (Match.well_formed f) then bad_filter
  else
    let* s := get_state in
    let matched := filter (λ d, Is_true (Match.doc f d)) (docs coll s) in
    let sorted := match sort with
                  | [] => matched
                  | _ => Bson.sort_docs sort matched
                  end in
    let page := match limit with
                | Some n => limited n sorted
                | None => sorted
                end in
    match o ≫= projection_opt with
    | None => ret page
    | Some p =>
        if Projection.mixed p
        then throw (MongoError "Projection cannot have a mix of inclusion and exclusion")
        else ret (Projection.apply p <$> page)
    end.

Definition countDocuments (coll : string) (qa : query_arg) : M Z :=
  round_trip ;;
  match qa with
  | QPipeline _ => bad_filter
  | QFilter q =>
      let* s := get_state in
      ret (Z.of_nat (length (filter (λ d, Is_true (Match.query q d))
                                    (docs coll s))))
  end.

Record delete_ack := { deletedCount : Z }.

Definition deleteOne (coll : string) (qa : query_arg) : M delete_ack :=
  round_trip ;;
  match qa with
  | QPipeline _ => bad_filter
  | QFilter q =>
      let* s := get_state in
      match first_match q (docs coll s) with
      | Some (i, _) =>
          put_docs coll (delete i (docs coll s)) ;;
          ret {| deletedCount := 1 |}
      | None => ret {| deletedCount := 0 |}
      end
  end.

Definition distinct (coll : string) (f : string) : M (list value) :=
  round_trip ;;
  let* s := get_state in
  ret (remove_dups (omap (λ d, d !! f) (docs coll s))).

Definition run_stage (st : stage) (l : list document)
  : option (list document) :=
  match st with
  | SMatch f =>
      if Match.well_formed f
      then Some (filter (λ d, Is_true (Match.doc f d)) l)
      else None
  | SSort spec => Some (Bson.sort_docs spec l)
  | SLimit n =>
      if bool_decide (0 < n) then Some (take (Z.to_nat n) l) else None
  | SSkip n =>
      if bool_decide (0 ≤ n) then Some (drop (Z.to_nat n) l) else None
  | SProject p =>
      if Projection.mixed p then None else Some (Projection.apply p <$> l)
  end.

Fixpoint run_pipeline (p : list stage) (l : list document)
  : option (list document) :=
  match p with
  | [] => Some l
  | st :: rest =>
      match run_stage st l with
      | Some l' => run_pipeline rest l'
      | None => None
      end
  end.

(** [collection.aggregate(pipeline).toArray()]. *)
Definition aggregate_toArray (coll : string) (qa : query_arg)
  : M (list document) :=
  round_trip ;;
  match qa with
  | QFilter _ => throw (MongoError "BadValue: pipeline must be an array")
  | QPipeline p =>
      let* s := get_state in
      match run_pipeline p (docs coll s) with
      | Some l => ret l
      | None => throw (MongoError "Invalid aggregation pipeline")
      end
  end.

End Mongo.

(** ** Query and result models *)

(** A decoded cursor token: the paginated field's value and the [_id] of
    the document the page ended on. *)
Definition cursor : Type := value * value.

Module APIQuery.
Record t := {
  query : query_arg;
  fields : projection;
  search : option string;
  limit : option Z;
  next : option cursor;
  previous : option cursor
}.
End APIQuery.

Module MongoPagedResult.
(** [search] answers with [results] and [next] only; the flags it leaves
    out read as [false]. *)
Record t := {
  results : list document;
  previous : option cursor;
  hasPrevious : bool;
  next : option cursor;
  hasNext : bool
}.
End MongoPagedResult.

(** ** Cursor pagination: a model of mongo-cursor-pagination

    [find], [search] and [aggregate] as the library documents them, built
    on the driver model above.  Cursor tokens are kept decoded. *)

Module MongoPaging.

Record config := { DEFAULT_LIMIT : Z; MAX_LIMIT : Z }.

(** The option objects.  Each record lists the keys the repository
    writes; a key the library never reads is marked so. *)
Record find_params := {
  fp_query : query_arg;
  fp_fields : option Mongo.find_options;
  fp_paginatedField : option string;
  fp_sortAscending : option bool;
  fp_limit : option Z;
  fp_next : option cursor;
  fp_previous : option cursor
}.

Record search_params := {
  sp_query : query_arg;
  sp_fields : projection;
  sp_limit : option Z;
  sp_next : option cursor;
  sp_previous : option cursor (* not read by [search] *)
}.

Record aggregate_params := {
  ap_aggregation : query_arg;
  ap_paginatedField : option string;
  ap_sortAscending : option bool;
  ap_paginatedAscending : option bool; (* not read by [aggregate] *)
  ap_limit : option Z;
  ap_next : option cursor;
  ap_previous : option cursor
}.

Definition clamp (c : config) (l : Z) : Z :=
  let l1 := if bool_decide (l < 1) then 1 else l in
  if bool_decide (MAX_LIMIT c < l1) then MAX_LIMIT c else l1.

(** [sanitizeParams]: the limit defaults to [DEFAULT_LIMIT] and is
    clamped to [1 .. MAX_LIMIT]. *)
Definition sanitized_limit (c : config) (l : option Z) : Z :=
  clamp c (default (DEFAULT_LIMIT c) l).

(** The effective direction: a [previous] cursor walks backwards. *)
Definition sort_direction (sortAscending : option bool)
    (previous : option cursor) : bool :=
  let asc := default false sortAscending in
  if previous is Some _ then negb asc else asc.

Definition generateSort (field : string) (asc : bool)
  : list (string * bool) :=
  if bool_decide (field = "_id") then [("_id", asc)]
  else [(field, asc); ("_id", asc)].

(** A [next] cursor takes precedence over a [previous] one. *)
Definition generateCursorQuery (field : string) (asc : bool)
    (next previous : option cursor) : find_filter :=
  match (if next is Some _ then next else previous) with
  | None => FQuery ∅
  | Some cur =>
      let op := if asc then MGt else MLt in
      if bool_decide (field = "_id") then FQuery {["_id" := op cur.2]}
      else FOr [ {[field := op cur.1]};
                 <[field := MEq cur.1]> {["_id" := op cur.2]} ]
  end.

Definition encode (field : string) (d : document) : cursor :=
  (Bson.sort_key field d, Bson.sort_key "_id" d).

(** One document more than the limit was asked for, to learn whether
    another page exists; it is dropped again here. *)
Definition prepareResponse (field : string) (limit : Z)
    (next previous : option cursor) (fetched : list document)
  : MongoPagedResult.t :=
  let hasMore := bool_decide (limit < Z.of_nat (length fetched)) in
  let popped := if hasMore then removelast fetched else fetched in
  let ordered := if previous is Some _ then reverse popped else popped in
  {| MongoPagedResult.results := ordered;
     MongoPagedResult.previous := encode field <$> head ordered;
     MongoPagedResult.hasPrevious :=
       bool_decide (is_Some next) || (bool_decide (is_Some previous) && hasMore);
     MongoPagedResult.next := encode field <$> last ordered;
     MongoPagedResult.hasNext := bool_decide (is_Some previous) || hasMore |}.

(** [params.fields && !params.fields[params.paginatedField]]: whether
    the caller asked for fields and not for the paginated one.  The
    repository hands over the literal [{ projection }], in which the
    library finds something only under the name "projection" or under a
    name inherited from [Object.prototype]. *)
Definition removePaginatedFieldInResponse
    (fields : option Mongo.find_options) (field : string) : bool :=
  match fields with
  | Some _ => negb (bool_decide (field ∈ "projection" :: prototype_names))
  | None => false
  end.

(** [_.omit(result, paginatedField)] on every result. *)
Definition omit (field : string) (response : MongoPagedResult.t)
  : MongoPagedResult.t :=
  {| MongoPagedResult.results :=
       delete field <$> MongoPagedResult.results response;
     MongoPagedResult.previous := MongoPagedResult.previous response;
     MongoPagedResult.hasPrevious := MongoPagedResult.hasPrevious response;
     MongoPagedResult.next := MongoPagedResult.next response;
     MongoPagedResult.hasNext := MongoPagedResult.hasNext response |}.

(** The driver is handed [params.fields] for its options, of which it
    reads [projection]; the response is prepared from what it returns,
    and the paginated field is then taken out of the results if the
    caller did not ask for it. *)
Definition find (c : config) (coll : string) (p : find_params)
  : M MongoPagedResult.t :=
  let field := default "_id" (fp_paginatedField p) in
  let limit := sanitized_limit c (fp_limit p) in
  let asc := sort_direction (fp_sortAscending p) (fp_previous p) in
  let cursorQuery := generateCursorQuery field asc (fp_next p) (fp_previous p) in
  let* fetched :=
    Mongo.find_toArray coll (FAnd cursorQuery (filter_of (fp_query p)))
      (fp_fields p) (generateSort field asc) (Some (limit + 1)) in
  let response :=
    prepareResponse field limit (fp_next p) (fp_previous p) fetched in
  ret (if removePaginatedFieldInResponse (fp_fields p) field
       then omit field response else response).

(** Text relevance of a document for a search string: the number of
    words of its string fields that occur in the search string.  Only
    the order it induces matters here. *)
Definition hits (terms : list string) (v : value) : Z :=
  match v with
  | VStr s => Z.of_nat (length (filter (λ w, w ∈ terms) (String.words s)))
  | _ => 0
  end.

Definition textScore (searchString : string) (d : document) : Z :=
  map_fold (λ _ v acc, hits (String.words searchString) v + acc) 0 d.

Definition with_score (searchString : string) (d : document) : document :=
  <["score" := VNum (textScore searchString d)]> d.

Definition after (cur : cursor) (d : document) : bool :=
  let sc := Bson.sort_key "score" d in
  let id := Bson.sort_key "_id" d in
  (Match.same_type sc cur.1 && Bson.ltb sc cur.1)
  || (bool_decide (sc = cur.1) && Match.same_type id cur.2 && Bson.ltb id cur.2).

(** [search] runs the pipeline
    [$match] (text and query), [$project] (fields, [_id] and the text
    score), [$sort] by descending score then descending [_id], the
    cursor [$match], [$limit].  No paginated field or direction takes
    part, and the limit defaults to [MAX_LIMIT]. *)
Definition search (c : config) (coll : string)
    (searchString : option string) (p : search_params)
  : M MongoPagedResult.t :=
  let limit := clamp c (default (MAX_LIMIT c) (sp_limit p)) in
  Mongo.round_trip ;;
  match searchString, sp_query p with
  | None, _ => throw (MongoError "$search had the wrong type")
  | _, QPipeline _ => Mongo.bad_filter
  | Some text, QFilter q =>
      let spec := <["score" := true]> (<["_id" := true]> (sp_fields p)) in
      if Projection.mixed spec
      then throw (MongoError "Projection cannot have a mix of inclusion and exclusion")
      else if bool_decide (limit < 1)
      then throw (MongoError "the limit must be positive")
      else
        let* s := get_state in
        let matched :=
          filter (λ d, Is_true (Match.query q d && bool_decide (0 < textScore text d)))
                 (Mongo.docs coll s) in
        let projected := (λ d, Projection.apply spec (with_score text d)) <$> matched in
        let sorted := Bson.sort_docs [("score", false); ("_id", false)] projected in
        let rest := match sp_next p with
                    | Some cur => filter (λ d, Is_true (after cur d)) sorted
                    | None => sorted
                    end in
        let page := take (Z.to_nat limit) rest in
        ret {| MongoPagedResult.results := page;
               MongoPagedResult.previous := None;
               MongoPagedResult.hasPrevious := false;
               MongoPagedResult.next :=
                 if bool_decide (Z.of_nat (length page) = limit)
                 then encode "score" <$> last page else None;
               MongoPagedResult.hasNext := false |}
  end.

(** [_.isEmpty(step.$match)]. *)
Definition isEmpty (f : find_filter) : bool :=
  match f with
  | FQuery q => bool_decide (q = ∅)
  | _ => false
  end.

(** The cursor [$match] is merged into the first non-empty [$match]
    stage (or put in front), and [$sort] and [$limit] follow it
    directly: whatever the pipeline does afterwards works on that one
    page. *)
Fixpoint paginate (cursorQuery : find_filter) (extra : list stage)
    (p : list stage) : option (list stage) :=
  match p with
  | [] => None
  | SMatch f :: rest =>
      if isEmpty f then (SMatch f ::.) <$> paginate cursorQuery extra rest
      else Some (SMatch (FAnd cursorQuery f) :: extra ++ rest)
  | st :: rest => (st ::.) <$> paginate cursorQuery extra rest
  end.

Definition aggregate (c : config) (coll : string) (p : aggregate_params)
  : M MongoPagedResult.t :=
  let field := default "_id" (ap_paginatedField p) in
  let limit := sanitized_limit c (ap_limit p) in
  let asc := sort_direction (ap_sortAscending p) (ap_previous p) in
  let cursorQuery := generateCursorQuery field asc (ap_next p) (ap_previous p) in
  let extra := [SSort (generateSort field asc); SLimit (limit + 1)] in
  match ap_aggregation p with
  | QFilter _ => throw (TypeError "params.aggregation.unshift is not a function")
  | QPipeline stages =>
      let pipeline := default (SMatch cursorQuery :: extra ++ stages)
                              (paginate cursorQuery extra stages) in
      let* fetched := Mongo.aggregate_toArray coll (QPipeline pipeline) in
      ret (prepareResponse field limit (ap_next p) (ap_previous p) fetched)
  end.

End MongoPaging.

(** ** Collaborators of the repository *)

(** [config.paginationDefault] and [config.paginationMax]; the
    configuration module is a parameter of the model. *)
Record config := { paginationDefault : Z; paginationMax : Z }.

(** [logger.debug] records which operation ran; the message text is not
    kept.  [logger.captureError] records the error it was given. *)
Definition logger_debug (operation : string) : M unit :=
  modify (λ s, with_log (log s ++ [LogDebug operation]) s).
Definition logger_captureError (e : error) : M unit :=
  modify (λ s, with_log (log s ++ [LogCaptured e]) s).

(** [getTimestamp()] of the date helper reads the clock. *)
Definition getTimestamp : M Z := λ s, (Return (clock s), s).

(** Modelled from the spec: [DBClient.getConnection] (the client class is
    not part of the sources).  It returns the existing connection or
    establishes one; a connection failure propagates as the transport
    error of the underlying client. *)
Definition getConnection : M unit :=
  let* s := get_state in
  if client_db s then ret tt
  else match outage s with
       | Some msg => throw (MongoError msg)
       | None => modify (with_client_db true)
       end.

(** ** The repositories *)

(** A repository class: its collection and what it overrides.  A getter
    the subclass leaves alone is [None]. *)
Record repository := {
  collectionName : string;
  paginatedField_override : option string;
  paginatedAscending_override : option bool;
  configuration : config
}.

Module BaseRepository.

(** The constructor copies the configured limits into the pagination
    library. *)
Definition paging (r : repository) : MongoPaging.config :=
  {| MongoPaging.DEFAULT_LIMIT := paginationDefault (configuration r);
     MongoPaging.MAX_LIMIT := paginationMax (configuration r) |}.

Definition paginatedField (r : repository) : M string :=
  match paginatedField_override r with
  | Some f => ret f
  | None => throw (DeveloperError "paginatedField getter must be overridden!")
  end.

Definition paginatedAscending (r : repository) : M bool :=
  match paginatedAscending_override r with
  | Some b => ret b
  | None =>
      throw (DeveloperError "paginatedAscending getter must be overridden!")
  end.

Definition timestampField (r : repository) : M string := paginatedField r.

Definition getCollection (r : repository) : M string :=
  let* s := get_state in
  match handle s with
  | Some collection => ret collection
  | None =>
      getConnection ;;
      modify (with_handle (Some (collectionName r))) ;;
      ret (collectionName r)
  end.

(** The [catch] block every method ends with. *)
Definition rethrow {A} (err : error) : M A :=
  logger_captureError err ;;
  throw (RepositoryError err).

Definition create (r : repository) (item : document) : M Mongo.insert_ack :=
  let* collection := getCollection r in
  logger_debug "create" ;;
  try_catch (Mongo.insertOne collection item) rethrow.

Definition createBulk (r : repository) (item : list document) : M Z :=
  let* collection := getCollection r in
  logger_debug "createBulk" ;;
  try_catch (Mongo.insertMany collection item) rethrow.

Definition update (r : repository) (apiQuery : APIQuery.t) (item : document)
    (create : bool) : M (option document) :=
  let* collection := getCollection r in
  logger_debug "update" ;;
  try_catch
    (Mongo.findOneAndUpdate collection (APIQuery.query apiQuery)
       (Mongo.USet item) create false)
    rethrow.

Definition deleteOne (r : repository) (apiQuery : APIQuery.t)
  : M Mongo.delete_ack :=
  let* collection := getCollection r in
  logger_debug "deleteOne" ;;
  try_catch (Mongo.deleteOne collection (APIQuery.query apiQuery)) rethrow.

Definition count (r : repository) (query : query_arg) : M Z :=
  let* collection := getCollection r in
  try_catch (Mongo.countDocuments collection query) rethrow.

(** The getters are first read while the debug message is built,
    before the [try] block is entered. *)
Definition aggregatePaging (r : repository) (apiQuery : APIQuery.t)
  : M MongoPagedResult.t :=
  let* collection := getCollection r in
  (paginatedField r ;; paginatedAscending r ;;
   logger_debug "aggregatePaging") ;;
  try_catch
    (let* field := paginatedField r in
     let* ascending := paginatedAscending r in
     MongoPaging.aggregate (paging r) collection
       {| MongoPaging.ap_aggregation := APIQuery.query apiQuery;
          MongoPaging.ap_paginatedField := Some field;
          MongoPaging.ap_sortAscending := None;
          MongoPaging.ap_paginatedAscending := Some ascending;
          MongoPaging.ap_limit := APIQuery.limit apiQuery;
          MongoPaging.ap_next := APIQuery.next apiQuery;
          MongoPaging.ap_previous := APIQuery.previous apiQuery |})
    rethrow.

Definition aggregate (r : repository) (apiQuery : APIQuery.t)
  : M (list document) :=
  let* collection := getCollection r in
  logger_debug "aggregate" ;;
  try_catch (Mongo.aggregate_toArray collection (APIQuery.query apiQuery))
    rethrow.

(** What reading [.length] off a JS value gives. *)
Inductive js_length :=
  | LengthOfNothing      (* the value is undefined or null: the read throws *)
  | LengthUndefined      (* the value has no such property *)
  | LengthIs (n : Z).

(** [apiQuery.query.keys.length]: [.keys] reads the property named
    "keys" of the query.  On a filter object that is the matcher stored
    under the field "keys", if there is one; on an array it is the
    method [Array.prototype.keys], a function of no parameters. *)
Definition keys_length (q : query_arg) : js_length :=
  match q with
  | QPipeline _ => LengthIs 0
  | QFilter q =>
      match q !! "keys" with
      | None => LengthOfNothing
      | Some (MEq VNull) => LengthOfNothing
      | Some (MEq (VStr s)) => LengthIs (Z.of_nat (String.length s))
      | Some _ => LengthUndefined
      end
  end.

(** The options literal [{ _id: 1 }] has no [projection] key. *)
Definition id_only : option Mongo.find_options :=
  Some {| Mongo.projection_opt := None |}.

Definition exists_ (r : repository) (apiQuery : APIQuery.t) : M bool :=
  let* collection := getCollection r in
  logger_debug "exists" ;;
  let* empty :=
    match keys_length (APIQuery.query apiQuery) with
    | LengthOfNothing =>
        throw (TypeError "Cannot read property 'length' of undefined")
    | LengthUndefined => ret true
    | LengthIs n => ret (bool_decide (n = 0))
    end in
  if empty : bool
  then throw (RepositoryErrorReason "Invalid query for exists")
  else
    try_catch
      (let* result :=
         Mongo.find_toArray collection (filter_of (APIQuery.query apiQuery))
           id_only [] (Some 1) in
       ret (bool_decide (0 < length result)%nat))
      rethrow.

(** [obj.hasOwnProperty(field)].  The method is looked up on [obj]
    itself before its prototype: an own property named hasOwnProperty
    hides the method of [Object.prototype], and no value that a document
    holds can be called. *)
Definition hasOwnProperty (obj : document) (field : string) : M bool :=
  match obj !! "hasOwnProperty" with
  | Some _ => throw (TypeError "obj.hasOwnProperty is not a function")
  | None => ret (bool_decide (is_Some (obj !! field)))
  end.

(** [_.reduce(collection, iteratee, accumulator)]. *)
Fixpoint reduce {A B} (collection : list B) (iteratee : A → B → M A)
    (accumulator : A) : M A :=
  match collection with
  | [] => ret accumulator
  | x :: rest =>
      let* rv := iteratee accumulator x in
      reduce rest iteratee rv
  end.

(** The [_.reduce] of [existsOR]: one [{ [field]: obj[field] }] clause
    is pushed for each listed field that [obj] owns. *)
Definition or_clauses (obj : document) (fields : list string)
  : M (list fields_query) :=
  reduce fields
    (λ rv field,
       let* own := hasOwnProperty obj field in
       ret (match own, obj !! field with
            | true, Some v => rv ++ [{[field := MEq v]}]
            | _, _ => rv
            end))
    [].

Definition existsOR (r : repository) (obj : document) (fields : list string)
  : M bool :=
  let* collection := getCollection r in
  let* qor := or_clauses obj fields in
  if bool_decide (length qor = 0%nat)
  then throw (RepositoryErrorReason "Invalid query for existsOR")
  else
    logger_debug "existsOR" ;;
    try_catch
      (let* result :=
         Mongo.find_toArray collection (FOr qor) id_only [] (Some 1) in
       ret (bool_decide (0 < length result)%nat))
      rethrow.

Definition distinct (r : repository) (field : string) : M (list value) :=
  let* collection := getCollection r in
  logger_debug "distinct" ;;
  try_catch (Mongo.distinct collection field) rethrow.

(** The options object handed to [MongoPaging.search]: it has no
    [paginatedField] and no direction. *)
Definition search_options (apiQuery : APIQuery.t)
  : MongoPaging.search_params :=
  {| MongoPaging.sp_query := APIQuery.query apiQuery;
     MongoPaging.sp_fields := APIQuery.fields apiQuery;
     MongoPaging.sp_limit := APIQuery.limit apiQuery;
     MongoPaging.sp_next := APIQuery.next apiQuery;
     MongoPaging.sp_previous := APIQuery.previous apiQuery |}.

Definition search (r : repository) (apiQuery : APIQuery.t)
  : M MongoPagedResult.t :=
  let* collection := getCollection r in
  (paginatedField r ;; paginatedAscending r ;; logger_debug "search") ;;
  try_catch
    (MongoPaging.search (paging r) collection (APIQuery.search apiQuery)
       (search_options apiQuery))
    rethrow.

(** [Object.keys(apiQuery.fields).length ? { projection: ... } : undefined] *)
Definition find_projection (apiQuery : APIQuery.t)
  : option Mongo.find_options :=
  if bool_decide (length (map_to_list (APIQuery.fields apiQuery)) = 0%nat)
  then None
  else Some {| Mongo.projection_opt := Some (APIQuery.fields apiQuery) |}.

Definition find_options (apiQuery : APIQuery.t) (field : string)
    (ascending : bool) : MongoPaging.find_params :=
  {| MongoPaging.fp_query := APIQuery.query apiQuery;
     MongoPaging.fp_fields := find_projection apiQuery;
     MongoPaging.fp_paginatedField := Some field;
     MongoPaging.fp_sortAscending := Some ascending;
     MongoPaging.fp_limit := APIQuery.limit apiQuery;
     MongoPaging.fp_next := APIQuery.next apiQuery;
     MongoPaging.fp_previous := APIQuery.previous apiQuery |}.

Definition find (r : repository) (apiQuery : APIQuery.t)
  : M MongoPagedResult.t :=
  let* collection := getCollection r in
  (paginatedField r ;; paginatedAscending r ;; logger_debug "find") ;;
  try_catch
    (let* field := paginatedField r in
     let* ascending := paginatedAscending r in
     MongoPaging.find (paging r) collection
       (find_options apiQuery field ascending))
    rethrow.

(** [{ projection: apiQuery.fields }], whatever the fields are. *)
Definition findOne_options (apiQuery : APIQuery.t)
  : option Mongo.find_options :=
  Some {| Mongo.projection_opt := Some (APIQuery.fields apiQuery) |}.

Definition findOne (r : repository) (apiQuery : APIQuery.t)
  : M (option document) :=
  let* collection := getCollection r in
  logger_debug "findOne" ;;
  try_catch
    (let* result :=
       Mongo.find_toArray collection (filter_of (APIQuery.query apiQuery))
         (findOne_options apiQuery) [] (Some 1) in
     logger_debug "result" ;;
     ret (head result))
    rethrow.

Definition findOneOrCreate (r : repository) (apiQuery : APIQuery.t)
    (createUser : string) : M (option document) :=
  let* collection := getCollection r in
  logger_debug "findOneOrCreate" ;;
  try_catch
    (let* now := getTimestamp in
     Mongo.findOneAndUpdate collection (APIQuery.query apiQuery)
       (Mongo.USetOnInsert
          (<["createdOn" := VNum now]> {["createdBy" := VStr createUser]}))
       true false)
    rethrow.

End BaseRepository.

Module OrganizationRepository.

Definition repo (c : config) : repository :=
  {| collectionName := "organization";
     paginatedField_override := Some "createdOn";
     paginatedAscending_override := Some false;
     configuration := c |}.

(** [this.client.db] is read directly: without a connection it is
    undefined.  There is no [try] block in this method. *)
Definition getNewOrganizationIdentifier : M (option value) :=
  let* s := get_state in
  if client_db s then
    let* result :=
      Mongo.findOneAndUpdate "identityCounter"
        (QFilter {["indentity" := MEq (VStr "organization_index")]})
        (Mongo.UInc "count" 9) true false in
    match result with
    | Some value => ret (value !! "count")
    | None => throw (TypeError "Cannot read property 'count' of null")
    end
  else throw (TypeError "Cannot read property 'collection' of undefined").

End OrganizationRepository.

(** ** Helpers *)

(** *** Regular expressions

    The part of the pattern language that [matchHexOfLength] uses, with
    the matching rules of a pattern compiled without the [u] and [m]
    flags.  A place in the input is the number of characters before it
    and the characters after it. *)

Module RegExp.

Inductive node :=
  | Bol                                     (* ^ *)
  | Eol                                     (* $ *)
  | Char (c : ascii)
  | Class (ranges : list (ascii * ascii))   (* [a-f0-9] *)
  | Repeat (n : nat) (r : node)             (* r{n} *)
  | Seq (r1 r2 : node).

(** Canonicalize of the [i] flag: the upper-case form, which for the
    characters of a pattern in ASCII only moves a-z. *)
Definition toUpperCase (c : ascii) : ascii :=
  let n := N_of_ascii c in
  if bool_decide (97 ≤ n ≤ 122)%N then ascii_of_N (n - 32) else c.

Definition toLowerCase (c : ascii) : ascii :=
  let n := N_of_ascii c in
  if bool_decide (65 ≤ n ≤ 90)%N then ascii_of_N (n + 32) else c.

Definition canonicalize (ignoreCase : bool) (c : ascii) : ascii :=
  if ignoreCase then toUpperCase c else c.

Definition in_ranges (ranges : list (ascii * ascii)) (c : ascii) : bool :=
  existsb (λ r, bool_decide (N_of_ascii r.1 ≤ N_of_ascii c ≤ N_of_ascii r.2)%N)
          ranges.

(** A character is in a class when some member of the class has the
    same canonical form. *)
Definition in_class (ignoreCase : bool) (ranges : list (ascii * ascii))
    (c : ascii) : bool :=
  in_ranges ranges c
  || (ignoreCase && (in_ranges ranges (toUpperCase c)
                     || in_ranges ranges (toLowerCase c))).

Definition place := (nat * string)%type.

Fixpoint times (n : nat) (m : place → list place) (st : place)
  : list place :=
  match n with
  | O => [st]
  | S n' => m st ≫= times n' m
  end.

(** The places a node can leave the matcher at. *)
Fixpoint run (ignoreCase : bool) (r : node) (st : place) : list place :=
  match r with
  | Bol => if bool_decide (st.1 = 0%nat) then [st] else []
  | Eol => if bool_decide (st.2 = EmptyString) then [st] else []
  | Char c =>
      match st.2 with
      | String ch rest =>
          if bool_decide (canonicalize ignoreCase ch = canonicalize ignoreCase c)
          then [(S st.1, rest)] else []
      | EmptyString => []
      end
  | Class ranges =>
      match st.2 with
      | String ch rest =>
          if in_class ignoreCase ranges ch then [(S st.1, rest)] else []
      | EmptyString => []
      end
  | Repeat n r' => times n (run ignoreCase r') st
  | Seq r1 r2 => run ignoreCase r1 st ≫= run ignoreCase r2
  end.

(** Every position of the input, from [pos] on. *)
Fixpoint positions (pos : nat) (s : string) : list place :=
  (pos, s) ::
  match s with
  | String _ rest => positions (S pos) rest
  | EmptyString => []
  end.

(** [new RegExp(...).test(text)]: a fresh pattern starts at index 0 and
    tries every position. *)
Definition test (ignoreCase : bool) (r : node) (text : string) : bool :=
  existsb (λ st, bool_decide (run ignoreCase r st ≠ [])) (positions 0 text).

End RegExp.

(** The pattern [^0x[a-f0-9]{length}$] with the flags [gi], for a
    [length] that is a natural number: the template then prints the
    quantifier [{n}]. *)
Definition matchHexOfLength (text : string) (length : nat) : bool :=
  RegExp.test true
    (RegExp.Seq RegExp.Bol
       (RegExp.Seq (RegExp.Char "0")
          (RegExp.Seq (RegExp.Char "x")
             (RegExp.Seq
                (RegExp.Repeat length
                   (RegExp.Class [("a", "f"); ("0", "9")]%char))
                RegExp.Eol))))
    text.

(** ** The event service *)

Module EventService.

(** [getEventExists]: the event repository is asked for any document with
    that [eventId]. *)
Definition getEventExists (eventRepository : repository) (eventId : string)
  : M bool :=
  BaseRepository.existsOR eventRepository {["eventId" := VStr eventId]}
    ["eventId"].

Definition getEventDistinctField (eventRepository : repository)
    (field : string) : M (list value) :=
  BaseRepository.distinct eventRepository field.


End EventService.

(** ** Vocabulary of the statements *)

(** The server is reachable and the repository object is either fresh or
    has cached the handle of its own collection. *)
Definition online (r : repository) (s : state) : Prop :=
  outage s = None ∧ (handle s = None ∨ handle s = Some (collectionName r)).

(** The documents of the repository's collection. *)
Definition stored (r : repository) (s : state) : list document :=
  Mongo.docs (collectionName r) s.

(** [a] may come before [b] in a list ordered by field [f]. *)
Definition key_le (f : string) (asc : bool) : relation document :=
  λ a b, Is_true (if asc then Bson.leb (Bson.sort_key f a) (Bson.sort_key f b)
                  else Bson.leb (Bson.sort_key f b) (Bson.sort_key f a)).

Definition ordered_by (f : string) (asc : bool) (l : list document) : Prop :=
  StronglySorted (key_le f asc) l.

(** A query made of equality clauses only. *)
Definition equality_only (q : fields_query) : Prop :=
  map_Forall (λ _ m, ∃ v, m = MEq v) q.

(** The filter that selects the organization counter document. *)
Definition counter_query : fields_query :=
  {["indentity" := MEq (VStr "organization_index")]}.

(** What the organization counter stands at: 0 while there is no counter
    document or it has no count yet, nothing when the stored count is not
    a number. *)
Definition counter_state (s : state) : option Z :=
  match Mongo.first_match counter_query (Mongo.docs "identityCounter" s) with
  | None => Some 0
  | Some (_, d) =>
      match d !! "count" with
      | None => Some 0
      | Some (VNum n) => Some n
      | Some _ => None
      end
  end.

(** [n] sequential calls of [getNewOrganizationIdentifier], each on the
    state the call before it left behind. *)
Fixpoint mint (n : nat) (s : state)
  : list (outcome (option value)) * state :=
  match n with
  | O => ([], s)
  | S n' =>
      let '(o, s') := OrganizationRepository.getNewOrganizationIdentifier s in
      let '(os, s'') := mint n' s' in
      (o :: os, s'')
  end.

(** A state with a connected client, no outage and empty collections. *)
Definition fresh_state : state := mkState true None None ∅ 0 [].

(** The same with the organization counter at 18. *)
Definition counting_state : state :=
  with_store
    {["identityCounter" :=
        [<["_id" := VId 1]>
           (<["count" := VNum 18]> {["indentity" := VStr "organization_index"]})]]}
    fresh_state.

(** What [getCollection] leaves behind when it succeeds: the handle is
    cached and nothing else of interest changes. *)
Definition opened (r : repository) (s s' : state) : Prop :=
  store s' = store s ∧ outage s' = outage s ∧ clock s' = clock s
  ∧ log s' = log s ∧ handle s' = Some (collectionName r).

(** Values for the worked examples. *)
Definition example_config : config :=
  {| paginationDefault := 20; paginationMax := 100 |}.

(** A subclass that names its collection and overrides nothing. *)
Definition bare_repository : repository :=
  {| collectionName := "asset";
     paginatedField_override := None;
     paginatedAscending_override := None;
     configuration := example_config |}.

Definition organizations : repository :=
  OrganizationRepository.repo example_config.

(** An [APIQuery] that only carries a filter. *)
Definition filter_query (q : fields_query) : APIQuery.t :=
  {| APIQuery.query := QFilter q;
     APIQuery.fields := ∅;
     APIQuery.search := None;
     APIQuery.limit := None;
     APIQuery.next := None;
     APIQuery.previous := None |}.

(** The filter [{ _id: id }]. *)
Definition by_id (id : value) : APIQuery.t :=
  filter_query {["_id" := MEq id]}.

(** The run threw a RepositoryError around the driver's error [msg]. *)
Definition wrapped {A} (msg : string) (r : outcome A * state) : Prop :=
  r.1 = Throw (RepositoryError (MongoError msg)).

(** A batch whose documents leave it to the store to mint their [_id]. *)
Definition without_ids (items : list document) : Prop :=
  Forall (λ d, d !! "_id" = None) items.

(** The documents [l] can stand together in a collection with unique
    indexes on [fields]: no two of them have the same key in any of
    them. *)
Definition distinct_keys (fields : list string) (l : list document) : Prop :=
  Forall (λ f, NoDup (Bson.sort_key f <$> l)) fields.

(** The unique indexes of the repository's collection admit [d] beside
    the documents stored. *)
Definition admits (r : repository) (s : state) (d : document) : Prop :=
  Mongo.clashes (Mongo.unique_fields (collectionName r)) (stored r s) d = false.

(** They also admit [d'] in the place of the i-th document [d]. *)
Definition admits_update (r : repository) (s : state) (i : nat)
    (d d' : document) : Prop :=
  Mongo.clashes (Mongo.rekeyed (Mongo.unique_fields (collectionName r)) d d')
    (delete i (stored r s)) d' = false.

(** An organization as the organization collection files it. *)
Definition organization (n : Z) (title owner : string) : document :=
  <["organizationId" := VNum n]>
    (<["title" := VStr title]> {["owner" := VStr owner]}).

(** What [find] fetches for a filter query: the matching documents in
    sort order, one more than the limit. *)
Definition fetched (r : repository) (q : APIQuery.t) (fq : fields_query)
    (f : string) (asc : bool) (s : state) : list document :=
  let dir := MongoPaging.sort_direction (Some asc) (APIQuery.previous q) in
  let limit := MongoPaging.sanitized_limit (BaseRepository.paging r)
                 (APIQuery.limit q) in
  Mongo.limited (limit + 1)
    (Bson.sort_docs (MongoPaging.generateSort f dir)
       (filter (λ d, Is_true (Match.doc
                  (FAnd (MongoPaging.generateCursorQuery f dir
                           (APIQuery.next q) (APIQuery.previous q))
                        (FQuery fq)) d))
               (Mongo.docs (collectionName r) s))).

(** The creation metadata [findOneOrCreate] sets on insert. *)
Definition creation_stamp (now : Z) (createUser : string) : document :=
  <["createdOn" := VNum now]> {["createdBy" := VStr createUser]}.

(** A query with a comparison clause: [{ a: { $in: [1, 2] } }]. *)
Definition in_query : APIQuery.t :=
  filter_query {["a" := MIn [VNum 1; VNum 2]]}.

(** Two organizations on file, the second the newer one. *)
Definition older : document :=
  <["_id" := VId 1]>
    (<["createdOn" := VNum 10]> (organization 1 "gold gold" "0x01")).

Definition newest : document :=
  <["_id" := VId 2]>
    (<["createdOn" := VNum 20]> (organization 2 "gold" "0x02")).

Definition gold_state : state :=
  with_store {["organization" := [older; newest]]} fresh_state.

(** The same collection under a repository that paginates by createdOn,
    ascending. *)
Definition oldest_first : repository :=
  {| collectionName := "organization";
     paginatedField_override := Some "createdOn";
     paginatedAscending_override := Some true;
     configuration := example_config |}.

(** An [APIQuery] for the aggregate family: every document, two a page. *)
Definition all_query : APIQuery.t :=
  {| APIQuery.query := QPipeline [];
     APIQuery.fields := ∅;
     APIQuery.search := None;
     APIQuery.limit := Some 2;
     APIQuery.next := None;
     APIQuery.previous := None |}.

(** A text search for "gold", two a page, asking for createdOn. *)
Definition gold_query : APIQuery.t :=
  {| APIQuery.query := QFilter ∅;
     APIQuery.fields := {["createdOn" := true]};
     APIQuery.search := Some "gold";
     APIQuery.limit := Some 2;
     APIQuery.next := None;
     APIQuery.previous := None |}.

(** A hexadecimal digit, in either case. *)
Definition hex_digit (c : ascii) : Prop :=
  c ∈ String.list_ascii_of_string "0123456789abcdefABCDEF".

(** Three organizations for the file of two: the first is stored, the
    second asks for the title "gold", which is taken, and the third is
    never tried.  createBulk throws and the first stays. *)
Definition three_more : list document :=
  [ organization 3 "silver" "0x03"; organization 4 "gold" "0x04";
    organization 5 "bronze" "0x05" ].


(** A pipeline made of well-formed [$match] stages only, and what it
    lets through. *)
Definition only_matches (p : list stage) : Prop :=
  Forall (λ st, ∃ f, st = SMatch f ∧ Match.well_formed f = true) p.

Definition passes (d : document) (p : list stage) : Prop :=
  ∀ f, SMatch f ∈ p → Match.doc f d = true.

(** The page of a paginated pipeline: cut out of a sorted list, and made
    of documents of the collection that pass every stage. *)
Definition page_of (spec : list (string * bool)) (n : Z)
    (p : list stage) (l l' : list document) : Prop :=
  (∃ l0, l' `sublist_of` take (Z.to_nat n) (Bson.sort_docs spec l0))
  ∧ ∀ d, d ∈ l' → d ∈ l ∧ passes d p.

(** The outcome of a method whose store operation failed with [msg]: the
    error is captured by the logger, then thrown wrapped, and the store
    is as it was. *)
Definition reported {A} (msg : string) (s : state) (r : outcome A * state)
  : Prop :=
  r.1 = Throw (RepositoryError (MongoError msg))
  ∧ last (log r.2) = Some (LogCaptured (MongoError msg))
  ∧ store r.2 = store s.

(** A client that never connected, facing a server that refuses. *)
Definition unreachable_state : state :=
  mkState false None (Some "ECONNREFUSED") ∅ 0 [].

(** Every document of [l] has field [f], and with values of one BSON
    type. *)
Definition uniform (f : string) (l : list document) : Prop :=
  ∀ a b, a ∈ l → b ∈ l →
    is_Some (a !! f)
    ∧ Bson.rank (Bson.sort_key f a) = Bson.rank (Bson.sort_key f b).

(** A collection cursors can walk: identifiers are unique, and the
    paginated field and [_id] are of one type each. *)
Definition cursor_ready (f : string) (l : list document) : Prop :=
  uniform f l ∧ uniform "_id" l ∧ NoDup ((λ d, d !! "_id") <$> l).

(** The documents that match a filter, in the order [find] pages through
    them. *)
Definition listing (r : repository) (fq : fields_query) (f : string)
    (asc : bool) (s : state) : list document :=
  Bson.sort_docs (MongoPaging.generateSort f asc)
    (filter (λ d, Is_true (Match.query fq d)) (stored r s)).

(** The query for the page that follows the newest organization, one
    document a page. *)
Definition after_newest : APIQuery.t :=
  {| APIQuery.query := QFilter ∅;
     APIQuery.fields := ∅;
     APIQuery.search := None;
     APIQuery.limit := Some 1;
     APIQuery.next := Some (MongoPaging.encode "createdOn" newest);
     APIQuery.previous := None |}.

(** [create] called on each document in turn, stopping at the first
    failure. *)
Fixpoint create_each (r : repository) (items : list document) : M unit :=
  match items with
  | [] => ret tt
  | item :: rest => BaseRepository.create r item ;; create_each r rest
  end.

(** One equality clause for each listed field that [obj] owns, in the
    order listed. *)
Definition own_clauses (obj : document) (fields : list string)
  : list fields_query :=
  omap (λ f, (λ v, {[f := MEq v]}) <$> obj !! f) fields.




(** The pipeline [[{ $match: { createdOn: { $gt: 0 } } }]], two a page. *)
Definition created_pipeline : APIQuery.t :=
  {| APIQuery.query := QPipeline [SMatch (FQuery {["createdOn" := MGt (VNum 0)]})];
     APIQuery.fields := ∅;
     APIQuery.search := None;
     APIQuery.limit := Some 2;
     APIQuery.next := None;
     APIQuery.previous := None |}.

(** ** The computation monad *)

Section monad.
Context {A B : Type}.

Lemma bind_Return (c : M A) (k : A → M B) s a s' :
  c s = (Return a, s') → bind c k s = k a s'.
Proof. unfold bind. by intros ->. Qed.

Lemma bind_Throw (c : M A) (k : A → M B) s e s' :
  c s = (Throw e, s') → bind c k s = (Throw e, s').
Proof. unfold bind. by intros ->. Qed.

Lemma try_catch_Return (c : M A) h s a s' :
  c s = (Return a, s') → try_catch c h s = (Return a, s').
Proof. unfold try_catch. by intros ->. Qed.

Lemma try_catch_Throw (c : M A) h s e s' :
  c s = (Throw e, s') → try_catch c h s = h e s'.
Proof. unfold try_catch. by intros ->. Qed.
End monad.

(** ** The BSON order *)

Module BsonFacts.
Import Bson.

Lemma leb_refl a : leb a a = true.
Proof.
  destruct a as [|[]| | |]; simpl; try done;
    try (apply bool_decide_eq_true; lia).
  apply Is_true_true. change (String.le s s). done.
Qed.

Lemma leb_total a b : leb a b = true ∨ leb b a = true.
Proof.
  destruct a as [|[]|x|x|x], b as [|[]|y|y|y]; simpl; auto;
    rewrite ?bool_decide_eq_true; try lia.
  destruct (String.leb_total x y); auto.
Qed.

Lemma leb_trans a b c : leb a b = true → leb b c = true → leb a c = true.
Proof.
  destruct a as [|[]|x|x|x], b as [|[]|y|y|y], c as [|[]|z|z|z]; simpl;
    rewrite ?bool_decide_eq_true; try done; try lia.
  intros H1%Is_true_true H2%Is_true_true. apply Is_true_true.
  change (String.le x z). by trans y.
Qed.

Lemma leb_antisym a b : leb a b = true → leb b a = true → a = b.
Proof.
  destruct a as [|[]|x|x|x], b as [|[]|y|y|y]; simpl;
    rewrite ?bool_decide_eq_true; try done; try lia;
    try (intros; f_equal; lia).
  intros. f_equal. by apply String.leb_antisym.
Qed.

#[global] Instance sort_le_total spec : Total (sort_le spec).
Proof.
  intros a b. unfold sort_le.
  induction spec as [|[f asc] rest IH]; simpl; [by left|].
  rewrite (bool_decide_ext (sort_key f b = sort_key f a)
                           (sort_key f a = sort_key f b)) by naive_solver.
  case_bool_decide; [done|].
  destruct asc, (leb_total (sort_key f a) (sort_key f b)) as [-> | ->];
    simpl; auto.
Qed.

#[global] Instance sort_le_trans spec : Transitive (sort_le spec).
Proof.
  intros a b c. unfold sort_le.
  induction spec as [|[f asc] rest IH]; simpl; [done|].
  generalize (sort_key f a) (sort_key f b) (sort_key f c).
  intros ka kb kc.
  destruct (decide (ka = kb)) as [->|Hab].
  { rewrite (bool_decide_eq_true_2 (kb = kb)) by done.
    case_bool_decide; auto. }
  rewrite (bool_decide_eq_false_2 (ka = kb)) by done.
  destruct (decide (kb = kc)) as [->|Hbc].
  { rewrite (bool_decide_eq_true_2 (kc = kc)) by done.
    by rewrite (bool_decide_eq_false_2 (ka = kc)) by done. }
  rewrite (bool_decide_eq_false_2 (kb = kc)) by done.
  intros H1%Is_true_true H2%Is_true_true.
  case_bool_decide as Hac.
  - exfalso. subst kc. destruct asc; apply Hab; by apply leb_antisym.
  - apply Is_true_true. destruct asc; eauto using leb_trans.
Qed.

Lemma sort_docs_sorted spec l : StronglySorted (sort_le spec) (sort_docs spec l).
Proof. apply StronglySorted_merge_sort; apply _. Qed.

Lemma sort_docs_perm spec l : sort_docs spec l ≡ₚ l.
Proof. apply merge_sort_Permutation. Qed.

End BsonFacts.

(** ** Ordered lists of documents *)

Section ordered.
Implicit Types (l : list document) (f : string) (asc : bool).

Lemma StronglySorted_sublist {X} (R : relation X) (l1 l2 : list X) :
  l1 `sublist_of` l2 → StronglySorted R l2 → StronglySorted R l1.
Proof.
  induction 1 as [|x l1 l2 Hsub IH|x l1 l2 Hsub IH]; intros Hs.
  - constructor.
  - apply StronglySorted_cons in Hs as [Hall Hs].
    apply StronglySorted_cons. split; [|auto].
    rewrite Forall_forall in Hall |- *.
    intros y Hy. apply Hall. by eapply elem_of_sublist.
  - apply StronglySorted_cons in Hs as [_ Hs]. auto.
Qed.

Lemma sublist_removelast {X} (l : list X) : removelast l `sublist_of` l.
Proof.
  induction l as [|x [|y l] IH]; simpl in *.
  - constructor.
  - by constructor.
  - by constructor.
Qed.

Lemma length_removelast {X} (l : list X) :
  length (removelast l) = (length l - 1)%nat.
Proof.
  induction l as [|x [|y l] IH]; simpl in *; [done..|].
  rewrite IH. lia.
Qed.

(** The sort specification the library generates orders by the
    paginated field first. *)
Lemma generateSort_key_le f asc a b :
  Bson.sort_le (MongoPaging.generateSort f asc) a b → key_le f asc a b.
Proof.
  unfold MongoPaging.generateSort, Bson.sort_le, key_le.
  case_bool_decide as Hf; simpl.
  - subst f. case_bool_decide as Hk; [|done].
    rewrite Hk. intros _. destruct asc; apply Is_true_true, BsonFacts.leb_refl.
  - case_bool_decide as Hk; [|done].
    rewrite Hk. intros _. destruct asc; apply Is_true_true, BsonFacts.leb_refl.
Qed.

Lemma sorted_ordered_by f asc l :
  StronglySorted (Bson.sort_le (MongoPaging.generateSort f asc)) l →
  ordered_by f asc l.
Proof.
  unfold ordered_by. induction 1 as [|x l Hs IH Hall]; constructor; [done|].
  eapply Forall_impl; [done|]. intros. by apply generateSort_key_le.
Qed.

Lemma ordered_by_sublist f asc l1 l2 :
  l1 `sublist_of` l2 → ordered_by f asc l2 → ordered_by f asc l1.
Proof. apply StronglySorted_sublist. Qed.

Lemma ordered_by_reverse f asc l :
  ordered_by f (negb asc) l → ordered_by f asc (reverse l).
Proof.
  unfold ordered_by. induction 1 as [|x l Hs IH Hall].
  - constructor.
  - rewrite reverse_cons. apply StronglySorted_app. split_and!; [|done|].
    + intros a b Ha Hb. apply list_elem_of_singleton in Hb as ->.
      rewrite elem_of_reverse in Ha. rewrite Forall_forall in Hall.
      specialize (Hall a Ha). unfold key_le in *. by destruct asc.
    + repeat constructor.
Qed.

(** A projection keeps a field in every document or in none. *)
Lemma sort_key_project p f d :
  Bson.sort_key f (Projection.apply p d) =
  if Projection.keeps p f then Bson.sort_key f d else VNull.
Proof.
  unfold Bson.sort_key, Projection.apply.
  rewrite map_lookup_filter. simpl.
  destruct (d !! f) as [v|]; simpl.
  - case_guard as Hk; simpl in *; destruct (Projection.keeps p f); done.
  - by destruct (Projection.keeps p f).
Qed.

Lemma ordered_by_project p f asc l :
  ordered_by f asc l → ordered_by f asc (Projection.apply p <$> l).
Proof.
  unfold ordered_by. induction 1 as [|x l Hs IH Hall]; simpl; constructor.
  - done.
  - apply Forall_fmap. eapply Forall_impl; [done|].
    intros y Hxy. unfold key_le in *. simpl.
    rewrite !sort_key_project. destruct (Projection.keeps p f); [done|].
    by destruct asc.
Qed.

End ordered.

(** ** Facts about the document store *)

Module MongoFacts.
Import Mongo.

Lemma docs_with_store coll l m s :
  docs coll (with_store (<[coll := l]> m) s) = l.
Proof. unfold docs. simpl. by rewrite lookup_insert_eq. Qed.

Lemma query_true q d :
  Match.query q d = true ↔
  ∀ f m, q !! f = Some m → Match.field m (d !! f) = true.
Proof.
  unfold Match.query. rewrite bool_decide_eq_true.
  unfold map_Forall. by setoid_rewrite Is_true_true.
Qed.

(** ObjectIds minted by the store are fresh. *)
Lemma oid_bound_gt l x n :
  x ∈ l → x !! "_id" = Some (VId n) → n < oid_bound l.
Proof.
  induction 1 as [x l|x y l Hin IH]; simpl; intros Hx.
  - rewrite Hx. lia.
  - specialize (IH Hx). destruct (y !! "_id") as [[]|]; lia.
Qed.

Lemma id_taken_false l d :
  id_taken l d = false ↔ ∀ x, x ∈ l → x !! "_id" ≠ d !! "_id".
Proof.
  unfold id_taken. induction l as [|y l IH]; simpl.
  - split; [|done]. intros _ x Hx. by apply not_elem_of_nil in Hx.
  - rewrite orb_false_iff, IH, bool_decide_eq_false.
    setoid_rewrite elem_of_cons. split.
    + intros [Hy Hl] x [->|Hx]; auto.
    + intros H. split; [apply H; by left|].
      intros x Hx. apply H. by right.
Qed.

Lemma with_id_fresh l d :
  d !! "_id" = None → id_taken l (with_id l d) = false.
Proof.
  intros Hd. apply id_taken_false. intros x Hx.
  unfold with_id. rewrite Hd, lookup_insert_eq. intros Heq.
  pose proof (oid_bound_gt l x _ Hx Heq). lia.
Qed.

Lemma clashes_nil l d : clashes [] l d = false.
Proof. done. Qed.

Lemma clashes_false fields l d :
  clashes fields l d = false
  ↔ ∀ f x, f ∈ fields → x ∈ l → Bson.sort_key f x ≠ Bson.sort_key f d.
Proof.
  unfold clashes. induction fields as [|g fields IH]; simpl.
  - split; [|done]. intros _ f x Hf. by apply not_elem_of_nil in Hf.
  - rewrite orb_false_iff, IH. split.
    + intros [Hg Hrest] f x [->|Hf]%elem_of_cons Hx; [|by apply Hrest].
      intros Heq. apply not_true_iff_false in Hg. apply Hg.
      apply existsb_exists. exists x. split; [by apply list_elem_of_In|].
      by apply bool_decide_eq_true.
    + intros H. split.
      * apply not_true_iff_false. intros (x & Hx & Heq)%existsb_exists.
        apply bool_decide_eq_true in Heq.
        by apply (H g x); [left|apply list_elem_of_In|].
      * intros f x Hf Hx. apply H; [by right|done].
Qed.

Lemma rekeyed_same fields d : rekeyed fields d d = [].
Proof.
  unfold rekeyed. induction fields as [|f fields IH]; [done|].
  by rewrite filter_cons_False by (intros Hne; by apply Hne).
Qed.

(** Fewer indexes, fewer clashes. *)
Lemma clashes_subseteq fields fields' l d :
  (∀ f, f ∈ fields → f ∈ fields') →
  clashes fields' l d = false → clashes fields l d = false.
Proof.
  rewrite !clashes_false. intros Hsub Hfree f x Hf Hx.
  apply Hfree; [by apply Hsub|done].
Qed.

Lemma clashes_rekeyed fields l d d' :
  clashes fields l d' = false → clashes (rekeyed fields d d') l d' = false.
Proof.
  apply clashes_subseteq. intros f Hf.
  unfold rekeyed in Hf. by apply list_elem_of_filter in Hf as [_ ?].
Qed.

(** No index is declared on [_id]: that one the server keeps itself. *)
Lemma unique_fields_not_id coll : "_id" ∉ unique_fields coll.
Proof.
  unfold unique_fields. case_bool_decide; [|apply not_elem_of_nil].
  intros Hin. repeat (apply elem_of_cons in Hin as [Hin|Hin]; [done|]).
  by apply not_elem_of_nil in Hin.
Qed.

Lemma refused_false coll l d :
  refused coll l d = false
  ↔ id_taken l d = false ∧ clashes (unique_fields coll) l d = false.
Proof. unfold refused. apply orb_false_iff. Qed.

Lemma with_id_lookup_ne l d f :
  f ≠ "_id" → with_id l d !! f = d !! f.
Proof.
  intros. unfold with_id. destruct (d !! "_id"); [done|].
  by rewrite lookup_insert_ne.
Qed.

Lemma first_match_update q l i d d' :
  first_match q l = Some (i, d) →
  Match.query q d' = true →
  first_match q (<[i := d']> l) = Some (i, d').
Proof.
  unfold first_match. intros (Hi & _ & Hleast)%list_find_Some Hd'.
  apply list_find_insert_Some. right; left.
  split_and!; [done|done|by eapply lookup_lt_Some|by apply Is_true_true|done].
Qed.

Lemma first_match_append q l d' :
  first_match q l = None →
  Match.query q d' = true →
  first_match q (l ++ [d']) = Some (length l, d').
Proof.
  unfold first_match. intros Hnone Hd'.
  rewrite list_find_app_r by done. simpl.
  rewrite decide_True by by apply Is_true_true. done.
Qed.

Lemma find_toArray_run coll flt o srt lim s :
  outage s = None → Match.well_formed flt = true →
  find_toArray coll flt o srt lim s =
  (let matched := filter (λ d, Is_true (Match.doc flt d)) (docs coll s) in
   let sorted := match srt with
                 | [] => matched
                 | _ => Bson.sort_docs srt matched
                 end in
   let page := match lim with
               | Some n => limited n sorted
               | None => sorted
               end in
   match o ≫= projection_opt with
   | None => Return page
   | Some p =>
       if Projection.mixed p
       then Throw (MongoError "Projection cannot have a mix of inclusion and exclusion")
       else Return (Projection.apply p <$> page)
   end, s).
Proof.
  intros Hout Hwf. unfold find_toArray, bind, round_trip, get_state.
  rewrite Hout, Hwf. simpl.
  destruct (o ≫= projection_opt) as [p|]; [|done].
  by destruct (Projection.mixed p).
Qed.

Lemma findOneAndUpdate_match coll q u upsert s i d d' :
  outage s = None →
  first_match q (docs coll s) = Some (i, d) →
  updated false u d = inr d' →
  clashes (rekeyed (unique_fields coll) d d') (delete i (docs coll s)) d'
  = false →
  findOneAndUpdate coll (QFilter q) u upsert false s =
  (Return (Some d'),
   with_store (<[coll := <[i := d']> (docs coll s)]> (store s)) s).
Proof.
  intros Hout Hfirst Hupd Hfree.
  unfold findOneAndUpdate, bind, round_trip, get_state.
  rewrite Hout, Hfirst, Hupd, Hfree. reflexivity.
Qed.

Lemma findOneAndUpdate_insert coll q u s d0 :
  outage s = None →
  first_match q (docs coll s) = None →
  updated true u (equality_fields q) = inr d0 →
  refused coll (docs coll s) (with_id (docs coll s) d0) = false →
  findOneAndUpdate coll (QFilter q) u true false s =
  (Return (Some (with_id (docs coll s) d0)),
   with_store (<[coll := docs coll s ++ [with_id (docs coll s) d0]]> (store s)) s).
Proof.
  intros Hout Hfirst Hupd Hfree.
  unfold findOneAndUpdate, bind, round_trip, get_state.
  rewrite Hout, Hfirst, Hupd, Hfree. reflexivity.
Qed.

Lemma findOneAndUpdate_outage coll q u upsert ro s msg :
  outage s = Some msg →
  findOneAndUpdate coll q u upsert ro s = (Throw (MongoError msg), s).
Proof.
  intros Hout. unfold findOneAndUpdate, bind, round_trip.
  by rewrite Hout.
Qed.

End MongoFacts.

(** ** Organization identifiers *)

Section identifiers.
Import Mongo MongoFacts OrganizationRepository.

Lemma counter_query_matches d :
  Match.query counter_query d = true ↔
  d !! "indentity" = Some (VStr "organization_index").
Proof.
  rewrite query_true. unfold counter_query. split.
  - intros H. specialize (H "indentity" _ (lookup_singleton_eq _ _)).
    simpl in H. destruct (d !! "indentity"); [|done].
    apply bool_decide_eq_true in H. by subst.
  - intros Hd f m [<- <-]%lookup_singleton_Some. by rewrite Hd.
Qed.

(** One call moves the counter from [c] to [c + 9] and returns the new
    value. *)
Lemma getNewOrganizationIdentifier_step s c :
  client_db s = true → outage s = None → counter_state s = Some c →
  ∃ s', getNewOrganizationIdentifier s = (Return (Some (VNum (c + 9))), s')
        ∧ client_db s' = true ∧ outage s' = None
        ∧ counter_state s' = Some (c + 9).
Proof.
  intros Hdb Hout Hc. unfold getNewOrganizationIdentifier.
  unfold bind at 1. unfold get_state. rewrite Hdb.
  fold counter_query. unfold counter_state in *.
  destruct (first_match counter_query (docs "identityCounter" s))
    as [[i d]|] eqn:Hfirst.
  - assert (Hd : d !! "indentity" = Some (VStr "organization_index")).
    { apply counter_query_matches, Is_true_true.
      unfold first_match in Hfirst. by apply list_find_Some in Hfirst as (_ & ? & _). }
    set (d' := <["count" := VNum (c + 9)]> d).
    assert (Hupd : updated false (UInc "count" 9) d = inr d').
    { unfold updated, apply_update, d'.
      destruct (d !! "count") as [[]|] eqn:Hcount; simplify_eq;
        rewrite ?Z.add_0_l; (destruct (d !! "_id") as [i0|] eqn:Hid; [|done]);
        rewrite lookup_insert_ne, Hid by done;
        by rewrite bool_decide_eq_true_2. }
    eexists. split.
    { erewrite bind_Return; [|by eapply findOneAndUpdate_match].
      unfold ret, d'. by rewrite lookup_insert_eq. }
    split_and!; [done..|]. simpl.
    fold (docs "identityCounter"
            (with_store (<["identityCounter" := <[i := d']> (docs "identityCounter" s)]> (store s)) s)).
    rewrite docs_with_store.
    erewrite first_match_update; [|done|].
    + unfold d'. by rewrite lookup_insert_eq.
    + apply counter_query_matches. unfold d'. by rewrite lookup_insert_ne.
  - assert (c = 0) as -> by congruence.
    set (d0 := <["count" := VNum 9]> (equality_fields counter_query)).
    assert (Heq : equality_fields counter_query
                  = {["indentity" := VStr "organization_index"]}).
    { unfold equality_fields, counter_query. by apply omap_singleton_Some. }
    assert (Hupd : updated true (UInc "count" 9) (equality_fields counter_query)
                   = inr d0).
    { unfold updated, apply_update, d0. rewrite Heq.
      by rewrite !lookup_singleton_ne. }
    assert (Hid : d0 !! "_id" = None).
    { unfold d0. rewrite Heq, lookup_insert_ne, lookup_singleton_ne; done. }
    eexists. split.
    { erewrite bind_Return;
        [|by eapply findOneAndUpdate_insert;
            [..|apply refused_false; split; [apply with_id_fresh|]]].
      unfold ret. rewrite with_id_lookup_ne by done.
      unfold d0. by rewrite lookup_insert_eq. }
    split_and!; [done..|]. simpl.
    fold (docs "identityCounter"
            (with_store (<["identityCounter" := docs "identityCounter" s
                             ++ [with_id (docs "identityCounter" s) d0]]> (store s)) s)).
    rewrite docs_with_store.
    erewrite first_match_append; [|done|].
    + rewrite with_id_lookup_ne by done. unfold d0. by rewrite lookup_insert_eq.
    + apply counter_query_matches. rewrite with_id_lookup_ne by done.
      unfold d0. rewrite Heq, lookup_insert_ne by done.
      by rewrite lookup_singleton_eq.
Qed.

Lemma mint_from n : ∀ s c,
  client_db s = true → outage s = None → counter_state s = Some c →
  (mint n s).1 =
  (λ k, Return (Some (VNum (c + 9 * Z.of_nat k)))) <$> seq 1 n.
Proof.
  induction n as [|n IH]; intros s c Hdb Hout Hc; [done|].
  destruct (getNewOrganizationIdentifier_step s c Hdb Hout Hc)
    as (s' & Hrun & Hdb' & Hout' & Hc').
  simpl. rewrite Hrun.
  specialize (IH s' (c + 9) Hdb' Hout' Hc').
  destruct (mint n s') as [os s''] eqn:Hm. simpl in *.
  rewrite IH. apply (f_equal2 cons).
  - do 3 f_equal; lia.
  - rewrite <- (fmap_S_seq 1), <- list_fmap_compose.
    apply list_fmap_ext. intros _ k _. simpl. do 3 f_equal; lia.
Qed.

End identifiers.

(** C7.  Starting from a counter that stands at 0, the k-th sequential call
    of getNewOrganizationIdentifier returns 9 * k: the first two calls
    return 9 and 18, and no value is returned twice. *)
Theorem organization_identifiers_step_9 (s : state) :
  client_db s = true → outage s = None → counter_state s = Some 0 →
  (mint 2 s).1 = [Return (Some (VNum 9)); Return (Some (VNum 18))]
  ∧ (∀ n, (mint n s).1 =
          (λ k, Return (Some (VNum (9 * Z.of_nat k)))) <$> seq 1 n)
  ∧ (∀ n, NoDup (mint n s).1).
Proof.
  intros Hdb Hout Hc.
  assert (Hall : ∀ n, (mint n s).1 =
            (λ k, Return (Some (VNum (9 * Z.of_nat k)))) <$> seq 1 n).
  { intros n. by rewrite (mint_from n s 0). }
  split_and!; [by rewrite Hall|done|].
  intros n. rewrite Hall. apply NoDup_fmap_2; [|apply NoDup_seq].
  intros j k Hjk. injection Hjk. lia.
Qed.

Lemma organization_identifiers_step_9_witness :
  (mint 2 fresh_state).1 = [Return (Some (VNum 9)); Return (Some (VNum 18))]
  ∧ (∀ n, (mint n fresh_state).1 =
          (λ k, Return (Some (VNum (9 * Z.of_nat k)))) <$> seq 1 n)
  ∧ (∀ n, NoDup (mint n fresh_state).1).
Proof.
  apply (organization_identifiers_step_9 fresh_state); reflexivity.
Defined.

(** ** Running repository methods *)

Section running.
Import Mongo MongoFacts BaseRepository.

Lemma getCollection_online r s :
  online r s →
  ∃ s', getCollection r s = (Return (collectionName r), s') ∧ opened r s s'.
Proof.
  intros [Hout [Hh|Hh]]; unfold getCollection, bind, get_state; rewrite Hh.
  - unfold getConnection, bind, get_state. destruct (client_db s) eqn:Hdb.
    + eexists. split; [reflexivity|]. by repeat split.
    + rewrite Hout. eexists. split; [reflexivity|]. by repeat split.
  - exists s. split; [done|]. by repeat split.
Qed.

Lemma getCollection_cached r s c :
  handle s = Some c → getCollection r s = (Return c, s).
Proof. intros Hh. unfold getCollection, bind, get_state. by rewrite Hh. Qed.

Lemma opened_outage r s s' : opened r s s' → outage s' = outage s.
Proof. by intros (_ & ? & _). Qed.

Lemma opened_docs r s s' coll : opened r s s' → docs coll s' = docs coll s.
Proof. intros (Hst & _). unfold docs. by rewrite Hst. Qed.

End running.

(** ** Missing pagination overrides *)

Section overrides.
Import BaseRepository.

(** The two getters are read, in this order, before anything else
    happens after [getCollection]. *)
Lemma getters_throw r s :
  paginatedField_override r = None ∨ paginatedAscending_override r = None →
  ∃ reason, ∀ A (k : M A),
    (paginatedField r ;; paginatedAscending r ;; k) s
    = (Throw (DeveloperError reason), s).
Proof.
  intros Hmiss. unfold paginatedField, paginatedAscending.
  destruct (paginatedField_override r) as [f|].
  - destruct Hmiss as [?| ->]; [done|]. by eexists.
  - by eexists.
Qed.

End overrides.

(** C5.  A repository subclass that leaves paginatedField or
    paginatedAscending alone gets a DeveloperError from the getter itself,
    and from find, search and aggregatePaging before the store is touched;
    a DeveloperError is not a RepositoryError. *)
Theorem missing_override_throws_DeveloperError
    (r : repository) (q : APIQuery.t) (s : state) :
  online r s →
  paginatedField_override r = None ∨ paginatedAscending_override r = None →
  (paginatedField_override r = None → ∀ s0,
     BaseRepository.paginatedField r s0 =
     (Throw (DeveloperError "paginatedField getter must be overridden!"), s0))
  ∧ (paginatedAscending_override r = None → ∀ s0,
     BaseRepository.paginatedAscending r s0 =
     (Throw (DeveloperError "paginatedAscending getter must be overridden!"), s0))
  ∧ ∃ reason,
      thrown (BaseRepository.find r q s) = Some (DeveloperError reason)
      ∧ thrown (BaseRepository.search r q s) = Some (DeveloperError reason)
      ∧ thrown (BaseRepository.aggregatePaging r q s) = Some (DeveloperError reason)
      ∧ store (BaseRepository.find r q s).2 = store s
      ∧ store (BaseRepository.search r q s).2 = store s
      ∧ store (BaseRepository.aggregatePaging r q s).2 = store s
      ∧ is_RepositoryError (DeveloperError reason) = false.
Proof.
  intros Hon Hmiss. split_and!.
  - intros Hf s0. unfold BaseRepository.paginatedField. by rewrite Hf.
  - intros Ha s0. unfold BaseRepository.paginatedAscending. by rewrite Ha.
  - destruct (getCollection_online r s Hon) as (s' & Hget & Hopen).
    destruct (getters_throw r s' Hmiss) as (reason & Hthrow).
    exists reason.
    assert (Hst : store s' = store s) by apply Hopen.
    unfold BaseRepository.find, BaseRepository.search,
      BaseRepository.aggregatePaging, thrown.
    rewrite !(bind_Return _ _ _ _ _ Hget).
    rewrite !(bind_Throw _ _ _ _ _ (Hthrow _ _)). by simpl.
Qed.

Lemma missing_override_throws_DeveloperError_witness :
  ∃ reason,
    thrown (BaseRepository.find bare_repository (filter_query ∅) fresh_state)
    = Some (DeveloperError reason)
    ∧ is_RepositoryError (DeveloperError reason) = false.
Proof.
  destruct (missing_override_throws_DeveloperError
              bare_repository (filter_query ∅) fresh_state)
    as (_ & _ & reason & Hfind & _ & _ & _ & _ & _ & Hkind).
  - split; [reflexivity | left; reflexivity].
  - left; reflexivity.
  - exists reason. by split.
Defined.

(** ** Store failures *)

Section failures.
Import Mongo MongoFacts BaseRepository.

(** With [hasOwnProperty] callable the clauses are those of the fields
    that [obj] owns. *)
Lemma or_clauses_plain obj fields s :
  fields = [] ∨ obj !! "hasOwnProperty" = None →
  or_clauses obj fields s = (Return (own_clauses obj fields), s).
Proof.
  intros [->|Hnone]; [done|].
  unfold or_clauses, own_clauses.
  enough (H : ∀ acc : list fields_query,
    reduce fields
      (λ rv field,
         let* own := hasOwnProperty obj field in
         ret (match own, obj !! field with
              | true, Some v => rv ++ [{[field := MEq v]}]
              | _, _ => rv
              end)) acc s
    = (Return (acc ++ omap (λ f, (λ v, {[f := MEq v]}) <$> obj !! f) fields), s))
    by apply (H []).
  induction fields as [|f fields IH]; intros acc; simpl.
  - by rewrite app_nil_r.
  - unfold bind at 1 2, hasOwnProperty at 1. rewrite Hnone.
    unfold ret at 1 2. rewrite IH.
    destruct (obj !! f) as [v|] eqn:Hv; simpl.
    + by rewrite <- app_assoc.
    + done.
Qed.

(** With [hasOwnProperty] hidden the first listed field stops the
    reduction. *)
Lemma or_clauses_shadowed obj fields s :
  fields ≠ [] → is_Some (obj !! "hasOwnProperty") →
  or_clauses obj fields s
  = (Throw (TypeError "obj.hasOwnProperty is not a function"), s).
Proof.
  intros Hne [v Hv]. destruct fields as [|f fields]; [done|].
  unfold or_clauses. simpl. unfold bind at 1, bind at 1, hasOwnProperty.
  by rewrite Hv.
Qed.

(** Unfold a run down to the first round trip and let it fail. *)
Local Ltac crash :=
  unfold MongoPaging.find, MongoPaging.search, MongoPaging.aggregate;
  unfold insertOne, insertMany, findOneAndUpdate, Mongo.deleteOne,
    countDocuments, aggregate_toArray, Mongo.distinct, find_toArray;
  unfold getTimestamp, logger_debug, rethrow, logger_captureError,
    round_trip, modify, get_state, try_catch, bind, ret, throw;
  simpl;
  match goal with H : outage _ = Some _ |- _ => rewrite H end.

(** With the collection handle in hand and the server gone, every method
    of [BaseRepository] that reaches the driver reports the driver's
    error wrapped in a RepositoryError. *)
Lemma store_failure_wrapped r q item items obj fields f c msg s :
  handle s = Some c → outage s = Some msg →
  wrapped msg (create r item s)
  ∧ (items ≠ [] → wrapped msg (createBulk r items s))
  ∧ wrapped msg (update r q item true s)
  ∧ wrapped msg (BaseRepository.deleteOne r q s)
  ∧ wrapped msg (count r (APIQuery.query q) s)
  ∧ wrapped msg (aggregate r q s)
  ∧ wrapped msg (BaseRepository.distinct r f s)
  ∧ wrapped msg (findOne r q s)
  ∧ wrapped msg (findOneOrCreate r q f s)
  ∧ (keys_length (APIQuery.query q) = LengthIs 1 → wrapped msg (exists_ r q s))
  ∧ (obj !! "hasOwnProperty" = None → own_clauses obj fields ≠ [] →
     wrapped msg (existsOR r obj fields s))
  ∧ (is_Some (paginatedField_override r) →
     is_Some (paginatedAscending_override r) →
     wrapped msg (find r q s)
     ∧ wrapped msg (search r q s)
     ∧ (∀ p, APIQuery.query q = QPipeline p → wrapped msg (aggregatePaging r q s))).
Proof.
  intros Hh Hout. unfold wrapped.
  unfold create, createBulk, update, BaseRepository.deleteOne, count,
    aggregate, BaseRepository.distinct, findOne, findOneOrCreate, exists_,
    existsOR, find, search, aggregatePaging.
  rewrite !(bind_Return _ _ _ _ _ (getCollection_cached r s c Hh)).
  split_and!; try (by crash).
  - intros Hne. destruct items; [done|]. by crash.
  - intros ->. by crash.
  - intros Hnone Hq.
    rewrite (bind_Return _ _ _ _ _
               (or_clauses_plain obj fields s (or_intror Hnone))).
    rewrite bool_decide_eq_false_2 by by destruct (own_clauses obj fields).
    by crash.
  - intros [pf Hpf] [pa Hpa].
    unfold paginatedField, paginatedAscending. rewrite Hpf, Hpa.
    split_and!; [by crash|by crash|].
    intros p Hp. unfold MongoPaging.aggregate. rewrite Hp. by crash.
Qed.

End failures.

(** C2.  getNewOrganizationIdentifier has no catch block: when the store
    fails during the call, the driver's own error reaches the caller, not
    a RepositoryError. *)
Theorem getNewOrganizationIdentifier_leaks_store_error (s : state) (msg : string) :
  client_db s = true → outage s = Some msg →
  OrganizationRepository.getNewOrganizationIdentifier s
  = (Throw (MongoError msg), s)
  ∧ is_RepositoryError (MongoError msg) = false
  ∧ is_raw (MongoError msg) = true.
Proof.
  intros Hdb Hout. split; [|done].
  unfold OrganizationRepository.getNewOrganizationIdentifier.
  unfold bind at 1. unfold get_state. rewrite Hdb.
  by erewrite bind_Throw by by apply MongoFacts.findOneAndUpdate_outage.
Qed.

Lemma getNewOrganizationIdentifier_leaks_store_error_witness :
  OrganizationRepository.getNewOrganizationIdentifier
    (with_outage (Some "connection closed") fresh_state)
  = (Throw (MongoError "connection closed"),
     with_outage (Some "connection closed") fresh_state)
  ∧ is_RepositoryError (MongoError "connection closed") = false
  ∧ is_raw (MongoError "connection closed") = true.
Proof.
  apply (getNewOrganizationIdentifier_leaks_store_error
           (with_outage (Some "connection closed") fresh_state)
           "connection closed"); reflexivity.
Defined.

(** ** Existence checks *)

(** C3.  exists reads the property named "keys" off the query object
    instead of counting the query's keys.  For every filter without a
    field called "keys", empty or not, the read of [.length] throws a
    TypeError before the try block and before any store query. *)
Theorem exists_reads_keys_property
    (r : repository) (q : APIQuery.t) (fq : fields_query) (s : state) :
  online r s →
  APIQuery.query q = QFilter fq → fq !! "keys" = None →
  (BaseRepository.exists_ r q s).1
  = Throw (TypeError "Cannot read property 'length' of undefined")
  ∧ store (BaseRepository.exists_ r q s).2 = store s
  ∧ is_RepositoryError (TypeError "Cannot read property 'length' of undefined")
    = false.
Proof.
  intros Hon Hq Hkeys.
  destruct (getCollection_online r s Hon) as (s' & Hget & Hopen).
  unfold BaseRepository.exists_.
  rewrite (bind_Return _ _ _ _ _ Hget).
  unfold BaseRepository.keys_length. rewrite Hq, Hkeys.
  split_and!; [done| |done]. simpl. apply Hopen.
Qed.

(** The empty query [{}], on an empty collection. *)
Lemma exists_reads_keys_property_witness :
  (BaseRepository.exists_ organizations (filter_query ∅) fresh_state).1
  = Throw (TypeError "Cannot read property 'length' of undefined")
  ∧ store (BaseRepository.exists_ organizations (filter_query ∅) fresh_state).2
    = store fresh_state
  ∧ is_RepositoryError (TypeError "Cannot read property 'length' of undefined")
    = false.
Proof.
  apply (exists_reads_keys_property organizations (filter_query ∅) ∅ fresh_state).
  - split; [reflexivity | left; reflexivity].
  - reflexivity.
  - reflexivity.
Defined.

(** ** Bulk insertion *)

Section bulk.
Import Mongo MongoFacts BaseRepository.

Lemma sort_key_with_id l d f :
  f ≠ "_id" → Bson.sort_key f (with_id l d) = Bson.sort_key f d.
Proof. intros Hf. unfold Bson.sort_key. by rewrite with_id_lookup_ne. Qed.

(** A document whose keys differ from those of [l] is admitted. *)
Lemma distinct_keys_snoc coll l d :
  distinct_keys (unique_fields coll) (l ++ [d]) →
  clashes (unique_fields coll) l (with_id l d) = false
  ∧ distinct_keys (unique_fields coll) (l ++ [with_id l d]).
Proof.
  unfold distinct_keys. rewrite !Forall_forall. intros Hkeys.
  assert (Hne : ∀ f, f ∈ unique_fields coll → f ≠ "_id").
  { intros f Hf ->. by apply (unique_fields_not_id coll). }
  split.
  - apply clashes_false. intros f x Hf Hx.
    rewrite sort_key_with_id by by apply Hne.
    specialize (Hkeys f Hf). rewrite fmap_app in Hkeys.
    apply NoDup_app in Hkeys as (_ & Hdisj & _).
    intros Heq. apply (Hdisj (Bson.sort_key f x)).
    + by apply list_elem_of_fmap_2.
    + rewrite Heq. simpl. left.
  - intros f Hf. specialize (Hkeys f Hf).
    rewrite fmap_app in *. simpl in *.
    by rewrite sort_key_with_id by by apply Hne.
Qed.

Lemma clashes_with_id fields l l' d :
  "_id" ∉ fields → clashes fields l (with_id l' d) = clashes fields l d.
Proof.
  intros Hid. unfold clashes. induction fields as [|f fields IH]; [done|].
  apply not_elem_of_cons in Hid as [Hf Hid]. simpl.
  rewrite IH by done. f_equal.
  by rewrite sort_key_with_id.
Qed.

Lemma admits_with_id r s l d :
  admits r s d →
  clashes (unique_fields (collectionName r)) (stored r s) (with_id l d) = false.
Proof.
  unfold admits. intros Hadm.
  by rewrite clashes_with_id by apply unique_fields_not_id.
Qed.

Lemma insert_ordered_without_ids coll items : ∀ l,
  without_ids items →
  distinct_keys (unique_fields coll) (l ++ items) →
  (insert_ordered coll l items).2 = true
  ∧ length (insert_ordered coll l items).1 = (length l + length items)%nat.
Proof.
  unfold without_ids.
  induction items as [|d items IH]; intros l Hids Hkeys; simpl.
  - split; [done|lia].
  - apply Forall_cons in Hids as [Hd Hids].
    assert (Hhead : distinct_keys (unique_fields coll) (l ++ [d])).
    { unfold distinct_keys in *. rewrite Forall_forall in Hkeys |- *.
      intros f Hf. specialize (Hkeys f Hf).
      rewrite fmap_app in Hkeys |- *. rewrite fmap_cons in Hkeys.
      apply NoDup_app in Hkeys as (Hl & Hdisj & Hrest).
      apply NoDup_app. split_and!; [done| |apply NoDup_singleton].
      intros x Hx ->%list_elem_of_singleton. apply (Hdisj _ Hx). left. }
    destruct (distinct_keys_snoc coll l d Hhead) as [Hfree _].
    assert (Hok : refused coll l (with_id l d) = false).
    { apply refused_false. split; [by apply with_id_fresh|done]. }
    rewrite Hok.
    destruct (IH (l ++ [with_id l d]) Hids) as [-> ->].
    { unfold distinct_keys in *. rewrite Forall_forall in Hkeys |- *.
      intros f Hf. specialize (Hkeys f Hf).
      assert (f ≠ "_id") by (intros ->; by apply (unique_fields_not_id coll)).
      rewrite <- app_assoc. simpl.
      rewrite fmap_app, fmap_cons in Hkeys |- *.
      by rewrite sort_key_with_id. }
    split; [done|]. rewrite length_app. simpl. lia.
Qed.

(** What [createBulk] does once the collection handle is there. *)
Lemma createBulk_run r items s s' :
  getCollection r s = (Return (collectionName r), s') → outage s' = None →
  createBulk r items s =
  match items with
  | [] =>
      let s1 := with_log (log s' ++ [LogDebug "createBulk"]) s' in
      let e := MongoError "Invalid Operation, no operations specified" in
      (Throw (RepositoryError e), with_log (log s1 ++ [LogCaptured e]) s1)
  | _ =>
      let s1 := with_log (log s' ++ [LogDebug "createBulk"]) s' in
      let l := insert_ordered (collectionName r) (docs (collectionName r) s') items in
      let s2 := with_store (<[collectionName r := l.1]> (store s1)) s1 in
      if l.2 then (Return (Z.of_nat (length items)), s2)
      else let e := MongoError "E11000 duplicate key error" in
           (Throw (RepositoryError e), with_log (log s2 ++ [LogCaptured e]) s2)
  end.
Proof.
  intros Hget Hout. unfold createBulk.
  rewrite (bind_Return _ _ _ _ _ Hget).
  destruct items as [|d items]; [done|].
  unfold insertMany, logger_debug, rethrow, logger_captureError, put_docs,
    round_trip, modify, get_state, try_catch, bind, ret, throw.
  cbn -[insert_ordered]. rewrite Hout.
  change (docs (collectionName r) (with_log (log s' ++ [LogDebug "createBulk"]) s'))
    with (docs (collectionName r) s').
  by destruct (insert_ordered (collectionName r) (docs (collectionName r) s')
                 (d :: items)) as [l []].
Qed.

End bulk.

(** C8, counterexample.  createBulk of the empty list does not return 0:
    the driver rejects an empty batch and the repository rethrows. *)
Lemma createBulk_empty_throws :
  (BaseRepository.createBulk organizations [] fresh_state).1
  = Throw (RepositoryError
             (MongoError "Invalid Operation, no operations specified"))
  ∧ returned (BaseRepository.createBulk organizations [] fresh_state) ≠ Some 0.
Proof. split; [reflexivity | discriminate]. Qed.

(** C8, amended.  createBulk of the empty list throws a RepositoryError
    around the driver's error.  Whenever createBulk returns a count, it is
    the number N of documents given (so at most N) and N is at least 1; and
    for N >= 1 documents that carry no _id of their own and whose keys in
    the unique indexes of the collection differ from each other and from
    those of the documents stored, it does return N, the collection
    growing by N documents. *)
Theorem createBulk_count (r : repository) (items : list document) (s : state) :
  online r s →
  (items = [] →
   (BaseRepository.createBulk r items s).1
   = Throw (RepositoryError
              (MongoError "Invalid Operation, no operations specified")))
  ∧ (∀ n, returned (BaseRepository.createBulk r items s) = Some n →
          n = Z.of_nat (length items) ∧ 1 ≤ n ≤ Z.of_nat (length items))
  ∧ (items ≠ [] → without_ids items →
     distinct_keys (Mongo.unique_fields (collectionName r))
       (stored r s ++ items) →
     returned (BaseRepository.createBulk r items s)
     = Some (Z.of_nat (length items))
     ∧ length (stored r (BaseRepository.createBulk r items s).2)
       = (length (stored r s) + length items)%nat).
Proof.
  intros Hon.
  destruct (getCollection_online r s Hon) as (s' & Hget & Hopen).
  assert (Hout : outage s' = None).
  { rewrite (opened_outage r s s' Hopen). apply Hon. }
  rewrite (createBulk_run r items s s' Hget Hout).
  rewrite (opened_docs r s s' _ Hopen).
  split_and!.
  - by intros ->.
  - intros n. destruct items as [|d items]; [done|]. cbv zeta.
    destruct (Mongo.insert_ordered (collectionName r)
                (Mongo.docs (collectionName r) s) (d :: items))
      as [l []]; [|done].
    unfold returned. simpl. intros [= <-]. lia.
  - intros Hne Hids Hkeys. destruct items as [|d items]; [done|].
    destruct (insert_ordered_without_ids (collectionName r) (d :: items)
                (Mongo.docs (collectionName r) s) Hids Hkeys) as [Hok Hlen].
    cbv zeta. rewrite Hok. split; [done|].
    unfold stored. cbn [snd].
    rewrite MongoFacts.docs_with_store. by rewrite Hlen.
Qed.

Lemma createBulk_count_witness :
  returned (BaseRepository.createBulk organizations
              [organization 1 "a" "0x0a"; organization 2 "b" "0x0b"]
              fresh_state)
  = Some 2.
Proof.
  destruct (createBulk_count organizations
              [organization 1 "a" "0x0a"; organization 2 "b" "0x0b"]
              fresh_state)
    as (_ & _ & Hvalid).
  - split; [reflexivity | left; reflexivity].
  - destruct Hvalid as [Hn _].
    + discriminate.
    + repeat constructor.
    + refine (bool_decide_unpack _ _). vm_compute. exact I.
    + exact Hn.
Defined.

Section existsOR.
Import Mongo MongoFacts BaseRepository.

Lemma own_clauses_nil obj fields :
  own_clauses obj fields = [] ↔ Forall (λ f, obj !! f = None) fields.
Proof.
  unfold own_clauses.
  induction fields as [|f fields IH]; simpl.
  - split; [constructor|done].
  - rewrite Forall_cons. destruct (obj !! f) as [v|]; simpl.
    + split; [done|]. by intros [? _].
    + rewrite IH. split; [by split|]. by intros [_ ?].
Qed.

(** [find(filter).limit(1).toArray()] is non-empty exactly when some
    stored document matches. *)
Lemma take_1_nonempty (P : document → bool) (l : list document) :
  bool_decide (0 < length (limited 1 (filter (λ d, Is_true (P d)) l)))%nat = true
  ↔ ∃ d, d ∈ l ∧ P d = true.
Proof.
  unfold limited. simpl. rewrite bool_decide_eq_true.
  destruct (filter (λ d, Is_true (P d)) l) as [|d l'] eqn:Hf; simpl.
  - split; [lia|]. intros (d & Hd & HP).
    assert (d ∈ filter (λ d, Is_true (P d)) l)
      by (apply list_elem_of_filter; split; [by apply Is_true_true|done]).
    rewrite Hf in H. by apply not_elem_of_nil in H.
  - split; [|lia]. intros _. exists d.
    assert (Hd : d ∈ filter (λ d, Is_true (P d)) l) by (rewrite Hf; left).
    apply list_elem_of_filter in Hd as [HP Hd]. split; [done|].
    by apply Is_true_true.
Qed.

Lemma existsOR_run r obj fields s s' :
  getCollection r s = (Return (collectionName r), s') → outage s' = None →
  obj !! "hasOwnProperty" = None →
  own_clauses obj fields ≠ [] →
  (existsOR r obj fields s).1 =
  Return (bool_decide
            (0 < length (limited 1
                   (filter (λ d, Is_true (Match.doc (FOr (own_clauses obj fields)) d))
                           (docs (collectionName r) s'))))%nat)
  ∧ store (existsOR r obj fields s).2 = store s'.
Proof.
  intros Hget Hout Hnone Hne. unfold existsOR.
  rewrite (bind_Return _ _ _ _ _ Hget).
  rewrite (bind_Return _ _ _ _ _ (or_clauses_plain obj fields s' (or_intror Hnone))).
  rewrite bool_decide_eq_false_2 by by destruct (own_clauses obj fields).
  unfold find_toArray, logger_debug, round_trip, modify, get_state,
    try_catch, bind, ret.
  simpl. by rewrite Hout.
Qed.

End existsOR.

(** C4, counterexample.  An obj with an own property named
    hasOwnProperty makes the call obj.hasOwnProperty(field) fail: existsOR
    throws a TypeError, which is no RepositoryError, both when obj has
    none of the listed fields and when it has one that a stored document
    matches. *)
Lemma existsOR_own_hasOwnProperty_throws_TypeError :
  (BaseRepository.existsOR organizations {["hasOwnProperty" := VStr "x"]}
     ["owner"] gold_state).1
  = Throw (TypeError "obj.hasOwnProperty is not a function")
  ∧ (BaseRepository.existsOR organizations
       (<["owner" := VStr "0x02"]> {["hasOwnProperty" := VStr "x"]})
       ["owner"] gold_state).1
    = Throw (TypeError "obj.hasOwnProperty is not a function")
  ∧ newest ∈ stored organizations gold_state
  ∧ newest !! "owner" = Some (VStr "0x02")
  ∧ is_RepositoryError (TypeError "obj.hasOwnProperty is not a function")
    = false.
Proof.
  split_and!; [vm_compute; reflexivity|vm_compute; reflexivity| |
               vm_compute; reflexivity|reflexivity].
  assert (Hstored : stored organizations gold_state = [older; newest])
    by (vm_compute; reflexivity).
  rewrite Hstored. right. left.
Qed.

(** C4, amended.  With at least one field listed and an own property
    hasOwnProperty on obj, existsOR throws a TypeError and leaves the
    store as it was.  Otherwise it builds one equality clause per listed
    field that obj owns, in the order listed; with no such field it
    throws a RepositoryError; with one it returns whether some stored
    document matches one of the clauses, leaving the store as it was. *)
Theorem existsOR_spec
    (r : repository) (obj : document) (fields : list string) (s : state) :
  online r s →
  (fields ≠ [] → is_Some (obj !! "hasOwnProperty") →
   (BaseRepository.existsOR r obj fields s).1
   = Throw (TypeError "obj.hasOwnProperty is not a function")
   ∧ store (BaseRepository.existsOR r obj fields s).2 = store s)
  ∧ (fields = [] ∨ obj !! "hasOwnProperty" = None →
     (∀ s0, BaseRepository.or_clauses obj fields s0
            = (Return (omap (λ f, (λ v, {[f := MEq v]}) <$> obj !! f) fields),
               s0))
     ∧ (Forall (λ f, obj !! f = None) fields →
        (BaseRepository.existsOR r obj fields s).1
        = Throw (RepositoryErrorReason "Invalid query for existsOR"))
     ∧ (Exists (λ f, is_Some (obj !! f)) fields →
        ∃ b, (BaseRepository.existsOR r obj fields s).1 = Return b
             ∧ (b = true ↔
                ∃ d c, d ∈ stored r s
                       ∧ c ∈ omap (λ f, (λ v, {[f := MEq v]}) <$> obj !! f)
                               fields
                       ∧ Match.query c d = true)
             ∧ store (BaseRepository.existsOR r obj fields s).2 = store s)).
Proof.
  intros Hon.
  destruct (getCollection_online r s Hon) as (s' & Hget & Hopen).
  assert (Hout : outage s' = None).
  { rewrite (opened_outage r s s' Hopen). apply Hon. }
  split.
  - intros Hne Hown. unfold BaseRepository.existsOR.
    rewrite (bind_Return _ _ _ _ _ Hget).
    rewrite (bind_Throw _ _ _ _ _ (or_clauses_shadowed obj fields s' Hne Hown)).
    split; [done|]. apply Hopen.
  - intros Hplain. fold (own_clauses obj fields). split_and!.
    + intros s0. by apply or_clauses_plain.
    + intros Hnone%own_clauses_nil. unfold BaseRepository.existsOR.
      rewrite (bind_Return _ _ _ _ _ Hget).
      rewrite (bind_Return _ _ _ _ _ (or_clauses_plain obj fields s' Hplain)).
      by rewrite Hnone.
    + intros Hsome.
      assert (Hne : own_clauses obj fields ≠ []).
      { rewrite own_clauses_nil. intros Hall.
        apply Exists_exists in Hsome as (f & Hf & [v Hv]).
        rewrite Forall_forall in Hall. specialize (Hall f Hf). congruence. }
      assert (Hnone : obj !! "hasOwnProperty" = None).
      { destruct Hplain as [->|?]; [|done]. by apply Exists_nil in Hsome. }
      destruct (existsOR_run r obj fields s s' Hget Hout Hnone Hne)
        as [Hrun Hst].
      eexists. split; [exact Hrun|]. split.
      * rewrite take_1_nonempty. rewrite (opened_docs r s s' _ Hopen).
        unfold stored. simpl. split.
        -- intros (d & Hd & (c & Hc & Hm)%existsb_exists).
           exists d, c. split_and!; [done| |done]. by apply list_elem_of_In.
        -- intros (d & c & Hd & Hc & Hm). exists d. split; [done|].
           apply existsb_exists. exists c. split; [|done].
           by apply list_elem_of_In.
      * rewrite Hst. apply Hopen.
Qed.

(** An obj with an owner on file and a title that is not: the owner's
    clause finds the newer organization. *)
Lemma existsOR_spec_witness :
  returned (BaseRepository.existsOR organizations
              (<["owner" := VStr "0x02"]> {["title" := VStr "none"]})
              ["title"; "owner"; "organizationId"] gold_state)
  = Some true.
Proof.
  destruct (existsOR_spec organizations
              (<["owner" := VStr "0x02"]> {["title" := VStr "none"]})
              ["title"; "owner"; "organizationId"] gold_state)
    as (_ & Hplain).
  - split; [reflexivity | left; reflexivity].
  - destruct Hplain as (_ & _ & Hsome).
    + right. vm_compute. reflexivity.
    + destruct Hsome as (b & Hrun & Hiff & _).
      * apply Exists_cons_hd. vm_compute. eexists. reflexivity.
      * unfold returned. rewrite Hrun. f_equal. apply Hiff.
        exists newest, {["owner" := MEq (VStr "0x02")]}.
        split_and!.
        -- assert (Hstored : stored organizations gold_state = [older; newest])
             by (vm_compute; reflexivity).
           rewrite Hstored. right. left.
        -- change (({["owner" := MEq (VStr "0x02")]} : fields_query)
                   ∈ own_clauses
                       (<["owner" := VStr "0x02"]> {["title" := VStr "none"]})
                       ["title"; "owner"; "organizationId"]).
           assert (Hqor : own_clauses
                            (<["owner" := VStr "0x02"]> {["title" := VStr "none"]})
                            ["title"; "owner"; "organizationId"]
                          = [{["title" := MEq (VStr "none")]};
                             {["owner" := MEq (VStr "0x02")]}])
             by (vm_compute; reflexivity).
           rewrite Hqor. right. left.
        -- vm_compute. reflexivity.
Defined.

(** ** Paginated find *)

Section find.
Import Mongo MongoFacts BaseRepository.

Lemma generateSort_cons f asc {X} (x y : X) :
  match MongoPaging.generateSort f asc with [] => x | _ => y end = y.
Proof. unfold MongoPaging.generateSort. by case_bool_decide. Qed.

Lemma cursorQuery_well_formed f asc next previous :
  Match.well_formed (MongoPaging.generateCursorQuery f asc next previous) = true.
Proof.
  unfold MongoPaging.generateCursorQuery.
  destruct next, previous; simpl; by try case_bool_decide.
Qed.

Lemma find_run r q fq f asc s s' :
  getCollection r s = (Return (collectionName r), s') → outage s' = None →
  paginatedField_override r = Some f →
  paginatedAscending_override r = Some asc →
  APIQuery.query q = QFilter fq →
  let limit := MongoPaging.sanitized_limit (paging r) (APIQuery.limit q) in
  let respond := λ l,
    let response := MongoPaging.prepareResponse f limit
                      (APIQuery.next q) (APIQuery.previous q) l in
    if MongoPaging.removePaginatedFieldInResponse (find_projection q) f
    then MongoPaging.omit f response else response in
  (find r q s).1 =
  match find_projection q ≫= projection_opt with
  | None => Return (respond (fetched r q fq f asc s'))
  | Some p =>
      if Projection.mixed p
      then Throw (RepositoryError
             (MongoError "Projection cannot have a mix of inclusion and exclusion"))
      else Return (respond (Projection.apply p <$> fetched r q fq f asc s'))
  end
  ∧ store (find r q s).2 = store s'.
Proof.
  intros Hget Hout Hf Hasc Hq. unfold find.
  rewrite (bind_Return _ _ _ _ _ Hget).
  unfold paginatedField, paginatedAscending. rewrite Hf, Hasc.
  unfold MongoPaging.find, find_options.
  unfold logger_debug, rethrow, logger_captureError, modify,
    try_catch, bind, ret, throw.
  cbn -[MongoPaging.generateSort MongoPaging.generateCursorQuery
        MongoPaging.prepareResponse MongoPaging.sanitized_limit
        MongoPaging.removePaginatedFieldInResponse MongoPaging.omit
        find_toArray find_projection].
  rewrite find_toArray_run; cycle 1.
  { done. }
  { rewrite Hq. simpl. by rewrite cursorQuery_well_formed. }
  cbv zeta. rewrite generateSort_cons, Hq. unfold fetched.
  change (docs (collectionName r) (with_log (log s' ++ [LogDebug "find"]) s'))
    with (docs (collectionName r) s').
  destruct (find_projection q ≫= projection_opt) as [p|]; [|done].
  by destruct (Projection.mixed p).
Qed.

Lemma find_projection_None q :
  find_projection q = None ↔ APIQuery.fields q = ∅.
Proof.
  unfold find_projection. case_bool_decide as Hlen.
  - split; [|done]. intros _.
    apply map_to_list_empty_iff. by apply nil_length_inv.
  - split; [done|]. intros Hempty. rewrite Hempty, map_to_list_empty in Hlen.
    by destruct Hlen.
Qed.


Lemma prepareResponse_results f limit next previous l d :
  d ∈ MongoPagedResult.results (MongoPaging.prepareResponse f limit next previous l) →
  d ∈ l.
Proof.
  unfold MongoPaging.prepareResponse. simpl. intros Hd.
  assert (Hpop : d ∈ (if bool_decide (limit < Z.of_nat (length l))
                      then removelast l else l)).
  { destruct previous; [by rewrite elem_of_reverse in Hd|done]. }
  case_bool_decide; [|done].
  by eapply elem_of_sublist, sublist_removelast.
Qed.

Lemma Projection_apply_empty (d : document) : Projection.apply ∅ d = d.
Proof.
  unfold Projection.apply. apply map_filter_id. intros f v _. simpl.
  unfold Projection.keeps. by case_bool_decide.
Qed.

Lemma findOne_run r q fq s s' :
  getCollection r s = (Return (collectionName r), s') → outage s' = None →
  APIQuery.query q = QFilter fq → APIQuery.fields q = ∅ →
  (findOne r q s).1 =
  Return (head (filter (λ d, Is_true (Match.query fq d))
                       (docs (collectionName r) s'))).
Proof.
  intros Hget Hout Hq Hfields. unfold findOne.
  rewrite (bind_Return _ _ _ _ _ Hget).
  unfold findOne_options, find_toArray. rewrite Hq, Hfields. simpl.
  unfold logger_debug, rethrow, logger_captureError, round_trip, modify,
    get_state, try_catch, bind, ret, throw.
  simpl. rewrite Hout.
  change (docs (collectionName r) (with_log (log s' ++ [LogDebug "findOne"]) s'))
    with (docs (collectionName r) s').
  change (Projection.mixed ∅) with false. cbv iota.
  unfold limited. simpl. f_equal.
  destruct (filter (λ d, Is_true (Match.query fq d)) (docs (collectionName r) s'))
    as [|d l]; [done|].
  simpl. by rewrite Projection_apply_empty.
Qed.

End find.

(** ** Upserts *)

Section upsert.
Import Mongo MongoFacts BaseRepository.

Lemma equality_fields_lookup fq f :
  equality_fields fq !! f
  = fq !! f ≫= (λ m, match m with MEq v => Some v | _ => None end).
Proof. unfold equality_fields. apply lookup_omap. Qed.

Lemma equality_fields_None fq f :
  fq !! f = None → equality_fields fq !! f = None.
Proof. intros H. by rewrite equality_fields_lookup, H. Qed.

(** A document that carries every equality clause matches the query. *)
Lemma equality_only_matches fq d :
  equality_only fq →
  (∀ f v, fq !! f = Some (MEq v) → d !! f = Some v) →
  Match.query fq d = true.
Proof.
  intros Heq Hcarry. apply query_true. intros f m Hm.
  destruct (Heq f m Hm) as [v ->]. rewrite (Hcarry f v Hm). simpl.
  destruct v; by apply bool_decide_eq_true.
Qed.

Lemma updated_existing_setOnInsert item d :
  updated false (USetOnInsert item) d = inr d.
Proof.
  unfold updated. simpl. destruct (d !! "_id") as [i|] eqn:Hid; [|done].
  by rewrite bool_decide_eq_true_2.
Qed.

Lemma updated_insert_setOnInsert item fq :
  fq !! "_id" = None →
  updated true (USetOnInsert item) (equality_fields fq)
  = inr (item ∪ equality_fields fq).
Proof.
  intros Hid. unfold updated. simpl.
  by rewrite (equality_fields_None fq "_id" Hid).
Qed.

(** One call of [findOneOrCreate], by whether a document matches. *)
Lemma findOneOrCreate_call r q fq user s :
  online r s → APIQuery.query q = QFilter fq →
  let after := findOneOrCreate r q user s in
  match first_match fq (stored r s) with
  | Some (i, d) =>
      returned after = Some (Some d)
      ∧ stored r after.2 = stored r s
      ∧ online r after.2
  | None =>
      fq !! "_id" = None →
      admits r s (creation_stamp (clock s) user ∪ equality_fields fq) →
      let d := with_id (stored r s)
                 (creation_stamp (clock s) user ∪ equality_fields fq) in
      returned after = Some (Some d)
      ∧ stored r after.2 = stored r s ++ [d]
      ∧ online r after.2
  end.
Proof.
  intros Hon Hq.
  destruct (getCollection_online r s Hon) as (s' & Hget & Hopen).
  destruct Hopen as (Hst & Hout & Hclock & Hlog & Hh).
  assert (Hout' : outage s' = None) by (rewrite Hout; apply Hon).
  set (s1 := with_log (log s' ++ [LogDebug "findOneOrCreate"]) s').
  assert (Hrun : findOneOrCreate r q user s
                 = try_catch (findOneAndUpdate (collectionName r) (QFilter fq)
                                (USetOnInsert (creation_stamp (clock s) user))
                                true false) rethrow s1).
  { unfold findOneOrCreate. rewrite (bind_Return _ _ _ _ _ Hget).
    rewrite Hq, <- Hclock.
    unfold bind, logger_debug, modify, try_catch, getTimestamp.
    reflexivity. }
  assert (Hdocs : docs (collectionName r) s1 = stored r s).
  { unfold stored, docs, s1. simpl. by rewrite Hst. }
  assert (Hon1 : ∀ m, online r (with_store m s1)).
  { intros m. split; [done|by right]. }
  cbv zeta. rewrite Hrun.
  destruct (first_match fq (stored r s)) as [[i d]|] eqn:Hfirst.
  - erewrite try_catch_Return; cycle 1.
    { eapply findOneAndUpdate_match; [done|by rewrite Hdocs| |].
      - apply updated_existing_setOnInsert.
      - by rewrite rekeyed_same. }
    split; [done|]. split; [|apply Hon1].
    unfold stored. cbn [snd]. rewrite Hdocs, docs_with_store.
    apply list_insert_id.
    unfold first_match in Hfirst. by apply list_find_Some in Hfirst as (? & _).
  - intros Hid Hadm.
    erewrite try_catch_Return; cycle 1.
    { eapply findOneAndUpdate_insert; [done|by rewrite Hdocs| |].
      - by apply updated_insert_setOnInsert.
      - rewrite Hdocs. apply refused_false. split.
        + apply with_id_fresh. apply lookup_union_None_2.
          * unfold creation_stamp.
            by rewrite lookup_insert_ne, lookup_singleton_ne.
          * by apply equality_fields_None.
        + by apply admits_with_id. }
    rewrite Hdocs. split; [done|]. split; [|apply Hon1].
    unfold stored. cbn [snd]. by rewrite docs_with_store.
Qed.

End upsert.

(** C6, counterexample.  With the query [{ a: { $in: [1, 2] } }] on the
    empty organization collection, the first call of findOneOrCreate
    inserts and returns a document; it does not carry the field of the
    comparison clause, so the second call finds no match either, tries to
    insert again and is refused by the unique indexes: it throws where
    the first call returned a document. *)
Lemma findOneOrCreate_twice_differs :
  let first := BaseRepository.findOneOrCreate organizations in_query "alice"
                 fresh_state in
  let second := BaseRepository.findOneOrCreate organizations in_query "alice"
                  first.2 in
  (returned first ≫= id) ≫= (.!! "_id") = Some (VId 1)
  ∧ (returned first ≫= id) ≫= (.!! "a") = None
  ∧ second.1 = Throw (RepositoryError (MongoError "E11000 duplicate key error"))
  ∧ returned first ≠ returned second.
Proof.
  assert (H1 : (returned (BaseRepository.findOneOrCreate organizations in_query
                            "alice" fresh_state) ≫= id) ≫= (.!! "_id")
               = Some (VId 1)) by (vm_compute; reflexivity).
  assert (H2 : returned (BaseRepository.findOneOrCreate organizations in_query "alice"
                  (BaseRepository.findOneOrCreate organizations in_query
                     "alice" fresh_state).2) = None) by (vm_compute; reflexivity).
  cbv zeta. split_and!; [exact H1|vm_compute; reflexivity|vm_compute; reflexivity|].
  intros Heq. rewrite Heq, H2 in H1. discriminate.
Qed.

(** C6, amended.  When a document already matches the query, or when the
    query consists of equality clauses on fields other than _id,
    createdOn and createdBy and the unique indexes of the collection
    admit the document to insert, two calls of findOneOrCreate (whoever
    calls and whenever) return the same document and the second call
    changes nothing.  An existing match is returned as it is stored;
    otherwise the inserted document consists of the query's fields,
    createdOn, createdBy and a fresh _id. *)
Theorem findOneOrCreate_idempotent
    (r : repository) (q : APIQuery.t) (fq : fields_query)
    (user user' : string) (t' : Z) (s : state) :
  online r s → APIQuery.query q = QFilter fq →
  is_Some (Mongo.first_match fq (stored r s))
  ∨ (equality_only fq ∧ fq !! "_id" = None
     ∧ fq !! "createdOn" = None ∧ fq !! "createdBy" = None
     ∧ admits r s (creation_stamp (clock s) user ∪ Mongo.equality_fields fq)) →
  let first := BaseRepository.findOneOrCreate r q user s in
  let second := BaseRepository.findOneOrCreate r q user' (with_clock t' first.2) in
  ∃ d, returned first = Some (Some d)
       ∧ returned second = Some (Some d)
       ∧ stored r second.2 = stored r first.2
       ∧ match Mongo.first_match fq (stored r s) with
         | Some (_, d0) => d = d0 ∧ stored r first.2 = stored r s
         | None =>
             d = Mongo.with_id (stored r s)
                   (creation_stamp (clock s) user ∪ Mongo.equality_fields fq)
             ∧ stored r first.2 = stored r s ++ [d]
         end.
Proof.
  intros Hon Hq Hcase. cbv zeta.
  pose proof (findOneOrCreate_call r q fq user s Hon Hq) as Hcall1.
  cbv zeta in Hcall1.
  set (first := BaseRepository.findOneOrCreate r q user s) in *.
  assert (Hsecond : ∀ i d,
    online r first.2 →
    Mongo.first_match fq (stored r first.2) = Some (i, d) →
    returned (BaseRepository.findOneOrCreate r q user' (with_clock t' first.2))
    = Some (Some d)
    ∧ stored r (BaseRepository.findOneOrCreate r q user' (with_clock t' first.2)).2
      = stored r first.2).
  { intros i d Hon1 Hfirst1.
    assert (Hon2 : online r (with_clock t' first.2)) by exact Hon1.
    pose proof (findOneOrCreate_call r q fq user' _ Hon2 Hq) as Hcall2.
    cbv zeta in Hcall2.
    change (stored r (with_clock t' first.2)) with (stored r first.2) in Hcall2.
    rewrite Hfirst1 in Hcall2. by destruct Hcall2 as (? & ? & _). }
  destruct (Mongo.first_match fq (stored r s)) as [[i d]|] eqn:Hfirst.
  - destruct Hcall1 as (Hret & Hst & Hon1). exists d.
    destruct (Hsecond i d Hon1) as [Hret2 Hst2]; [by rewrite Hst|].
    by split_and!.
  - destruct Hcase as [[? [=]]|(Heq & Hid & Hon' & Hby & Hadm)].
    destruct (Hcall1 Hid Hadm) as (Hret & Hst & Hon1).
    eexists. split; [exact Hret|].
    edestruct (Hsecond (length (stored r s))) as [Hret2 Hst2]; [exact Hon1| |].
    { rewrite Hst. apply MongoFacts.first_match_append; [done|].
      apply equality_only_matches; [done|]. intros f v Hf.
      assert (f ≠ "_id") by congruence.
      assert (f ≠ "createdOn") by congruence.
      assert (f ≠ "createdBy") by congruence.
      rewrite MongoFacts.with_id_lookup_ne by done.
      rewrite lookup_union_r.
      - by rewrite equality_fields_lookup, Hf.
      - unfold creation_stamp.
        by rewrite lookup_insert_ne, lookup_singleton_ne. }
    by split_and!.
Qed.

(** Looking for the organization of an owner not yet on file, beside two
    organizations that are. *)
Lemma findOneOrCreate_idempotent_witness :
  ∃ d, returned (BaseRepository.findOneOrCreate organizations
                   (filter_query {["owner" := MEq (VStr "0xabc")]})
                   "alice" gold_state) = Some (Some d)
       ∧ returned (BaseRepository.findOneOrCreate organizations
                     (filter_query {["owner" := MEq (VStr "0xabc")]}) "bob"
                     (with_clock 7
                        (BaseRepository.findOneOrCreate organizations
                           (filter_query {["owner" := MEq (VStr "0xabc")]})
                           "alice" gold_state).2)) = Some (Some d)
       ∧ d !! "owner" = Some (VStr "0xabc").
Proof.
  destruct (findOneOrCreate_idempotent organizations
              (filter_query {["owner" := MEq (VStr "0xabc")]})
              {["owner" := MEq (VStr "0xabc")]} "alice" "bob" 7 gold_state)
    as (d & Hd & Hd' & _ & Hfirst).
  - split; [reflexivity | left; reflexivity].
  - reflexivity.
  - right. split_and!; [|reflexivity..|vm_compute; reflexivity].
    intros f m [_ <-]%lookup_singleton_Some. by eexists.
  - exists d. split_and!; [exact Hd|exact Hd'|].
    assert (Hnone : Mongo.first_match {["owner" := MEq (VStr "0xabc")]}
                      (stored organizations gold_state) = None)
      by (vm_compute; reflexivity).
    rewrite Hnone in Hfirst. destruct Hfirst as [-> _].
    vm_compute. reflexivity.
Defined.

Section update.
Import Mongo MongoFacts BaseRepository.

Lemma updated_set item d :
  item !! "_id" = None → updated false (USet item) d = inr (item ∪ d).
Proof.
  intros Hid. unfold updated. simpl.
  destruct (d !! "_id") as [i|] eqn:Hd; [|done].
  by rewrite lookup_union_r, Hd, bool_decide_eq_true_2.
Qed.

Lemma updated_insert_set item fq :
  fq !! "_id" = None →
  updated true (USet item) (equality_fields fq)
  = inr (item ∪ equality_fields fq).
Proof.
  intros Hid. unfold updated. simpl.
  by rewrite (equality_fields_None fq "_id" Hid).
Qed.

Lemma clashes_ext fields l d d' :
  (∀ f, f ∈ fields → Bson.sort_key f d = Bson.sort_key f d') →
  clashes fields l d = clashes fields l d'.
Proof.
  unfold clashes. induction fields as [|f fields IH]; intros Hkeys; [done|].
  simpl. rewrite IH by (intros g Hg; apply Hkeys; by right).
  by rewrite (Hkeys f) by left.
Qed.

Lemma sort_key_union_with_id f item l d :
  f ≠ "_id" →
  Bson.sort_key f (item ∪ with_id l d) = Bson.sort_key f (item ∪ d).
Proof.
  intros Hf. unfold Bson.sort_key.
  by rewrite !lookup_union, with_id_lookup_ne.
Qed.

Lemma delete_snoc {X} (l : list X) (x : X) : delete (length l) (l ++ [x]) = l.
Proof.
  induction l as [|y l IH]; [done|]. simpl. by rewrite IH.
Qed.

(** One call of [update], by whether a document matches. *)
Lemma update_call r q fq item create s :
  online r s → APIQuery.query q = QFilter fq → item !! "_id" = None →
  let after := update r q item create s in
  match first_match fq (stored r s) with
  | Some (i, d) =>
      admits_update r s i d (item ∪ d) →
      returned after = Some (Some (item ∪ d))
      ∧ stored r after.2 = <[i := item ∪ d]> (stored r s)
      ∧ online r after.2
  | None =>
      if create then
        fq !! "_id" = None →
        admits r s (item ∪ equality_fields fq) →
        let d := with_id (stored r s) (item ∪ equality_fields fq) in
        returned after = Some (Some d)
        ∧ stored r after.2 = stored r s ++ [d]
        ∧ online r after.2
      else
        returned after = Some None ∧ stored r after.2 = stored r s
  end.
Proof.
  intros Hon Hq Hitem.
  destruct (getCollection_online r s Hon) as (s' & Hget & Hopen).
  destruct Hopen as (Hst & Hout & Hclock & Hlog & Hh).
  assert (Hout' : outage s' = None) by (rewrite Hout; apply Hon).
  set (s1 := with_log (log s' ++ [LogDebug "update"]) s').
  assert (Hrun : update r q item create s
                 = try_catch (findOneAndUpdate (collectionName r) (QFilter fq)
                                (USet item) create false) rethrow s1).
  { unfold update. rewrite (bind_Return _ _ _ _ _ Hget). rewrite Hq.
    unfold bind, logger_debug, modify, try_catch. reflexivity. }
  assert (Hdocs : docs (collectionName r) s1 = stored r s).
  { unfold stored, docs, s1. simpl. by rewrite Hst. }
  assert (Hon1 : ∀ m, online r (with_store m s1)).
  { intros m. split; [done|by right]. }
  cbv zeta. rewrite Hrun.
  destruct (first_match fq (stored r s)) as [[i d]|] eqn:Hfirst.
  - intros Hadm.
    erewrite try_catch_Return; cycle 1.
    { eapply findOneAndUpdate_match; [done|by rewrite Hdocs| |].
      - by apply updated_set.
      - by rewrite Hdocs. }
    split; [done|]. split; [|apply Hon1].
    unfold stored. cbn [snd]. by rewrite Hdocs, docs_with_store.
  - destruct create.
    + intros Hid Hadm.
      erewrite try_catch_Return; cycle 1.
      { eapply findOneAndUpdate_insert; [done|by rewrite Hdocs| |].
        - by apply updated_insert_set.
        - rewrite Hdocs. apply refused_false. split.
          + apply with_id_fresh. apply lookup_union_None_2; [done|].
            by apply equality_fields_None.
          + by apply admits_with_id. }
      rewrite Hdocs. split; [done|]. split; [|apply Hon1].
      unfold stored. cbn [snd]. by rewrite docs_with_store.
    + unfold try_catch, findOneAndUpdate, bind, round_trip, get_state, ret.
      cbn [outage s1 with_log]. rewrite Hout', Hdocs, Hfirst.
      split; [done|]. exact Hdocs.
Qed.

End update.

(** C9, counterexample.  With the query [{ a: { $in: [1, 2] } }] on the
    empty organization collection, update with create=true inserts a
    document that does not carry the query's field; a second update with
    the same query finds no match, tries to insert a second document and
    is refused by the unique indexes: it throws, and the document of the
    first call keeps its title. *)
Lemma update_upsert_duplicates :
  let first := BaseRepository.update organizations in_query
                 {["title" := VStr "X"]} true fresh_state in
  let second := BaseRepository.update organizations in_query
                  {["title" := VStr "Y"]} true first.2 in
  (returned first ≫= id) ≫= (.!! "a") = None
  ∧ (returned first ≫= id) ≫= (.!! "title") = Some (VStr "X")
  ∧ second.1 = Throw (RepositoryError (MongoError "E11000 duplicate key error"))
  ∧ (.!! "title") <$> stored organizations second.2 = [Some (VStr "X")].
Proof. cbv zeta. split_and!; vm_compute; reflexivity. Qed.

(** C9, amended.  For a query of equality clauses on fields other than
    _id that matches no document, and items that set neither _id nor (the
    first one) a field of the query, such that the unique indexes of the
    collection admit the document to insert and the document it is
    updated to: update with create=true inserts and returns one new
    document carrying the query's fields and the item's fields; a second
    update with the same query and another item changes that document in
    place to the item's fields over the old ones and returns it, and the
    collection holds no further document. *)
Theorem update_upsert_then_modify
    (r : repository) (q : APIQuery.t) (fq : fields_query)
    (item1 item2 : document) (s : state) :
  online r s → APIQuery.query q = QFilter fq →
  equality_only fq → fq !! "_id" = None →
  item1 !! "_id" = None → item2 !! "_id" = None →
  (∀ f, is_Some (fq !! f) → item1 !! f = None) →
  Mongo.first_match fq (stored r s) = None →
  admits r s (item1 ∪ Mongo.equality_fields fq) →
  admits r s (item2 ∪ (item1 ∪ Mongo.equality_fields fq)) →
  let first := BaseRepository.update r q item1 true s in
  let second := BaseRepository.update r q item2 true first.2 in
  ∃ d1 d2,
    returned first = Some (Some d1)
    ∧ stored r first.2 = stored r s ++ [d1]
    ∧ (∀ f v, fq !! f = Some (MEq v) → d1 !! f = Some v)
    ∧ (∀ f v, item1 !! f = Some v → d1 !! f = Some v)
    ∧ returned second = Some (Some d2)
    ∧ stored r second.2 = stored r s ++ [d2]
    ∧ d2 = item2 ∪ d1
    ∧ (∀ f v, item2 !! f = Some v → d2 !! f = Some v)
    ∧ (∀ f, item2 !! f = None → d2 !! f = d1 !! f).
Proof.
  intros Hon Hq Heq Hid Hi1 Hi2 Hdisj Hnone Hadm1 Hadm2. cbv zeta.
  pose proof (update_call r q fq item1 true s Hon Hq Hi1) as Hcall1.
  cbv zeta in Hcall1. rewrite Hnone in Hcall1.
  destruct (Hcall1 Hid Hadm1) as (Hret1 & Hst1 & Hon1). clear Hcall1.
  set (first := BaseRepository.update r q item1 true s) in *.
  set (d1 := Mongo.with_id (stored r s) (item1 ∪ Mongo.equality_fields fq)) in *.
  assert (Hquery : ∀ f v, fq !! f = Some (MEq v) → d1 !! f = Some v).
  { intros f v Hf. assert (f ≠ "_id") by congruence.
    unfold d1. rewrite MongoFacts.with_id_lookup_ne by done.
    rewrite lookup_union_r by (apply Hdisj; by rewrite Hf).
    by rewrite equality_fields_lookup, Hf. }
  assert (Hitem : ∀ f v, item1 !! f = Some v → d1 !! f = Some v).
  { intros f v Hf. assert (f ≠ "_id") by congruence.
    unfold d1. rewrite MongoFacts.with_id_lookup_ne by done.
    by apply lookup_union_Some_l. }
  pose proof (update_call r q fq item2 true first.2 Hon1 Hq Hi2) as Hcall2.
  cbv zeta in Hcall2. rewrite Hst1 in Hcall2.
  rewrite (MongoFacts.first_match_append fq (stored r s) d1 Hnone) in Hcall2
    by by apply equality_only_matches.
  destruct Hcall2 as (Hret2 & Hst2 & _).
  { unfold admits_update. rewrite Hst1, delete_snoc.
    apply MongoFacts.clashes_rekeyed.
    rewrite <- Hadm2. apply clashes_ext. intros f Hf.
    apply sort_key_union_with_id. intros ->.
    by apply (MongoFacts.unique_fields_not_id (collectionName r)). }
  exists d1, (item2 ∪ d1). split_and!; try done.
  - rewrite Hst2, insert_app_r_alt by done. by rewrite Nat.sub_diag.
  - intros f v Hf. by apply lookup_union_Some_l.
  - intros f Hf. by apply lookup_union_r.
Qed.

(** The spec's example on the organization collection, beside two
    organizations on file: an owner's organization is created with title
    X and then renamed to Y. *)
Lemma update_upsert_then_modify_witness :
  ∃ d1 d2,
    returned (BaseRepository.update organizations
                (filter_query {["owner" := MEq (VStr "0xabc")]})
                {["title" := VStr "X"]} true gold_state) = Some (Some d1)
    ∧ d1 !! "owner" = Some (VStr "0xabc")
    ∧ d1 !! "title" = Some (VStr "X")
    ∧ returned (BaseRepository.update organizations
                  (filter_query {["owner" := MEq (VStr "0xabc")]})
                  {["title" := VStr "Y"]} true
                  (BaseRepository.update organizations
                     (filter_query {["owner" := MEq (VStr "0xabc")]})
                     {["title" := VStr "X"]} true gold_state).2)
      = Some (Some d2)
    ∧ d2 = {["title" := VStr "Y"]} ∪ d1.
Proof.
  destruct (update_upsert_then_modify organizations
              (filter_query {["owner" := MEq (VStr "0xabc")]})
              {["owner" := MEq (VStr "0xabc")]}
              {["title" := VStr "X"]} {["title" := VStr "Y"]} gold_state)
    as (d1 & d2 & Hd1 & _ & Hq1 & Hi1 & Hr2 & _ & Hd2 & _).
  - split; [reflexivity | left; reflexivity].
  - reflexivity.
  - intros f m [_ <-]%lookup_singleton_Some. by eexists.
  - reflexivity.
  - reflexivity.
  - reflexivity.
  - intros f [m [<- _]%lookup_singleton_Some]. reflexivity.
  - vm_compute. reflexivity.
  - vm_compute. reflexivity.
  - vm_compute. reflexivity.
  - exists d1, d2. split_and!; [exact Hd1| | |exact Hr2|exact Hd2].
    + apply Hq1. apply lookup_singleton_eq.
    + apply Hi1. apply lookup_singleton_eq.
Defined.

(** ** Page size and order *)

Section pages.
Import Mongo MongoFacts BaseRepository.

Lemma clamp_bounds c L :
  1 ≤ L → 1 ≤ MongoPaging.MAX_LIMIT c →
  1 ≤ MongoPaging.clamp c L ≤ L.
Proof.
  intros HL Hmax. unfold MongoPaging.clamp.
  rewrite (bool_decide_eq_false_2 (L < 1)) by lia.
  case_bool_decide; lia.
Qed.



(** Dropping the extra document leaves at most [limit] of them. *)
Lemma prepareResponse_length f limit next previous (l : list document) :
  0 ≤ limit → Z.of_nat (length l) ≤ limit + 1 →
  Z.of_nat (length (MongoPagedResult.results
                      (MongoPaging.prepareResponse f limit next previous l)))
  ≤ limit.
Proof.
  intros H0 Hl. unfold MongoPaging.prepareResponse. simpl.
  assert (Hpop : Z.of_nat (length (if bool_decide (limit < Z.of_nat (length l))
                                   then removelast l else l)) ≤ limit).
  { case_bool_decide; [|lia]. rewrite length_removelast. lia. }
  destruct previous; [by rewrite length_reverse|done].
Qed.

(** Whatever direction was used to fetch, the page comes out in the
    configured one. *)
Lemma prepareResponse_ordered f asc limit next previous (l : list document) :
  ordered_by f (MongoPaging.sort_direction (Some asc) previous) l →
  ordered_by f asc
    (MongoPagedResult.results
       (MongoPaging.prepareResponse f limit next previous l)).
Proof.
  intros Hl. unfold MongoPaging.prepareResponse. simpl.
  assert (Hpop : ordered_by f (MongoPaging.sort_direction (Some asc) previous)
                   (if bool_decide (limit < Z.of_nat (length l))
                    then removelast l else l)).
  { case_bool_decide; [|done].
    eapply ordered_by_sublist; [apply sublist_removelast|done]. }
  destruct previous; simpl in *; [by apply ordered_by_reverse|done].
Qed.



End pages.

(** * Further properties *)

(** ** Creating, deleting, reading *)

Section crud.
Import Mongo MongoFacts BaseRepository.

Lemma create_run r item s s' :
  getCollection r s = (Return (collectionName r), s') → outage s' = None →
  let d := with_id (docs (collectionName r) s') item in
  let s1 := with_log (log s' ++ [LogDebug "create"]) s' in
  create r item s =
  if refused (collectionName r) (docs (collectionName r) s') d
  then let e := MongoError "E11000 duplicate key error" in
       (Throw (RepositoryError e), with_log (log s1 ++ [LogCaptured e]) s1)
  else (Return {| insertedId := d !! "_id"; insertedCount := 1 |},
        with_store (<[collectionName r := docs (collectionName r) s' ++ [d]]>
                      (store s1)) s1).
Proof.
  intros Hget Hout. unfold create.
  rewrite (bind_Return _ _ _ _ _ Hget).
  unfold insertOne, logger_debug, rethrow, logger_captureError, put_docs,
    round_trip, modify, get_state, try_catch, bind, ret, throw.
  cbn -[with_id refused]. rewrite Hout.
  change (docs (collectionName r) (with_log (log s' ++ [LogDebug "create"]) s'))
    with (docs (collectionName r) s').
  cbv zeta. by destruct (refused _ _ _).
Qed.

Lemma deleteOne_run r q fq s s' :
  getCollection r s = (Return (collectionName r), s') → outage s' = None →
  APIQuery.query q = QFilter fq →
  let s1 := with_log (log s' ++ [LogDebug "deleteOne"]) s' in
  BaseRepository.deleteOne r q s =
  match first_match fq (docs (collectionName r) s') with
  | Some (i, _) =>
      (Return {| deletedCount := 1 |},
       with_store (<[collectionName r := delete i (docs (collectionName r) s')]>
                     (store s1)) s1)
  | None => (Return {| deletedCount := 0 |}, s1)
  end.
Proof.
  intros Hget Hout Hq. unfold BaseRepository.deleteOne.
  rewrite (bind_Return _ _ _ _ _ Hget). rewrite Hq.
  unfold Mongo.deleteOne, logger_debug, rethrow, logger_captureError, put_docs,
    round_trip, modify, get_state, try_catch, bind, ret, throw.
  cbn -[first_match]. rewrite Hout.
  change (docs (collectionName r) (with_log (log s' ++ [LogDebug "deleteOne"]) s'))
    with (docs (collectionName r) s').
  cbv zeta. by destruct (first_match _ _) as [[i d]|].
Qed.

Lemma count_run r fq s s' :
  getCollection r s = (Return (collectionName r), s') → outage s' = None →
  count r (QFilter fq) s =
  (Return (Z.of_nat (length (filter (λ d, Is_true (Match.query fq d))
                                    (docs (collectionName r) s')))), s').
Proof.
  intros Hget Hout. unfold count.
  rewrite (bind_Return _ _ _ _ _ Hget).
  unfold countDocuments, round_trip, get_state, try_catch, bind, ret.
  by rewrite Hout.
Qed.

Lemma aggregate_run r q p s s' :
  getCollection r s = (Return (collectionName r), s') → outage s' = None →
  APIQuery.query q = QPipeline p →
  (aggregate r q s).1 =
  match run_pipeline p (docs (collectionName r) s') with
  | Some l => Return l
  | None => Throw (RepositoryError (MongoError "Invalid aggregation pipeline"))
  end
  ∧ store (aggregate r q s).2 = store s'.
Proof.
  intros Hget Hout Hq. unfold aggregate.
  rewrite (bind_Return _ _ _ _ _ Hget). rewrite Hq.
  unfold aggregate_toArray, logger_debug, rethrow, logger_captureError,
    round_trip, modify, get_state, try_catch, bind, ret, throw.
  cbn -[run_pipeline]. rewrite Hout.
  change (docs (collectionName r) (with_log (log s' ++ [LogDebug "aggregate"]) s'))
    with (docs (collectionName r) s').
  by destruct (run_pipeline _ _).
Qed.

Lemma distinct_run r f s s' :
  getCollection r s = (Return (collectionName r), s') → outage s' = None →
  (BaseRepository.distinct r f s).1
  = Return (remove_dups (omap (λ d, d !! f) (docs (collectionName r) s')))
  ∧ store (BaseRepository.distinct r f s).2 = store s'.
Proof.
  intros Hget Hout. unfold BaseRepository.distinct.
  rewrite (bind_Return _ _ _ _ _ Hget).
  unfold Mongo.distinct, logger_debug, rethrow, logger_captureError,
    round_trip, modify, get_state, try_catch, bind, ret, throw.
  cbn. by rewrite Hout.
Qed.

(** The state [getCollection] leaves, for an online repository. *)
Lemma online_opened r s :
  online r s →
  ∃ s', getCollection r s = (Return (collectionName r), s')
        ∧ outage s' = None
        ∧ docs (collectionName r) s' = stored r s
        ∧ store s' = store s
        ∧ handle s' = Some (collectionName r).
Proof.
  intros Hon.
  destruct (getCollection_online r s Hon) as (s' & Hget & Hopen).
  exists s'. split_and!; [done| | |apply Hopen|apply Hopen].
  - rewrite (opened_outage r s s' Hopen). apply Hon.
  - apply (opened_docs r s s' _ Hopen).
Qed.

Lemma head_filter_first_match fq (l : list document) :
  head (filter (λ d, Is_true (Match.query fq d)) l) = snd <$> first_match fq l.
Proof.
  unfold first_match. induction l as [|d l IH]; [done|].
  rewrite filter_cons. simpl. case_decide; simpl; [done|].
  rewrite IH. by destruct (list_find _ l) as [[i x]|].
Qed.

Lemma first_match_None fq (l : list document) :
  first_match fq l = None ↔ ∀ d, d ∈ l → Match.query fq d = false.
Proof.
  unfold first_match. rewrite list_find_None, Forall_forall.
  split; intros H d Hd; specialize (H d Hd).
  - by destruct (Match.query fq d).
  - intros Ht. by rewrite H in Ht.
Qed.

Lemma first_match_Some fq (l : list document) i d :
  first_match fq l = Some (i, d) →
  l !! i = Some d ∧ Match.query fq d = true
  ∧ ∀ j y, l !! j = Some y → (j < i)%nat → Match.query fq y = false.
Proof.
  unfold first_match. intros (Hi & Hm & Hleast)%list_find_Some.
  split_and!; [done|by apply Is_true_true|].
  intros j y Hj Hlt. specialize (Hleast j y Hj Hlt).
  by destruct (Match.query fq y).
Qed.

End crud.

(** X1.  create of a document without an _id, by what the unique indexes
    of the collection say.  If they admit the document, it is stored at
    the end of the collection under an _id that no stored document has,
    and that _id is acknowledged.  If they do not, create throws a
    RepositoryError around the duplicate key error and the collection is
    left as it was. *)
Theorem create_appends_with_fresh_id
    (r : repository) (item : document) (s : state) :
  online r s → item !! "_id" = None →
  (admits r s item →
   ∃ id,
     returned (BaseRepository.create r item s)
     = Some {| Mongo.insertedId := Some id; Mongo.insertedCount := 1 |}
     ∧ stored r (BaseRepository.create r item s).2
       = stored r s ++ [<["_id" := id]> item]
     ∧ ∀ d, d ∈ stored r s → d !! "_id" ≠ Some id)
  ∧ (¬ admits r s item →
     (BaseRepository.create r item s).1
     = Throw (RepositoryError (MongoError "E11000 duplicate key error"))
     ∧ stored r (BaseRepository.create r item s).2 = stored r s).
Proof.
  intros Hon Hid.
  destruct (online_opened r s Hon) as (s' & Hget & Hout & Hdocs & Hst & Hh).
  rewrite (create_run r item s s' Hget Hout). cbv zeta. rewrite Hdocs.
  unfold Mongo.refused.
  rewrite (MongoFacts.with_id_fresh _ _ Hid), orb_false_l.
  rewrite clashes_with_id by apply MongoFacts.unique_fields_not_id.
  split.
  - intros Hadm. unfold admits in Hadm. rewrite Hadm.
    exists (VId (Mongo.oid_bound (stored r s))).
    unfold Mongo.with_id. rewrite Hid.
    split_and!.
    + unfold returned. simpl. by rewrite lookup_insert_eq.
    + unfold stored at 1. cbn [snd]. by rewrite MongoFacts.docs_with_store.
    + intros d Hd Heq. pose proof (MongoFacts.oid_bound_gt _ _ _ Hd Heq). lia.
  - intros Hadm. unfold admits in Hadm.
    apply not_false_is_true in Hadm. rewrite Hadm. split; [done|].
    unfold stored, Mongo.docs. simpl. by rewrite Hst.
Qed.

(** A third organization is filed beside the two on file; a second one
    under the title "gold" is refused. *)
Lemma create_appends_with_fresh_id_witness :
  (∃ id,
     returned (BaseRepository.create organizations
                 (organization 3 "silver" "0x03") gold_state)
     = Some {| Mongo.insertedId := Some id; Mongo.insertedCount := 1 |}
     ∧ stored organizations
         (BaseRepository.create organizations
            (organization 3 "silver" "0x03") gold_state).2
       = [older; newest; <["_id" := id]> (organization 3 "silver" "0x03")]
     ∧ ∀ d, d ∈ stored organizations gold_state → d !! "_id" ≠ Some id)
  ∧ (BaseRepository.create organizations
       (organization 4 "gold" "0x04") gold_state).1
    = Throw (RepositoryError (MongoError "E11000 duplicate key error")).
Proof.
  split.
  - destruct (create_appends_with_fresh_id organizations
                (organization 3 "silver" "0x03") gold_state) as [Hok _].
    + split; [reflexivity | left; reflexivity].
    + reflexivity.
    + apply Hok. vm_compute. reflexivity.
  - destruct (create_appends_with_fresh_id organizations
                (organization 4 "gold" "0x04") gold_state) as [_ Hno].
    + split; [reflexivity | left; reflexivity].
    + reflexivity.
    + apply Hno. vm_compute. discriminate.
Defined.

(** X2.  create of a document that brings its own _id succeeds exactly
    when no stored document has that _id and the unique indexes of the
    collection admit the document: then the document is stored as it is;
    otherwise a RepositoryError around the duplicate key error is thrown
    and the collection is left as it was. *)
Theorem create_with_own_id
    (r : repository) (item : document) (i : value) (s : state) :
  online r s → item !! "_id" = Some i →
  ((∃ d, d ∈ stored r s ∧ d !! "_id" = Some i) ∨ ¬ admits r s item →
   (BaseRepository.create r item s).1
   = Throw (RepositoryError (MongoError "E11000 duplicate key error"))
   ∧ stored r (BaseRepository.create r item s).2 = stored r s)
  ∧ ((∀ d, d ∈ stored r s → d !! "_id" ≠ Some i) → admits r s item →
     returned (BaseRepository.create r item s)
     = Some {| Mongo.insertedId := Some i; Mongo.insertedCount := 1 |}
     ∧ stored r (BaseRepository.create r item s).2 = stored r s ++ [item]).
Proof.
  intros Hon Hid.
  destruct (online_opened r s Hon) as (s' & Hget & Hout & Hdocs & Hst & Hh).
  rewrite (create_run r item s s' Hget Hout). cbv zeta. rewrite Hdocs.
  assert (Hwith : Mongo.with_id (stored r s) item = item).
  { unfold Mongo.with_id. by rewrite Hid. }
  rewrite Hwith. unfold Mongo.refused. split.
  - intros Hbad.
    assert (Hrefused : Mongo.id_taken (stored r s) item
                       || Mongo.clashes (Mongo.unique_fields (collectionName r))
                            (stored r s) item = true).
    { destruct Hbad as [(d & Hd & Hdi)|Hadm].
      - apply orb_true_intro. left.
        destruct (Mongo.id_taken (stored r s) item) eqn:Ht; [done|].
        pose proof (proj1 (MongoFacts.id_taken_false _ _) Ht d Hd). congruence.
      - apply orb_true_intro. right. by apply not_false_is_true. }
    rewrite Hrefused. split; [done|].
    unfold stored, Mongo.docs. simpl. by rewrite Hst.
  - intros Hfree Hadm.
    assert (Hfree' : Mongo.id_taken (stored r s) item = false).
    { apply MongoFacts.id_taken_false. intros d Hd. rewrite Hid. by apply Hfree. }
    unfold admits in Hadm. rewrite Hfree', Hadm. cbn [orb]. split.
    + unfold returned. simpl. by rewrite Hid.
    + unfold stored at 1. cbn [snd]. by rewrite MongoFacts.docs_with_store.
Qed.

(** Beside the two organizations on file, a third one is stored under
    the _id it brings; one that brings the _id of the first is refused. *)
Lemma create_with_own_id_witness :
  returned (BaseRepository.create organizations
              (<["_id" := VId 7]> (organization 3 "silver" "0x03")) gold_state)
  = Some {| Mongo.insertedId := Some (VId 7); Mongo.insertedCount := 1 |}
  ∧ (BaseRepository.create organizations
       (<["_id" := VId 1]> (organization 3 "silver" "0x03")) gold_state).1
    = Throw (RepositoryError (MongoError "E11000 duplicate key error")).
Proof.
  split.
  - destruct (create_with_own_id organizations
                (<["_id" := VId 7]> (organization 3 "silver" "0x03")) (VId 7)
                gold_state) as [_ Hfree].
    + split; [reflexivity | left; reflexivity].
    + reflexivity.
    + apply Hfree; [|vm_compute; reflexivity].
      apply Forall_forall. repeat constructor; vm_compute; discriminate.
  - destruct (create_with_own_id organizations
                (<["_id" := VId 1]> (organization 3 "silver" "0x03")) (VId 1)
                gold_state) as [Htaken _].
    + split; [reflexivity | left; reflexivity].
    + reflexivity.
    + apply Htaken. left. exists older. split; [left|reflexivity].
Defined.

(** X3.  deleteOne removes the first stored document that matches, and
    nothing else: it reports 1 exactly when some document matches, the
    collection shrinks by what it reports, and the documents left are the
    others in their order.  With no match the collection is untouched. *)
Theorem deleteOne_removes_first_match
    (r : repository) (q : APIQuery.t) (fq : fields_query) (s : state) :
  online r s → APIQuery.query q = QFilter fq →
  ∃ n,
    returned (BaseRepository.deleteOne r q s) = Some {| Mongo.deletedCount := n |}
    ∧ (n = 1 ∨ n = 0)
    ∧ (n = 1 ↔ ∃ d, d ∈ stored r s ∧ Match.query fq d = true)
    ∧ Z.of_nat (length (stored r (BaseRepository.deleteOne r q s).2))
      = Z.of_nat (length (stored r s)) - n
    ∧ match Mongo.first_match fq (stored r s) with
      | Some (i, _) =>
          stored r (BaseRepository.deleteOne r q s).2 = delete i (stored r s)
      | None => stored r (BaseRepository.deleteOne r q s).2 = stored r s
      end.
Proof.
  intros Hon Hq.
  destruct (online_opened r s Hon) as (s' & Hget & Hout & Hdocs & Hst & Hh).
  rewrite (deleteOne_run r q fq s s' Hget Hout Hq). cbv zeta. rewrite Hdocs.
  destruct (Mongo.first_match fq (stored r s)) as [[i d]|] eqn:Hfirst.
  - destruct (first_match_Some _ _ _ _ Hfirst) as (Hi & Hm & _).
    exists 1. split_and!; [done|by left| | |].
    + split; [|done]. intros _. exists d. split; [|done].
      by eapply list_elem_of_lookup_2.
    + unfold stored at 1. cbn [snd]. rewrite MongoFacts.docs_with_store.
      rewrite length_delete by eauto.
      apply lookup_lt_Some in Hi. lia.
    + unfold stored at 1. cbn [snd]. by rewrite MongoFacts.docs_with_store.
  - exists 0.
    assert (Hsame : stored r (with_log (log s' ++ [LogDebug "deleteOne"]) s')
                    = stored r s).
    { unfold stored, Mongo.docs. simpl. by rewrite Hst. }
    split_and!; [done|by right| | |].
    + split; [done|]. intros (d & Hd & Hm).
      rewrite (proj1 (first_match_None _ _) Hfirst d Hd) in Hm. done.
    + cbn [snd]. rewrite Hsame. lia.
    + exact Hsame.
Qed.

Lemma deleteOne_removes_first_match_witness :
  ∃ n, returned (BaseRepository.deleteOne organizations
                   (filter_query {["title" := MEq (VStr "gold")]}) gold_state)
       = Some {| Mongo.deletedCount := n |}.
Proof.
  destruct (deleteOne_removes_first_match organizations
              (filter_query {["title" := MEq (VStr "gold")]})
              {["title" := MEq (VStr "gold")]} gold_state) as (n & Hn & _).
  - split; [reflexivity | left; reflexivity].
  - reflexivity.
  - by exists n.
Defined.

Lemma delete_last {X} (l : list X) (x : X) : delete (length l) (l ++ [x]) = l.
Proof. induction l as [|y l IH]; simpl; [done|]. by rewrite IH. Qed.

(** X4.  A document without _id that the unique indexes admit is stored
    by create and can be removed again by deleteOne with the filter
    [{ _id: insertedId }]: deleteOne reports one deletion and the
    collection is then what it was before the create. *)
Theorem create_then_deleteOne_restores
    (r : repository) (item : document) (s : state) :
  online r s → item !! "_id" = None → admits r s item →
  ∃ id,
    returned (BaseRepository.create r item s)
    = Some {| Mongo.insertedId := Some id; Mongo.insertedCount := 1 |}
    ∧ stored r (BaseRepository.create r item s).2
      = stored r s ++ [<["_id" := id]> item]
    ∧ returned (BaseRepository.deleteOne r (by_id id)
                  (BaseRepository.create r item s).2)
      = Some {| Mongo.deletedCount := 1 |}
    ∧ stored r (BaseRepository.deleteOne r (by_id id)
                  (BaseRepository.create r item s).2).2
      = stored r s.
Proof.
  intros Hon Hid Hadm.
  destruct (online_opened r s Hon) as (s' & Hget & Hout & Hdocs & Hst & Hh).
  rewrite (create_run r item s s' Hget Hout). cbv zeta. rewrite Hdocs.
  unfold Mongo.refused.
  rewrite (MongoFacts.with_id_fresh _ _ Hid), orb_false_l.
  rewrite clashes_with_id by apply MongoFacts.unique_fields_not_id.
  unfold admits in Hadm. rewrite Hadm.
  set (id := VId (Mongo.oid_bound (stored r s))).
  assert (Hwith : Mongo.with_id (stored r s) item = <["_id" := id]> item).
  { unfold Mongo.with_id. by rewrite Hid. }
  rewrite Hwith. exists id. split.
  { unfold returned. simpl. by rewrite lookup_insert_eq. }
  cbn [snd].
  set (s2 := with_store _ _).
  assert (Hon2 : online r s2) by (split; [done|by right]).
  assert (Hdocs2 : stored r s2 = stored r s ++ [<["_id" := id]> item]).
  { unfold stored at 1, s2. by rewrite MongoFacts.docs_with_store. }
  split; [exact Hdocs2|].
  destruct (online_opened r s2 Hon2) as (s3 & Hget3 & Hout3 & Hdocs3 & Hst3 & _).
  rewrite (deleteOne_run r (by_id id) _ s2 s3 Hget3 Hout3 eq_refl). cbv zeta.
  rewrite Hdocs3, Hdocs2.
  rewrite (MongoFacts.first_match_append _ (stored r s) (<["_id" := id]> item)).
  - split; [done|]. unfold stored at 1. cbn [snd].
    rewrite MongoFacts.docs_with_store. apply delete_last.
  - apply first_match_None. intros d Hd.
    apply not_true_is_false. intros Hm.
    pose proof (proj1 (MongoFacts.query_true _ _) Hm "_id" (MEq id)
                  (lookup_singleton_eq _ _)) as Hf.
    unfold id in Hf. simpl in Hf.
    destruct (d !! "_id") as [x|] eqn:Hx; [|done].
    apply bool_decide_eq_true in Hf. subst x.
    pose proof (MongoFacts.oid_bound_gt _ _ _ Hd Hx). lia.
  - apply MongoFacts.query_true. intros f m [<- <-]%lookup_singleton_Some.
    rewrite lookup_insert_eq. unfold id. simpl. by apply bool_decide_eq_true.
Qed.

(** A third organization is filed beside the two on file and deleted
    again by its _id. *)
Lemma create_then_deleteOne_restores_witness :
  ∃ id,
    returned (BaseRepository.create organizations
                (organization 3 "silver" "0x03") gold_state)
    = Some {| Mongo.insertedId := Some id; Mongo.insertedCount := 1 |}
    ∧ stored organizations
        (BaseRepository.create organizations
           (organization 3 "silver" "0x03") gold_state).2
      = [older; newest; <["_id" := id]> (organization 3 "silver" "0x03")]
    ∧ returned (BaseRepository.deleteOne organizations (by_id id)
                  (BaseRepository.create organizations
                     (organization 3 "silver" "0x03") gold_state).2)
      = Some {| Mongo.deletedCount := 1 |}
    ∧ stored organizations
        (BaseRepository.deleteOne organizations (by_id id)
           (BaseRepository.create organizations
              (organization 3 "silver" "0x03") gold_state).2).2
      = [older; newest].
Proof.
  apply (create_then_deleteOne_restores organizations
           (organization 3 "silver" "0x03") gold_state).
  - split; [reflexivity | left; reflexivity].
  - reflexivity.
  - vm_compute. reflexivity.
Defined.

(** X5.  update with create=false, for an item that does not set _id and
    when the unique indexes of the collection admit the first matching
    document with the item's fields laid over it: it never inserts and
    never removes, so the collection keeps its size; it returns null
    exactly when no stored document matches, and otherwise the first
    match with the item's fields laid over it, which replaces that match
    in place. *)
Theorem update_without_upsert
    (r : repository) (q : APIQuery.t) (fq : fields_query)
    (item : document) (s : state) :
  online r s → APIQuery.query q = QFilter fq → item !! "_id" = None →
  (∀ i d, Mongo.first_match fq (stored r s) = Some (i, d) →
          admits_update r s i d (item ∪ d)) →
  ∃ o,
    returned (BaseRepository.update r q item false s) = Some o
    ∧ length (stored r (BaseRepository.update r q item false s).2)
      = length (stored r s)
    ∧ (o = None ↔ ∀ d, d ∈ stored r s → Match.query fq d = false)
    ∧ match Mongo.first_match fq (stored r s) with
      | Some (i, d) =>
          o = Some (item ∪ d)
          ∧ stored r (BaseRepository.update r q item false s).2
            = <[i := item ∪ d]> (stored r s)
      | None =>
          stored r (BaseRepository.update r q item false s).2 = stored r s
      end.
Proof.
  intros Hon Hq Hitem Hadm.
  pose proof (update_call r q fq item false s Hon Hq Hitem) as Hcall.
  cbv zeta in Hcall.
  destruct (Mongo.first_match fq (stored r s)) as [[i d]|] eqn:Hfirst.
  - destruct (Hcall (Hadm i d eq_refl)) as (Hret & Hst & _).
    eexists. split; [exact Hret|].
    rewrite Hst. split; [by rewrite length_insert|]. split; [|done].
    split; [done|]. intros Hnone.
    destruct (first_match_Some _ _ _ _ Hfirst) as (Hi & Hm & _).
    rewrite (Hnone d) in Hm; [done|]. by eapply list_elem_of_lookup_2.
  - destruct Hcall as (Hret & Hst). eexists. split; [exact Hret|].
    rewrite Hst. split; [done|]. split; [|done].
    split; [|done]. intros _. by apply first_match_None.
Qed.

(** The organization titled "gold", the second on file, passes to
    another owner. *)
Lemma update_without_upsert_witness :
  returned (BaseRepository.update organizations
              (filter_query {["title" := MEq (VStr "gold")]})
              {["owner" := VStr "0xabc"]} false gold_state)
  = Some (Some ({["owner" := VStr "0xabc"]} ∪ newest))
  ∧ stored organizations
      (BaseRepository.update organizations
         (filter_query {["title" := MEq (VStr "gold")]})
         {["owner" := VStr "0xabc"]} false gold_state).2
    = [older; {["owner" := VStr "0xabc"]} ∪ newest].
Proof.
  assert (Hfirst : Mongo.first_match {["title" := MEq (VStr "gold")]}
                     (stored organizations gold_state) = Some (1%nat, newest))
    by (vm_compute; reflexivity).
  destruct (update_without_upsert organizations
              (filter_query {["title" := MEq (VStr "gold")]})
              {["title" := MEq (VStr "gold")]}
              {["owner" := VStr "0xabc"]} gold_state) as (o & Ho & _ & _ & Hmatch).
  - split; [reflexivity | left; reflexivity].
  - reflexivity.
  - reflexivity.
  - intros i d Hid. rewrite Hfirst in Hid. injection Hid as <- <-.
    vm_compute. reflexivity.
  - rewrite Hfirst in Hmatch. destruct Hmatch as [-> Hst].
    split; [exact Ho|exact Hst].
Defined.

Section reads.
Import Mongo MongoFacts BaseRepository.

Lemma findOne_run_fields r q fq s s' :
  getCollection r s = (Return (collectionName r), s') → outage s' = None →
  APIQuery.query q = QFilter fq →
  (findOne r q s).1 =
  (if Projection.mixed (APIQuery.fields q)
   then Throw (RepositoryError
          (MongoError "Projection cannot have a mix of inclusion and exclusion"))
   else Return (Projection.apply (APIQuery.fields q)
                  <$> head (filter (λ d, Is_true (Match.query fq d))
                                   (docs (collectionName r) s'))))
  ∧ store (findOne r q s).2 = store s'.
Proof.
  intros Hget Hout Hq. unfold findOne.
  rewrite (bind_Return _ _ _ _ _ Hget).
  unfold findOne_options. rewrite Hq.
  unfold logger_debug, rethrow, logger_captureError, modify,
    try_catch, bind, ret, throw.
  cbn -[find_toArray Projection.mixed Projection.apply].
  rewrite find_toArray_run by done. cbv zeta.
  cbn -[Projection.mixed Projection.apply limited].
  change (docs (collectionName r) (with_log (log s' ++ [LogDebug "findOne"]) s'))
    with (docs (collectionName r) s').
  destruct (Projection.mixed (APIQuery.fields q)); [done|].
  cbn -[Projection.apply limited]. split; [|done]. f_equal.
  unfold limited. simpl.
  by destruct (filter _ (docs (collectionName r) s')).
Qed.

Lemma exists_run r q fq k s s' :
  getCollection r s = (Return (collectionName r), s') → outage s' = None →
  APIQuery.query q = QFilter fq → fq !! "keys" = Some (MEq (VStr k)) → k ≠ "" →
  (exists_ r q s).1 =
  Return (bool_decide
            (0 < length (limited 1
                   (filter (λ d, Is_true (Match.query fq d))
                           (docs (collectionName r) s'))))%nat)
  ∧ store (exists_ r q s).2 = store s'.
Proof.
  intros Hget Hout Hq Hkeys Hk. unfold exists_.
  rewrite (bind_Return _ _ _ _ _ Hget).
  unfold keys_length. rewrite Hq, Hkeys.
  assert (Hlen : bool_decide (Z.of_nat (String.length k) = 0) = false).
  { apply bool_decide_eq_false. destruct k; [done|]. simpl. lia. }
  unfold logger_debug, rethrow, logger_captureError, modify,
    try_catch, bind, ret, throw.
  cbn -[find_toArray String.length]. rewrite Hlen.
  rewrite find_toArray_run by done. done.
Qed.

End reads.

(** X6.  findOne returns the first stored document that matches, reduced
    to the requested fields, and null exactly when none matches; a
    projection that mixes inclusion and exclusion is answered with a
    RepositoryError.  The store is only read. *)
Theorem findOne_first_match
    (r : repository) (q : APIQuery.t) (fq : fields_query) (s : state) :
  online r s → APIQuery.query q = QFilter fq →
  store (BaseRepository.findOne r q s).2 = store s
  ∧ (Projection.mixed (APIQuery.fields q) = true →
     (BaseRepository.findOne r q s).1
     = Throw (RepositoryError
         (MongoError "Projection cannot have a mix of inclusion and exclusion")))
  ∧ (Projection.mixed (APIQuery.fields q) = false →
     ∃ o, returned (BaseRepository.findOne r q s) = Some o
          ∧ (o = None ↔ ∀ d, d ∈ stored r s → Match.query fq d = false)
          ∧ match Mongo.first_match fq (stored r s) with
            | Some (_, d) => o = Some (Projection.apply (APIQuery.fields q) d)
            | None => o = None
            end).
Proof.
  intros Hon Hq.
  destruct (online_opened r s Hon) as (s' & Hget & Hout & Hdocs & Hst & Hh).
  destruct (findOne_run_fields r q fq s s' Hget Hout Hq) as [Hrun Hstore].
  rewrite Hdocs, head_filter_first_match in Hrun.
  split_and!.
  - by rewrite Hstore.
  - intros Hmixed. by rewrite Hrun, Hmixed.
  - intros Hmixed. rewrite Hmixed in Hrun.
    eexists. unfold returned. rewrite Hrun. split; [done|].
    destruct (Mongo.first_match fq (stored r s)) as [[i d]|] eqn:Hfirst.
    + split; [|done]. split; [done|]. intros Hnone.
      destruct (first_match_Some _ _ _ _ Hfirst) as (Hi & Hm & _).
      rewrite (Hnone d) in Hm; [done|]. by eapply list_elem_of_lookup_2.
    + split; [|done]. split; [|done]. intros _. by apply first_match_None.
Qed.

Lemma findOne_first_match_witness :
  store (BaseRepository.findOne organizations gold_query gold_state).2
  = store gold_state.
Proof.
  destruct (findOne_first_match organizations gold_query ∅ gold_state)
    as (Hstore & _).
  - split; [reflexivity | left; reflexivity].
  - reflexivity.
  - exact Hstore.
Defined.

(** X7.  count and aggregate with a single $match stage agree:
    count returns the number of documents that aggregate returns for the
    same filter, which are the matching stored documents in their order,
    and the count is positive exactly when some stored document matches.
    Neither changes the store. *)
Theorem count_agrees_with_aggregate
    (r : repository) (q : APIQuery.t) (fq : fields_query) (s : state) :
  online r s → APIQuery.query q = QPipeline [SMatch (FQuery fq)] →
  ∃ n l,
    returned (BaseRepository.count r (QFilter fq) s) = Some n
    ∧ returned (BaseRepository.aggregate r q s) = Some l
    ∧ n = Z.of_nat (length l)
    ∧ l = filter (λ d, Is_true (Match.query fq d)) (stored r s)
    ∧ (0 < n ↔ ∃ d, d ∈ stored r s ∧ Match.query fq d = true)
    ∧ store (BaseRepository.count r (QFilter fq) s).2 = store s
    ∧ store (BaseRepository.aggregate r q s).2 = store s.
Proof.
  intros Hon Hq.
  destruct (online_opened r s Hon) as (s' & Hget & Hout & Hdocs & Hst & Hh).
  destruct (aggregate_run r q _ s s' Hget Hout Hq) as [Hagg Hagg2].
  rewrite (count_run r fq s s' Hget Hout). rewrite Hdocs in *.
  simpl in Hagg.
  exists (Z.of_nat (length (filter (λ d, Is_true (Match.query fq d)) (stored r s)))),
         (filter (λ d, Is_true (Match.query fq d)) (stored r s)).
  split_and!; try done.
  - unfold returned. by rewrite Hagg.
  - split.
    + intros Hpos.
      destruct (filter (λ d, Is_true (Match.query fq d)) (stored r s))
        as [|d l] eqn:Hf; [simpl in Hpos; lia|].
      assert (Hd : d ∈ filter (λ d, Is_true (Match.query fq d)) (stored r s))
        by (rewrite Hf; left).
      apply list_elem_of_filter in Hd as [Hm Hd].
      exists d. split; [done|]. by apply Is_true_true.
    + intros (d & Hd & Hm).
      assert (Hin : d ∈ filter (λ d, Is_true (Match.query fq d)) (stored r s)).
      { apply list_elem_of_filter. split; [by apply Is_true_true|done]. }
      destruct (filter (λ d, Is_true (Match.query fq d)) (stored r s));
        [by apply not_elem_of_nil in Hin|simpl; lia].
  - by rewrite Hagg2.
Qed.

Lemma count_agrees_with_aggregate_witness :
  ∃ n, returned (BaseRepository.count organizations (QFilter ∅) gold_state)
       = Some n.
Proof.
  destruct (count_agrees_with_aggregate organizations
              {| APIQuery.query := QPipeline [SMatch (FQuery ∅)];
                 APIQuery.fields := ∅; APIQuery.search := None;
                 APIQuery.limit := None; APIQuery.next := None;
                 APIQuery.previous := None |} ∅ gold_state)
    as (n & l & Hn & _).
  - split; [reflexivity | left; reflexivity].
  - reflexivity.
  - by exists n.
Defined.

(** X8.  getEventDistinctField, that is distinct, returns every value the
    field takes in the collection exactly once, and nothing else. *)
Theorem distinct_values (r : repository) (f : string) (s : state) :
  online r s →
  ∃ vs,
    returned (EventService.getEventDistinctField r f s) = Some vs
    ∧ NoDup vs
    ∧ (∀ v, v ∈ vs ↔ ∃ d, d ∈ stored r s ∧ d !! f = Some v)
    ∧ store (EventService.getEventDistinctField r f s).2 = store s.
Proof.
  intros Hon.
  destruct (online_opened r s Hon) as (s' & Hget & Hout & Hdocs & Hst & Hh).
  destruct (distinct_run r f s s' Hget Hout) as [Hrun Hstore].
  rewrite Hdocs in Hrun. unfold EventService.getEventDistinctField.
  eexists. unfold returned. rewrite Hrun. split_and!; [done| | |by rewrite Hstore].
  - apply NoDup_remove_dups.
  - intros v. rewrite elem_of_remove_dups, list_elem_of_omap. done.
Qed.

Lemma distinct_values_witness :
  ∃ vs, returned (EventService.getEventDistinctField organizations "title"
                    gold_state) = Some vs ∧ NoDup vs.
Proof.
  destruct (distinct_values organizations "title" gold_state)
    as (vs & Hvs & Hnd & _).
  - split; [reflexivity | left; reflexivity].
  - by exists vs.
Defined.

(** X9.  getEventExists never fails for lack of a filter: it returns
    whether some stored event has the given eventId, and leaves the store
    as it was. *)
Theorem getEventExists_spec (r : repository) (eventId : string) (s : state) :
  online r s →
  ∃ b,
    returned (EventService.getEventExists r eventId s) = Some b
    ∧ (b = true ↔ ∃ d, d ∈ stored r s ∧ d !! "eventId" = Some (VStr eventId))
    ∧ store (EventService.getEventExists r eventId s).2 = store s.
Proof.
  intros Hon.
  destruct (online_opened r s Hon) as (s' & Hget & Hout & Hdocs & Hst & Hh).
  unfold EventService.getEventExists.
  assert (Hclauses : own_clauses {["eventId" := VStr eventId]} ["eventId"]
                     = [{["eventId" := MEq (VStr eventId)]}]).
  { unfold own_clauses. simpl. by rewrite lookup_singleton_eq. }
  destruct (existsOR_run r {["eventId" := VStr eventId]} ["eventId"] s s'
              Hget Hout) as [Hrun Hstore].
  { by apply lookup_singleton_ne. }
  { by rewrite Hclauses. }
  rewrite Hclauses, Hdocs in Hrun.
  eexists. unfold returned. rewrite Hrun.
  split_and!; [done| |by rewrite Hstore].
  rewrite take_1_nonempty. simpl.
  split; intros (d & Hd & Hm); exists d; (split; [done|]).
  - rewrite orb_false_r in Hm.
    pose proof (proj1 (MongoFacts.query_true _ _) Hm "eventId" _
                  (lookup_singleton_eq _ _)) as Hf.
    simpl in Hf. destruct (d !! "eventId"); [|done].
    apply bool_decide_eq_true in Hf. by subst.
  - rewrite orb_false_r. apply MongoFacts.query_true.
    intros f m [<- <-]%lookup_singleton_Some. rewrite Hm. simpl.
    by apply bool_decide_eq_true.
Qed.

Lemma getEventExists_spec_witness :
  ∃ b, returned (EventService.getEventExists organizations "e1" fresh_state)
       = Some b.
Proof.
  destruct (getEventExists_spec organizations "e1" fresh_state) as (b & Hb & _).
  - split; [reflexivity | left; reflexivity].
  - by exists b.
Defined.

(** X10.  exists reaches the store only through its reading of the
    property "keys": on an array of pipeline stages, and on a filter whose
    "keys" field is an empty string or no string at all (null apart), it
    throws the RepositoryError "Invalid query for exists"; on a filter
    whose "keys" field is a non-empty string it returns whether some
    stored document matches the filter. *)
Theorem exists_on_pipeline_or_keys_field
    (r : repository) (q : APIQuery.t) (s : state) :
  online r s →
  (∀ p, APIQuery.query q = QPipeline p →
        (BaseRepository.exists_ r q s).1
        = Throw (RepositoryErrorReason "Invalid query for exists"))
  ∧ (∀ fq m, APIQuery.query q = QFilter fq → fq !! "keys" = Some m →
             m ≠ MEq VNull → (∀ k, m = MEq (VStr k) → k = "") →
             (BaseRepository.exists_ r q s).1
             = Throw (RepositoryErrorReason "Invalid query for exists"))
  ∧ (∀ fq k, APIQuery.query q = QFilter fq →
             fq !! "keys" = Some (MEq (VStr k)) → k ≠ "" →
             ∃ b, returned (BaseRepository.exists_ r q s) = Some b
                  ∧ (b = true ↔
                     ∃ d, d ∈ stored r s ∧ Match.query fq d = true)
                  ∧ store (BaseRepository.exists_ r q s).2 = store s).
Proof.
  intros Hon.
  destruct (online_opened r s Hon) as (s' & Hget & Hout & Hdocs & Hst & Hh).
  split_and!.
  - intros p Hq. unfold BaseRepository.exists_.
    rewrite (bind_Return _ _ _ _ _ Hget).
    unfold BaseRepository.keys_length. by rewrite Hq.
  - intros fq m Hq Hkeys Hnull Hstr. unfold BaseRepository.exists_.
    rewrite (bind_Return _ _ _ _ _ Hget).
    unfold BaseRepository.keys_length. rewrite Hq, Hkeys.
    destruct m as [[| | |k|]| | |]; try done.
    by rewrite (Hstr k eq_refl).
  - intros fq k Hq Hkeys Hk.
    destruct (exists_run r q fq k s s' Hget Hout Hq Hkeys Hk) as [Hrun Hstore].
    rewrite Hdocs in Hrun.
    eexists. unfold returned. rewrite Hrun.
    split_and!; [done| |by rewrite Hstore].
    apply take_1_nonempty.
Qed.

Lemma exists_on_pipeline_or_keys_field_witness :
  (BaseRepository.exists_ organizations all_query fresh_state).1
  = Throw (RepositoryErrorReason "Invalid query for exists").
Proof.
  destruct (exists_on_pipeline_or_keys_field organizations all_query fresh_state)
    as (Hp & _).
  - split; [reflexivity | left; reflexivity].
  - by apply (Hp []).
Defined.

Section pipelines.
Import Mongo MongoFacts BaseRepository.

Lemma passes_nil d : passes d [].
Proof. intros f Hf. by apply not_elem_of_nil in Hf. Qed.

Lemma passes_cons d f p :
  Match.doc f d = true → passes d p → passes d (SMatch f :: p).
Proof.
  intros Hf Hp g Hg. apply elem_of_cons in Hg as [Hg|Hg]; [|by apply Hp].
  by injection Hg as ->.
Qed.

Lemma run_matches p l :
  only_matches p →
  ∃ l', run_pipeline p l = Some l' ∧ l' `sublist_of` l
        ∧ ∀ d, d ∈ l' → passes d p.
Proof.
  intros Hp. revert l. induction Hp as [|st p (f & -> & Hwf) _ IH]; intros l.
  - exists l. split_and!; [done..|]. intros. apply passes_nil.
  - simpl. rewrite Hwf.
    destruct (IH (filter (λ d, Is_true (Match.doc f d)) l))
      as (l' & Hrun & Hsub & Hpass).
    exists l'. split_and!; [done| |].
    + etrans; [done|apply sublist_filter].
    + intros d Hd. apply passes_cons; [|by apply Hpass].
      pose proof (elem_of_sublist _ _ _ Hd Hsub) as Hin.
      apply list_elem_of_filter in Hin as [Hm _]. by apply Is_true_true.
Qed.

Lemma run_sorted_page cq spec n p l :
  0 < n → Match.well_formed cq = true → only_matches p →
  ∃ l', run_pipeline (SMatch cq :: [SSort spec; SLimit n] ++ p) l = Some l'
        ∧ page_of spec n p l l'.
Proof.
  intros Hn Hcq Hp. cbn -[Bson.sort_docs]. rewrite Hcq.
  rewrite bool_decide_eq_true_2 by done.
  destruct (run_matches p
              (take (Z.to_nat n)
                 (Bson.sort_docs spec (filter (λ d, Is_true (Match.doc cq d)) l)))
              Hp) as (l' & Hrun & Hsub & Hpass).
  exists l'. split; [done|]. split; [by eexists|].
  intros d Hd. split; [|by apply Hpass].
  pose proof (elem_of_sublist _ _ _ Hd Hsub) as Hin.
  apply elem_of_take in Hin as (i & Hin & _).
  apply list_elem_of_lookup_2 in Hin.
  rewrite BsonFacts.sort_docs_perm in Hin.
  by apply list_elem_of_filter in Hin as [_ ?].
Qed.

Lemma run_paginate cq spec n p p' l :
  0 < n → Match.well_formed cq = true → only_matches p →
  MongoPaging.paginate cq [SSort spec; SLimit n] p = Some p' →
  ∃ l', run_pipeline p' l = Some l' ∧ page_of spec n p l l'.
Proof.
  intros Hn Hcq Hp. revert p' l.
  induction Hp as [|st p (f & -> & Hwf) Hrest IH]; intros p' l; [done|].
  cbn -[Bson.sort_docs]. destruct (MongoPaging.isEmpty f) eqn:Hempty.
  - destruct (MongoPaging.paginate cq [SSort spec; SLimit n] p) as [p''|];
      [|done].
    intros [= <-]. cbn -[Bson.sort_docs]. rewrite Hwf.
    destruct (IH p'' (filter (λ d, Is_true (Match.doc f d)) l) eq_refl)
      as (l' & Hrun & Hcut & Hin).
    exists l'. split; [done|]. split; [done|].
    intros d Hd. destruct (Hin d Hd) as [Hdl Hpass].
    apply list_elem_of_filter in Hdl as [Hm Hdl].
    split; [done|]. apply passes_cons; [by apply Is_true_true|done].
  - intros [= <-]. cbn -[Bson.sort_docs]. rewrite Hcq, Hwf. simpl.
    rewrite bool_decide_eq_true_2 by done.
    destruct (run_matches p
                (take (Z.to_nat n)
                   (Bson.sort_docs spec
                      (filter (λ d, Is_true (Match.doc cq d && Match.doc f d)) l)))
                Hrest) as (l' & Hrun & Hsub & Hpass).
    exists l'. split; [done|]. split; [by eexists|].
    intros d Hd.
    pose proof (elem_of_sublist _ _ _ Hd Hsub) as Hin.
    apply elem_of_take in Hin as (i & Hin & _).
    apply list_elem_of_lookup_2 in Hin.
    rewrite BsonFacts.sort_docs_perm in Hin.
    apply list_elem_of_filter in Hin as [Hm Hin].
    apply Is_true_true, andb_true_iff in Hm as [_ Hm].
    split; [done|]. apply passes_cons; [done|by apply Hpass].
Qed.

Lemma aggregatePaging_run r q p f asc s s' :
  getCollection r s = (Return (collectionName r), s') → outage s' = None →
  paginatedField_override r = Some f →
  paginatedAscending_override r = Some asc →
  APIQuery.query q = QPipeline p →
  let limit := MongoPaging.sanitized_limit (paging r) (APIQuery.limit q) in
  let dir := MongoPaging.sort_direction None (APIQuery.previous q) in
  let cq := MongoPaging.generateCursorQuery f dir (APIQuery.next q)
              (APIQuery.previous q) in
  let extra := [SSort (MongoPaging.generateSort f dir); SLimit (limit + 1)] in
  ∀ l,
    run_pipeline (default (SMatch cq :: extra ++ p)
                    (MongoPaging.paginate cq extra p))
      (docs (collectionName r) s') = Some l →
    (aggregatePaging r q s).1
    = Return (MongoPaging.prepareResponse f limit (APIQuery.next q)
                (APIQuery.previous q) l)
    ∧ store (aggregatePaging r q s).2 = store s'.
Proof.
  intros Hget Hout Hf Hasc Hq limit dir cq extra l Hrun.
  unfold aggregatePaging.
  rewrite (bind_Return _ _ _ _ _ Hget).
  unfold paginatedField, paginatedAscending. rewrite Hf, Hasc.
  unfold MongoPaging.aggregate. cbn [MongoPaging.ap_aggregation
    MongoPaging.ap_paginatedField MongoPaging.ap_sortAscending
    MongoPaging.ap_limit MongoPaging.ap_next MongoPaging.ap_previous].
  rewrite Hq. cbn [default].
  fold limit dir. fold cq. fold extra.
  unfold aggregate_toArray, round_trip, get_state, logger_debug, rethrow,
    logger_captureError, modify, try_catch, bind, ret, throw.
  cbn [fst snd outage with_log]. rewrite Hout.
  change (docs (collectionName r)
            (with_log (log s' ++ [LogDebug "aggregatePaging"]) s'))
    with (docs (collectionName r) s').
  change (id f) with f. fold cq. fold extra.
  rewrite Hrun. done.
Qed.

End pipelines.

(** X11.  aggregatePaging on a pipeline of $match stages, with a limit
    L >= 1: the page has at most L documents, each a stored document that
    passes every stage, and it is ordered by paginatedField from the
    highest value down, whether the repository declares
    paginatedAscending true or false.  The store is only read. *)
Theorem aggregatePaging_matches_descending
    (r : repository) (q : APIQuery.t) (p : list stage)
    (f : string) (asc : bool) (L : Z) (s : state) :
  online r s →
  paginatedField_override r = Some f →
  paginatedAscending_override r = Some asc →
  1 ≤ paginationMax (configuration r) →
  APIQuery.query q = QPipeline p → only_matches p →
  APIQuery.limit q = Some L → 1 ≤ L →
  ∃ page,
    returned (BaseRepository.aggregatePaging r q s) = Some page
    ∧ Z.of_nat (length (MongoPagedResult.results page)) ≤ L
    ∧ ordered_by f false (MongoPagedResult.results page)
    ∧ (∀ d, d ∈ MongoPagedResult.results page →
            d ∈ stored r s ∧ passes d p)
    ∧ store (BaseRepository.aggregatePaging r q s).2 = store s.
Proof.
  intros Hon Hf Hasc Hmax Hq Hp HL H1.
  destruct (online_opened r s Hon) as (s' & Hget & Hout & Hdocs & Hst & Hh).
  pose proof (clamp_bounds (BaseRepository.paging r) L H1 Hmax) as Hclamp.
  set (limit := MongoPaging.sanitized_limit (BaseRepository.paging r)
                  (APIQuery.limit q)).
  assert (Hlimit : 1 ≤ limit ≤ L).
  { unfold limit, MongoPaging.sanitized_limit. by rewrite HL. }
  set (dir := MongoPaging.sort_direction None (APIQuery.previous q)).
  set (cq := MongoPaging.generateCursorQuery f dir (APIQuery.next q)
               (APIQuery.previous q)).
  set (spec := MongoPaging.generateSort f dir).
  assert (Hpage : ∃ l,
    Mongo.run_pipeline
      (default (SMatch cq :: [SSort spec; SLimit (limit + 1)] ++ p)
         (MongoPaging.paginate cq [SSort spec; SLimit (limit + 1)] p))
      (Mongo.docs (collectionName r) s') = Some l
    ∧ page_of spec (limit + 1) p (Mongo.docs (collectionName r) s') l).
  { destruct (MongoPaging.paginate cq [SSort spec; SLimit (limit + 1)] p)
      as [p'|] eqn:Hpag.
    - apply (run_paginate cq spec (limit + 1) p p'); [lia| |done..].
      apply cursorQuery_well_formed.
    - apply run_sorted_page; [lia| |done]. apply cursorQuery_well_formed. }
  destruct Hpage as (l & Hrun & (l0 & Hcut) & Hin).
  destruct (aggregatePaging_run r q p f asc s s' Hget Hout Hf Hasc Hq l Hrun)
    as [Hres Hstore].
  eexists. unfold returned. rewrite Hres. split_and!; [done| | | |].
  - etrans; [|apply Hlimit]. apply prepareResponse_length; [lia|].
    etrans; [apply Nat2Z.inj_le, (sublist_length _ _ Hcut)|].
    rewrite length_take.
    etrans; [apply Nat2Z.inj_le, Nat.le_min_l|lia].
  - apply (prepareResponse_ordered f false).
    eapply ordered_by_sublist; [done|].
    eapply ordered_by_sublist; [apply sublist_take|].
    apply sorted_ordered_by, BsonFacts.sort_docs_sorted.
  - intros d Hd. apply prepareResponse_results in Hd.
    rewrite <- Hdocs. by apply Hin.
  - by rewrite Hstore.
Qed.

(** A repository that declares paginatedAscending true, asked for the
    organizations created after 0: the newer one comes first. *)
Lemma aggregatePaging_matches_descending_witness :
  ∃ page,
    returned (BaseRepository.aggregatePaging oldest_first created_pipeline
                gold_state)
    = Some page
    ∧ MongoPagedResult.results page = [newest; older]
    ∧ Z.of_nat (length (MongoPagedResult.results page)) ≤ 2
    ∧ ordered_by "createdOn" false (MongoPagedResult.results page)
    ∧ (∀ d, d ∈ MongoPagedResult.results page →
            Match.query {["createdOn" := MGt (VNum 0)]} d = true).
Proof.
  destruct (aggregatePaging_matches_descending oldest_first created_pipeline
              [SMatch (FQuery {["createdOn" := MGt (VNum 0)]})]
              "createdOn" true 2 gold_state)
    as (page & Hpage & Hlen & Hord & Hin & _).
  - split; [reflexivity | left; reflexivity].
  - reflexivity.
  - reflexivity.
  - vm_compute. discriminate.
  - reflexivity.
  - constructor; [|constructor]. eexists. split; [reflexivity|].
    vm_compute. reflexivity.
  - reflexivity.
  - lia.
  - exists page. split_and!; [exact Hpage| |exact Hlen|exact Hord|].
    + assert (Hrun : (λ page, MongoPagedResult.results page)
                       <$> returned (BaseRepository.aggregatePaging oldest_first
                                       created_pipeline gold_state)
                     = Some [newest; older]) by (vm_compute; reflexivity).
      rewrite Hpage in Hrun. by injection Hrun.
    + intros d Hd. destruct (Hin d Hd) as [_ Hpass].
      apply (Hpass (FQuery {["createdOn" := MGt (VNum 0)]})). left.
Defined.

Section connection.
Import Mongo MongoFacts BaseRepository.

Local Ltac fail_in_driver :=
  unfold MongoPaging.find, MongoPaging.search, MongoPaging.aggregate;
  unfold insertOne, insertMany, findOneAndUpdate, Mongo.deleteOne,
    countDocuments, aggregate_toArray, Mongo.distinct, find_toArray;
  unfold getTimestamp, logger_debug, rethrow, logger_captureError,
    round_trip, modify, get_state, try_catch, bind, ret, throw;
  simpl;
  match goal with H : outage _ = Some _ |- _ => rewrite H end;
  simpl; first [apply last_snoc | done].

(** X12.  The connection is opened outside every try block: whatever
    getCollection throws reaches the caller of each repository method as
    it is, not wrapped in a RepositoryError, and nothing is logged or
    done after it. *)
Theorem getCollection_failure_not_wrapped
    (r : repository) (q : APIQuery.t) (item : document)
    (items : list document) (create_flag : bool) (obj : document)
    (fields : list string) (f : string) (e : error) (s s' : state) :
  getCollection r s = (Throw e, s') →
  create r item s = (Throw e, s')
  ∧ createBulk r items s = (Throw e, s')
  ∧ update r q item create_flag s = (Throw e, s')
  ∧ BaseRepository.deleteOne r q s = (Throw e, s')
  ∧ count r (APIQuery.query q) s = (Throw e, s')
  ∧ aggregatePaging r q s = (Throw e, s')
  ∧ aggregate r q s = (Throw e, s')
  ∧ exists_ r q s = (Throw e, s')
  ∧ existsOR r obj fields s = (Throw e, s')
  ∧ BaseRepository.distinct r f s = (Throw e, s')
  ∧ search r q s = (Throw e, s')
  ∧ find r q s = (Throw e, s')
  ∧ findOne r q s = (Throw e, s')
  ∧ findOneOrCreate r q f s = (Throw e, s').
Proof.
  intros Hget.
  unfold create, createBulk, update, BaseRepository.deleteOne, count,
    aggregatePaging, aggregate, exists_, existsOR, BaseRepository.distinct,
    search, find, findOne, findOneOrCreate.
  rewrite !(bind_Throw _ _ _ _ _ Hget). by repeat split.
Qed.

Lemma getCollection_failure_not_wrapped_witness :
  create organizations ∅ unreachable_state
  = (Throw (MongoError "ECONNREFUSED"), unreachable_state).
Proof.
  destruct (getCollection_failure_not_wrapped organizations all_query ∅ []
              false ∅ [] "" (MongoError "ECONNREFUSED")
              unreachable_state unreachable_state)
    as (Hcreate & _).
  - reflexivity.
  - exact Hcreate.
Defined.

(** X13.  With the collection handle in hand and the server gone, each
    method that reaches the driver hands the driver's error to
    logger.captureError and then throws it wrapped in a RepositoryError;
    the store is not changed. *)
Theorem store_failure_captured_and_wrapped
    (r : repository) (q : APIQuery.t) (item : document)
    (create_flag : bool) (f : string) (c msg : string) (s : state) :
  handle s = Some c → outage s = Some msg →
  reported msg s (create r item s)
  ∧ reported msg s (update r q item create_flag s)
  ∧ reported msg s (BaseRepository.deleteOne r q s)
  ∧ reported msg s (count r (APIQuery.query q) s)
  ∧ reported msg s (aggregate r q s)
  ∧ reported msg s (BaseRepository.distinct r f s)
  ∧ reported msg s (findOne r q s)
  ∧ reported msg s (findOneOrCreate r q f s).
Proof.
  intros Hh Hout. unfold reported.
  unfold create, update, BaseRepository.deleteOne, count,
    aggregate, BaseRepository.distinct, findOne, findOneOrCreate.
  rewrite !(bind_Return _ _ _ _ _ (getCollection_cached r s c Hh)).
  split_and!; fail_in_driver.
Qed.

Lemma store_failure_captured_and_wrapped_witness :
  reported "ETIMEDOUT"
    (with_outage (Some "ETIMEDOUT") (with_handle (Some "organization") fresh_state))
    (create organizations ∅
       (with_outage (Some "ETIMEDOUT")
          (with_handle (Some "organization") fresh_state))).
Proof.
  destruct (store_failure_captured_and_wrapped organizations all_query ∅
              false "" "organization" "ETIMEDOUT"
              (with_outage (Some "ETIMEDOUT")
                 (with_handle (Some "organization") fresh_state)))
    as (Hcreate & _).
  - reflexivity.
  - reflexivity.
  - exact Hcreate.
Defined.

End connection.

Section cursors.
Import Mongo MongoFacts BaseRepository.

Lemma sorted_perm_eq {X} (R : relation X) (l1 l2 : list X) :
  (∀ a b, a ∈ l1 → b ∈ l1 → R a b → R b a → a = b) →
  StronglySorted R l1 → StronglySorted R l2 → l1 ≡ₚ l2 → l1 = l2.
Proof.
  revert l2. induction l1 as [|x l1 IH]; intros l2 Hanti Hs1 Hs2 Hperm.
  - by apply Permutation_nil_l in Hperm.
  - destruct l2 as [|y l2]; [by apply Permutation_nil_r in Hperm|].
    apply StronglySorted_inv in Hs1 as [Hs1 Hx].
    apply StronglySorted_inv in Hs2 as [Hs2 Hy].
    rewrite Forall_forall in Hx, Hy.
    assert (Hxy : x = y).
    { assert (Hx2 : x ∈ y :: l2) by (rewrite <- Hperm; left).
      assert (Hy1 : y ∈ x :: l1) by (rewrite Hperm; left).
      apply elem_of_cons in Hx2 as [?|Hx2]; [done|].
      apply elem_of_cons in Hy1 as [?|Hy1]; [done|].
      apply Hanti; [left|by right|by apply Hx|by apply Hy]. }
    subst y. f_equal. apply IH; [|done|done|by eapply Permutation_cons_inv].
    intros a b Ha Hb. apply Hanti; by right.
Qed.

Lemma filter_all {X} (P : X → Prop) `{∀ a, Decision (P a)} (l : list X) :
  (∀ a, a ∈ l → P a) → filter P l = l.
Proof.
  induction l as [|x l IH]; intros Hall; [done|].
  rewrite filter_cons_True by (apply Hall; left).
  f_equal. apply IH. intros a Ha. apply Hall. by right.
Qed.

(** In a sorted list without duplicates, the elements not below the
    i-th one are those after it. *)
Lemma filter_after {X} (R : relation X) (P : X → Prop)
    `{∀ a, Decision (P a)} (l : list X) (i : nat) (d : X) :
  (∀ a b, a ∈ l → b ∈ l → R a b → R b a → a = b) →
  R d d → StronglySorted R l → NoDup l → l !! i = Some d →
  (∀ a, a ∈ l → P a ↔ ¬ R a d) →
  filter P l = drop (S i) l.
Proof.
  intros Hanti Hrefl Hs. revert i Hanti.
  induction Hs as [|x l Hs IH Hx]; intros i Hanti Hnd Hi HP; [done|].
  apply NoDup_cons in Hnd as [Hxl Hnd]. rewrite Forall_forall in Hx.
  destruct i as [|i]; simpl in Hi.
  - injection Hi as ->.
    rewrite filter_cons_False by (rewrite HP by left; tauto).
    simpl. rewrite drop_0. apply filter_all. intros a Ha.
    apply HP; [by right|]. intros Had. apply Hxl.
    rewrite <- (Hanti a d); [done|by right|left|done|by apply Hx].
  - assert (Hd : d ∈ l) by by eapply list_elem_of_lookup_2.
    rewrite filter_cons_False.
    2:{ rewrite HP by left. intros Hn. apply Hn. by apply Hx. }
    simpl. apply IH; [|done|done|].
    + intros a b Ha Hb. apply Hanti; by right.
    + intros a Ha. apply HP. by right.
Qed.

Lemma ltb_negb_leb (v x : value) : Bson.ltb v x = negb (Bson.leb x v).
Proof.
  unfold Bson.ltb. destruct (Bson.leb x v) eqn:Hxv; simpl.
  - destruct (Bson.leb v x) eqn:Hvx; [|done]. simpl.
    by rewrite bool_decide_eq_true_2 by by apply BsonFacts.leb_antisym.
  - destruct (BsonFacts.leb_total v x) as [Hvx|Hvx]; [|congruence].
    rewrite Hvx. simpl. apply negb_true_iff, bool_decide_eq_false.
    intros ->. by rewrite BsonFacts.leb_refl in Hxv.
Qed.

(** The comparison clause of a cursor query. *)
Lemma field_op asc (v x : value) (o : option value) :
  o = Some x → Bson.rank x = Bson.rank v →
  Match.field ((if asc : bool then MGt else MLt) v) o
  = negb (if asc then Bson.leb x v else Bson.leb v x).
Proof.
  intros -> Hrank. destruct asc; simpl; unfold Match.same_type;
    rewrite bool_decide_eq_true_2 by done; simpl; apply ltb_negb_leb.
Qed.

Lemma field_eq (o : option value) (x v : value) :
  o = Some x → Match.field (MEq v) o = bool_decide (x = v).
Proof. intros ->. by destruct v. Qed.

Lemma after_one asc (ia id : value) :
  negb (if asc : bool then Bson.leb ia id else Bson.leb id ia) = true
  ↔ ¬ Is_true (if bool_decide (ia = id) then true
               else if asc then Bson.leb ia id else Bson.leb id ia).
Proof.
  case_bool_decide as Hk.
  - rewrite Hk. destruct asc; rewrite BsonFacts.leb_refl; simpl;
      (split; [done|intros Hn; by destruct Hn]).
  - rewrite negb_true_iff, <- not_true_iff_false, Is_true_true.
    by destruct asc.
Qed.

Lemma after_lex asc (ka kd ia id : value) :
  negb (if asc : bool then Bson.leb ka kd else Bson.leb kd ka)
  || bool_decide (ka = kd)
     && negb (if asc then Bson.leb ia id else Bson.leb id ia) = true
  ↔ ¬ Is_true (if bool_decide (ka = kd)
               then if bool_decide (ia = id) then true
                    else if asc then Bson.leb ia id else Bson.leb id ia
               else if asc then Bson.leb ka kd else Bson.leb kd ka).
Proof.
  case_bool_decide as Hkf.
  - rewrite Hkf, andb_true_l.
    replace (if asc then Bson.leb kd kd else Bson.leb kd kd) with true
      by (destruct asc; by rewrite BsonFacts.leb_refl).
    cbn [negb orb]. apply after_one.
  - rewrite andb_false_l, orb_false_r.
    rewrite negb_true_iff, <- not_true_iff_false, Is_true_true.
    by destruct asc.
Qed.

Lemma query_singleton k m (a : document) :
  Match.query {[k := m]} a = Match.field m (a !! k).
Proof.
  destruct (Match.field m (a !! k)) eqn:Hf.
  - apply query_true. by intros f' m' [<- <-]%lookup_singleton_Some.
  - apply not_true_is_false. intros Hq. rewrite query_true in Hq.
    rewrite (Hq k m) in Hf; [done|]. apply lookup_singleton_eq.
Qed.

Lemma query_pair k1 m1 k2 m2 (a : document) :
  k1 ≠ k2 →
  Match.query (<[k1 := m1]> {[k2 := m2]}) a
  = Match.field m1 (a !! k1) && Match.field m2 (a !! k2).
Proof.
  intros Hne.
  destruct (Match.field m1 (a !! k1) && Match.field m2 (a !! k2)) eqn:Hf.
  - apply andb_true_iff in Hf as [H1 H2]. apply query_true.
    intros f' m' Hl. apply lookup_insert_Some in Hl as [[<- <-]|[_ Hl]]; [done|].
    by apply lookup_singleton_Some in Hl as [<- <-].
  - apply not_true_is_false. intros Hq. rewrite query_true in Hq.
    rewrite (Hq k1 m1), (Hq k2 m2) in Hf; [done| |].
    + rewrite lookup_insert_ne by done. apply lookup_singleton_eq.
    + apply lookup_insert_eq.
Qed.

Lemma sort_key_Some g (a : document) :
  is_Some (a !! g) → a !! g = Some (Bson.sort_key g a).
Proof. intros [x Hx]. unfold Bson.sort_key. by rewrite Hx. Qed.

(** The cursor query of a [next] token lets through what sorts strictly
    after the document the token was made from. *)
Lemma cursor_query_after f asc (l : list document) (a d : document) :
  uniform f l → uniform "_id" l → a ∈ l → d ∈ l →
  Match.doc (MongoPaging.generateCursorQuery f asc
               (Some (MongoPaging.encode f d)) None) a = true
  ↔ ¬ Bson.sort_le (MongoPaging.generateSort f asc) a d.
Proof.
  intros Hf Hid Ha Hd.
  destruct (Hf a d Ha Hd) as [Hfa Hfr], (Hid a d Ha Hd) as [Hia Hir].
  apply sort_key_Some in Hfa, Hia.
  unfold MongoPaging.generateCursorQuery, MongoPaging.generateSort,
    MongoPaging.encode, Bson.sort_le.
  cbn [fst snd]. case_bool_decide as Hfid; cbn [Match.doc Bson.sort_leb existsb].
  - rewrite query_singleton, (field_op asc _ _ _ Hia Hir).
    apply after_one.
  - rewrite query_singleton, query_pair, orb_false_r by done.
    rewrite (field_op asc _ _ _ Hfa Hfr), (field_op asc _ _ _ Hia Hir).
    rewrite (field_eq _ _ _ Hfa).
    apply after_lex.
Qed.

Lemma sort_le_keys spec (a b : document) :
  Bson.sort_le spec a b → Bson.sort_le spec b a →
  ∀ g dir, (g, dir) ∈ spec → Bson.sort_key g a = Bson.sort_key g b.
Proof.
  unfold Bson.sort_le.
  induction spec as [|[g' dir'] rest IH]; intros Hab Hba g dir Hg.
  { by apply not_elem_of_nil in Hg. }
  simpl in Hab, Hba.
  destruct (decide (Bson.sort_key g' a = Bson.sort_key g' b)) as [Heq|Hne].
  - rewrite bool_decide_eq_true_2 in Hab by done.
    rewrite bool_decide_eq_true_2 in Hba by done.
    apply elem_of_cons in Hg as [[= -> ->]|Hg]; [done|]. by eapply IH.
  - rewrite bool_decide_eq_false_2 in Hab by done.
    rewrite bool_decide_eq_false_2 in Hba by done.
    apply Is_true_true in Hab, Hba.
    destruct Hne. destruct dir'; by apply BsonFacts.leb_antisym.
Qed.

Lemma id_in_generateSort f asc : ("_id", asc) ∈ MongoPaging.generateSort f asc.
Proof.
  unfold MongoPaging.generateSort. case_bool_decide; [left|right; left].
Qed.

Lemma fmap_NoDup_inj {X Y} (g : X → Y) (l : list X) a b :
  NoDup (g <$> l) → a ∈ l → b ∈ l → g a = g b → a = b.
Proof.
  induction l as [|x l IH]; intros Hnd Ha Hb Hg.
  { by apply not_elem_of_nil in Ha. }
  rewrite fmap_cons in Hnd. apply NoDup_cons in Hnd as [Hx Hnd].
  apply elem_of_cons in Ha as [->|Ha], Hb as [->|Hb]; [done| | |by apply IH].
  - destruct Hx. rewrite Hg. by apply list_elem_of_fmap_2.
  - destruct Hx. rewrite <- Hg. by apply list_elem_of_fmap_2.
Qed.

(** Two documents of a collection with unique identifiers that sort
    equal are the same document. *)
Lemma sort_le_antisym f asc (l : list document) a b :
  uniform "_id" l → NoDup ((λ d, d !! "_id") <$> l) →
  a ∈ l → b ∈ l →
  Bson.sort_le (MongoPaging.generateSort f asc) a b →
  Bson.sort_le (MongoPaging.generateSort f asc) b a → a = b.
Proof.
  intros Hid Hnd Ha Hb Hab Hba.
  pose proof (sort_le_keys _ a b Hab Hba "_id" asc (id_in_generateSort f asc))
    as Hk.
  apply (fmap_NoDup_inj (λ d, d !! "_id") l); [done..|].
  destruct (Hid a b Ha Hb) as [Hia _], (Hid b a Hb Ha) as [Hib _].
  rewrite (sort_key_Some _ _ Hia), (sort_key_Some _ _ Hib). by f_equal.
Qed.

Lemma sort_le_refl spec (a : document) : Bson.sort_le spec a a.
Proof. by destruct (BsonFacts.sort_le_total spec a a). Qed.

(** Sorting and filtering commute where the order has no ties. *)
Lemma sort_filter_commute spec (P : document → Prop)
    `{∀ a, Decision (P a)} (l : list document) :
  (∀ a b, a ∈ l → b ∈ l →
          Bson.sort_le spec a b → Bson.sort_le spec b a → a = b) →
  Bson.sort_docs spec (filter P l) = filter P (Bson.sort_docs spec l).
Proof.
  intros Hanti. apply (sorted_perm_eq (Bson.sort_le spec)).
  - intros a b Ha Hb. rewrite BsonFacts.sort_docs_perm in Ha, Hb.
    apply list_elem_of_filter in Ha as [_ Ha], Hb as [_ Hb]. by apply Hanti.
  - apply BsonFacts.sort_docs_sorted.
  - eapply StronglySorted_sublist; [apply sublist_filter|].
    apply BsonFacts.sort_docs_sorted.
  - rewrite !BsonFacts.sort_docs_perm. done.
Qed.

Lemma clamp_pos c l :
  1 ≤ MongoPaging.MAX_LIMIT c → 1 ≤ MongoPaging.clamp c l.
Proof. intros Hmax. unfold MongoPaging.clamp. repeat case_bool_decide; lia. Qed.

(** Of the limit + 1 documents fetched, the page keeps the first limit,
    and the extra one tells whether more follow. *)
Lemma prepareResponse_take f n next (l : list document) :
  0 ≤ n →
  let page := MongoPaging.prepareResponse f n next None
                (take (Z.to_nat (n + 1)) l) in
  MongoPagedResult.results page = take (Z.to_nat n) l
  ∧ MongoPagedResult.hasNext page = bool_decide (Z.to_nat n < length l)%nat.
Proof.
  intros Hn. unfold MongoPaging.prepareResponse.
  cbn [MongoPagedResult.results MongoPagedResult.hasNext].
  rewrite (bool_decide_eq_false_2 (is_Some None)) by by intros [? ?].
  cbn [orb]. rewrite length_take.
  replace (Z.to_nat (n + 1)) with (S (Z.to_nat n)) by lia.
  destruct (decide (Z.to_nat n < length l)%nat) as [Hlt|Hge].
  - rewrite !bool_decide_eq_true_2 by lia.
    split; [|done]. by apply removelast_firstn.
  - rewrite !bool_decide_eq_false_2 by lia.
    split; [|done]. rewrite !take_ge by lia. done.
Qed.

Lemma fetched_filters r q fq f asc s :
  APIQuery.previous q = None →
  let limit := MongoPaging.sanitized_limit (paging r) (APIQuery.limit q) in
  0 ≤ limit →
  fetched r q fq f asc s
  = take (Z.to_nat (limit + 1))
      (Bson.sort_docs (MongoPaging.generateSort f asc)
         (filter (λ d, Is_true (Match.doc
                    (MongoPaging.generateCursorQuery f asc
                       (APIQuery.next q) None) d))
            (filter (λ d, Is_true (Match.query fq d))
               (docs (collectionName r) s)))).
Proof.
  intros Hprev limit Hlimit. unfold fetched. rewrite Hprev.
  cbn [MongoPaging.sort_direction default from_option id].
  fold limit. unfold limited.
  rewrite bool_decide_eq_false_2 by lia.
  rewrite Zabs2Nat.abs_nat_nonneg by lia.
  rewrite list_filter_filter. do 2 f_equal.
  apply list_filter_iff. intros d. cbn [Match.doc].
  rewrite andb_True. done.
Qed.

End cursors.

(** ** What a page of find holds *)

Section find_pages.
Import Mongo MongoFacts BaseRepository.






End find_pages.






(** X14.  find walks the matching documents in one fixed order.  In a
    collection with unique identifiers whose paginated field and _id are
    each of one type, for a filter query without projection: without a
    cursor the page is the first n documents of the sorted list of all
    matching documents (n the sanitized limit), hasNext tells whether
    more follow, and next is the token of the last document returned;
    with the next token of the i-th document of that list the page is
    the n documents that follow it, so that consecutive pages neither
    skip nor repeat a document. *)
Theorem find_resumes_after_cursor
    (r : repository) (q : APIQuery.t) (fq : fields_query)
    (f : string) (asc : bool) (s : state) :
  online r s →
  paginatedField_override r = Some f →
  paginatedAscending_override r = Some asc →
  1 ≤ paginationMax (configuration r) →
  APIQuery.query q = QFilter fq → APIQuery.fields q = ∅ →
  APIQuery.previous q = None →
  cursor_ready f (stored r s) →
  let all := listing r fq f asc s in
  let n := Z.to_nat (MongoPaging.sanitized_limit (BaseRepository.paging r)
                       (APIQuery.limit q)) in
  (1 ≤ n)%nat
  ∧ (APIQuery.next q = None →
     ∃ page,
       returned (BaseRepository.find r q s) = Some page
       ∧ MongoPagedResult.results page = take n all
       ∧ MongoPagedResult.hasNext page = bool_decide (n < length all)%nat
       ∧ MongoPagedResult.next page
         = MongoPaging.encode f <$> last (take n all))
  ∧ (∀ i d, all !! i = Some d →
       APIQuery.next q = Some (MongoPaging.encode f d) →
       ∃ page,
         returned (BaseRepository.find r q s) = Some page
         ∧ MongoPagedResult.results page = take n (drop (S i) all)
         ∧ MongoPagedResult.hasNext page
           = bool_decide (S i + n < length all)%nat
         ∧ MongoPagedResult.next page
           = MongoPaging.encode f <$> last (take n (drop (S i) all))).
Proof.
  intros Hon Hf Hasc Hmax Hq Hfields Hprev (Huf & Huid & Hnd) all n.
  destruct (online_opened r s Hon) as (s' & Hget & Hout & Hdocs & Hst & Hh).
  destruct (find_run r q fq f asc s s' Hget Hout Hf Hasc Hq) as [Hrun _].
  rewrite (proj2 (find_projection_None q) Hfields) in Hrun.
  cbn [mbind option_bind MongoPaging.removePaginatedFieldInResponse] in Hrun.
  pose proof (clamp_pos (BaseRepository.paging r)
                (default (MongoPaging.DEFAULT_LIMIT (BaseRepository.paging r))
                   (APIQuery.limit q)) Hmax) as Hlimit.
  fold (MongoPaging.sanitized_limit (BaseRepository.paging r) (APIQuery.limit q))
    in Hlimit.
  rewrite fetched_filters, Hdocs, Hprev in Hrun by (done || lia).
  assert (Hanti : ∀ a b,
            a ∈ filter (λ d, Is_true (Match.query fq d)) (stored r s) →
            b ∈ filter (λ d, Is_true (Match.query fq d)) (stored r s) →
            Bson.sort_le (MongoPaging.generateSort f asc) a b →
            Bson.sort_le (MongoPaging.generateSort f asc) b a → a = b).
  { intros a b [_ Ha]%list_elem_of_filter [_ Hb]%list_elem_of_filter.
    by apply (sort_le_antisym f asc (stored r s)). }
  split; [lia|]. split.
  - intros Hnext. rewrite Hnext in Hrun.
    rewrite (filter_all (λ d, Is_true (Match.doc
               (MongoPaging.generateCursorQuery f asc None None) d)))
      in Hrun.
    2:{ intros a _. apply Is_true_true. cbn. by apply MongoFacts.query_true. }
    fold (listing r fq f asc s) in Hrun. fold all in Hrun.
    destruct (prepareResponse_take f
                (MongoPaging.sanitized_limit (BaseRepository.paging r)
                   (APIQuery.limit q)) None all) as [Hres Hmore]; [lia|].
    eexists. unfold returned. rewrite Hrun.
    split_and!; [done|exact Hres|exact Hmore|].
    unfold n. rewrite <- Hres. done.
  - intros i d Hi Hnext. rewrite Hnext in Hrun.
    rewrite sort_filter_commute in Hrun by done.
    fold (listing r fq f asc s) in Hrun. fold all in Hrun.
    assert (Hall : ∀ a, a ∈ all → a ∈ stored r s).
    { intros a Ha. unfold all, listing in Ha.
      rewrite BsonFacts.sort_docs_perm in Ha.
      by apply list_elem_of_filter in Ha as [_ ?]. }
    rewrite (filter_after (Bson.sort_le (MongoPaging.generateSort f asc))
               _ all i d) in Hrun.
    + destruct (prepareResponse_take f
                  (MongoPaging.sanitized_limit (BaseRepository.paging r)
                     (APIQuery.limit q))
                  (Some (MongoPaging.encode f d)) (drop (S i) all))
        as [Hres Hmore]; [lia|].
      eexists. unfold returned. rewrite Hrun.
      split_and!; [done|exact Hres| |unfold n; by rewrite <- Hres].
      rewrite Hmore. apply bool_decide_ext. rewrite length_drop. fold n. lia.
    + intros a b Ha Hb.
      apply (sort_le_antisym f asc (stored r s)); auto.
    + apply sort_le_refl.
    + apply BsonFacts.sort_docs_sorted.
    + unfold all, listing. rewrite BsonFacts.sort_docs_perm.
      apply NoDup_filter. by eapply NoDup_fmap_1.
    + done.
    + intros a Ha. rewrite Is_true_true.
      apply (cursor_query_after f asc (stored r s)); auto.
      apply Hall. by eapply list_elem_of_lookup_2.
Qed.

Lemma uniform_of_rank f k (l : list document) :
  Forall (λ a, is_Some (a !! f) ∧ Bson.rank (Bson.sort_key f a) = k) l →
  uniform f l.
Proof.
  rewrite Forall_forall. intros Hall a b Ha Hb.
  destruct (Hall a Ha) as [Hsome Hka], (Hall b Hb) as [_ Hkb].
  split; [done|congruence].
Qed.

Lemma gold_cursor_ready :
  cursor_ready "createdOn" (stored organizations gold_state).
Proof.
  assert (Hstored : stored organizations gold_state = [older; newest])
    by (vm_compute; reflexivity).
  rewrite Hstored. split_and!.
  - apply (uniform_of_rank _ 2).
    repeat constructor; by (eexists; vm_compute).
  - apply (uniform_of_rank _ 4).
    repeat constructor; by (eexists; vm_compute).
  - apply NoDup_cons. split; [|apply NoDup_singleton].
    rewrite list_elem_of_singleton. by vm_compute.
Qed.

Lemma find_resumes_after_cursor_witness :
  ∃ page,
    returned (BaseRepository.find organizations after_newest gold_state)
    = Some page
    ∧ MongoPagedResult.results page
      = take 1 (drop 1 (listing organizations ∅ "createdOn" false gold_state)).
Proof.
  destruct (find_resumes_after_cursor organizations after_newest ∅
              "createdOn" false gold_state) as (_ & _ & Hnext).
  - split; [reflexivity | left; reflexivity].
  - reflexivity.
  - reflexivity.
  - vm_compute. discriminate.
  - reflexivity.
  - reflexivity.
  - reflexivity.
  - apply gold_cursor_ready.
  - destruct (Hnext 0%nat newest) as (page & Hpage & Hres & _).
    + vm_compute. reflexivity.
    + reflexivity.
    + exists page. split; [exact Hpage | exact Hres].
Defined.

Section bulk_create.
Import Mongo MongoFacts BaseRepository.

Lemma insert_ordered_prefix coll items : ∀ l,
  l `prefix_of` (insert_ordered coll l items).1.
Proof.
  induction items as [|item rest IH]; intros l; simpl; [done|].
  destruct (refused coll l (with_id l item)); [done|].
  etrans; [|apply IH]. by apply prefix_app_r.
Qed.

Lemma create_each_run r items : ∀ s,
  online r s →
  stored r (create_each r items s).2
  = (insert_ordered (collectionName r) (stored r s) items).1
  ∧ (is_Some (returned (create_each r items s))
     ↔ (insert_ordered (collectionName r) (stored r s) items).2 = true).
Proof.
  induction items as [|item rest IH]; intros s Hon.
  { simpl. split; [done|]. split; [done|]. intros _. by eexists. }
  destruct (online_opened r s Hon) as (s' & Hget & Hout & Hdocs & Hst & Hh).
  pose proof (create_run r item s s' Hget Hout) as Hrun.
  cbv zeta in Hrun. rewrite Hdocs in Hrun.
  cbn [create_each insert_ordered].
  destruct (refused (collectionName r) (stored r s)
              (with_id (stored r s) item)) eqn:Htaken.
  - rewrite (bind_Throw _ _ _ _ _ Hrun). cbn [fst snd].
    split.
    + unfold stored in *. by rewrite <- Hdocs.
    + unfold returned. cbn [fst]. split; [by intros [? ?]|done].
  - rewrite (bind_Return _ _ _ _ _ Hrun).
    match goal with |- context [create_each r rest ?s2] =>
      destruct (IH s2) as [IH1 IH2] end.
    { split; [done|]. right. done. }
    assert (Hs2 : ∀ s1 l,
              stored r (with_store (<[collectionName r := l]> (store s1)) s1) = l).
    { intros s1 l. unfold stored, docs. cbn. by rewrite lookup_insert_eq. }
    rewrite Hs2 in IH1, IH2. done.
Qed.

Lemma createBulk_stored r items s :
  online r s → items ≠ [] →
  stored r (createBulk r items s).2
  = (insert_ordered (collectionName r) (stored r s) items).1
  ∧ (is_Some (returned (createBulk r items s))
     ↔ (insert_ordered (collectionName r) (stored r s) items).2 = true).
Proof.
  intros Hon Hne.
  destruct (online_opened r s Hon) as (s' & Hget & Hout & Hdocs & Hst & Hh).
  rewrite (createBulk_run r items s s' Hget Hout), Hdocs.
  destruct items as [|item rest]; [done|]. cbv zeta. unfold returned.
  destruct (insert_ordered (collectionName r) (stored r s) (item :: rest))
    as [l ok].
  cbn [fst snd]. destruct ok; cbn [fst snd].
  - split; [|split; [done|by eexists]].
    unfold stored, docs. cbn. by rewrite lookup_insert_eq.
  - split; [|split; [by intros [? ?]|done]].
    unfold stored, docs. cbn. by rewrite lookup_insert_eq.
Qed.

End bulk_create.

(** X15.  createBulk stores what calling create on each document in turn
    would store, and succeeds exactly when all of those calls would.  It
    is not undone when it fails: whether it returns or throws, the
    documents stored before are still there, in their places, followed by
    the documents accepted before the first one that was refused. *)
Theorem createBulk_as_repeated_create
    (r : repository) (items : list document) (s : state) :
  online r s → items ≠ [] →
  stored r (BaseRepository.createBulk r items s).2
  = stored r (create_each r items s).2
  ∧ (is_Some (returned (BaseRepository.createBulk r items s))
     ↔ is_Some (returned (create_each r items s)))
  ∧ stored r s `prefix_of` stored r (BaseRepository.createBulk r items s).2.
Proof.
  intros Hon Hne.
  destruct (create_each_run r items s Hon) as [Heach Hok].
  destruct (createBulk_stored r items s Hon Hne) as [Hbulk Hbulk_ok].
  split_and!.
  - by rewrite Hbulk, Heach.
  - by rewrite Hbulk_ok, Hok.
  - rewrite Hbulk. apply insert_ordered_prefix.
Qed.

Lemma createBulk_as_repeated_create_witness :
  stored organizations
    (BaseRepository.createBulk organizations three_more gold_state).2
  = stored organizations (create_each organizations three_more gold_state).2
  ∧ stored organizations
      (BaseRepository.createBulk organizations three_more gold_state).2
    = [older; newest; <["_id" := VId 3]> (organization 3 "silver" "0x03")]
  ∧ returned (BaseRepository.createBulk organizations three_more gold_state)
    = None
  ∧ returned (create_each organizations three_more gold_state) = None.
Proof.
  destruct (createBulk_as_repeated_create organizations three_more gold_state)
    as (Hsame & Hok & _).
  - split; [reflexivity | left; reflexivity].
  - discriminate.
  - assert (Hthrows : returned (BaseRepository.createBulk organizations
                                  three_more gold_state) = None)
      by (vm_compute; reflexivity).
    split_and!; [exact Hsame|vm_compute; reflexivity|exact Hthrows|].
    destruct (returned (create_each organizations three_more gold_state))
      as [u|] eqn:Heach; [|reflexivity].
    destruct (proj2 Hok (mk_is_Some _ _ eq_refl)) as [n Hn].
    rewrite Hthrows in Hn. discriminate.
Defined.

Section counter.
Import Mongo MongoFacts.

(** Whatever happens to the counter, no other collection is touched. *)
Lemma getNewOrganizationIdentifier_frame s coll :
  coll ≠ "identityCounter" →
  docs coll (OrganizationRepository.getNewOrganizationIdentifier s).2
  = docs coll s.
Proof.
  intros Hne. unfold OrganizationRepository.getNewOrganizationIdentifier.
  unfold findOneAndUpdate, put_docs, round_trip, modify, get_state,
    bind, ret, throw.
  repeat case_match; simplify_eq; try done;
    unfold docs; cbn; by rewrite lookup_insert_ne.
Qed.

End counter.

(** X16.  From whatever safe integer c the organization counter stands
    at: if c + 9 is a safe integer, getNewOrganizationIdentifier returns
    c + 9 and leaves the counter at c + 9; if c + 9n is a safe integer, n
    calls in a row return c + 9, c + 18, ..., c + 9n; and no collection
    other than identityCounter is changed by a call. *)
Theorem getNewOrganizationIdentifier_from_any_count (s : state) (c : Z) :
  client_db s = true → outage s = None → counter_state s = Some c →
  isSafeInteger c →
  (isSafeInteger (c + 9) →
   returned (OrganizationRepository.getNewOrganizationIdentifier s)
   = Some (Some (VNum (c + 9)))
   ∧ counter_state (OrganizationRepository.getNewOrganizationIdentifier s).2
     = Some (c + 9))
  ∧ (∀ n, isSafeInteger (c + 9 * Z.of_nat n) →
          (mint n s).1
          = (λ k, Return (Some (VNum (c + 9 * Z.of_nat k)))) <$> seq 1 n)
  ∧ (∀ coll, coll ≠ "identityCounter" →
       Mongo.docs coll (OrganizationRepository.getNewOrganizationIdentifier s).2
       = Mongo.docs coll s).
Proof.
  intros Hdb Hout Hc _.
  destruct (getNewOrganizationIdentifier_step s c Hdb Hout Hc)
    as (s' & Hrun & _ & _ & Hc').
  split_and!.
  - intros _. split.
    + unfold returned. by rewrite Hrun.
    + by rewrite Hrun.
  - intros n _. by apply mint_from.
  - intros coll Hne. by apply getNewOrganizationIdentifier_frame.
Qed.

(** With the counter at 18 the next two identifiers are 27 and 36. *)
Lemma getNewOrganizationIdentifier_from_any_count_witness :
  returned (OrganizationRepository.getNewOrganizationIdentifier counting_state)
  = Some (Some (VNum 27))
  ∧ (mint 2 counting_state).1
    = [Return (Some (VNum 27)); Return (Some (VNum 36))].
Proof.
  destruct (getNewOrganizationIdentifier_from_any_count counting_state 18)
    as (Hret & Hmint & _).
  - reflexivity.
  - reflexivity.
  - vm_compute. reflexivity.
  - unfold isSafeInteger, MAX_SAFE_INTEGER. lia.
  - split.
    + apply Hret. unfold isSafeInteger, MAX_SAFE_INTEGER. lia.
    + apply (Hmint 2%nat). unfold isSafeInteger, MAX_SAFE_INTEGER. lia.
Defined.

(** ** The latest event of each asset *)



(** ** Hexadecimal strings *)

Section regexp.
Import RegExp.

Lemma char_x c :
  canonicalize true c = canonicalize true "x" ↔ c = "x"%char ∨ c = "X"%char.
Proof.
  destruct c as [[] [] [] [] [] [] [] []]; vm_compute;
    split; intros H; try discriminate H; auto;
    destruct H as [H|H]; discriminate H.
Qed.

Lemma char_0 c :
  canonicalize true c = canonicalize true "0" ↔ c = "0"%char.
Proof.
  destruct c as [[] [] [] [] [] [] [] []]; vm_compute;
    split; intros H; try discriminate H; auto.
Qed.

#[local] Instance hex_digit_dec c : Decision (hex_digit c).
Proof. unfold hex_digit. apply _. Defined.

Lemma class_hex c :
  in_class true [("a", "f"); ("0", "9")]%char c = true ↔ hex_digit c.
Proof.
  rewrite <- (bool_decide_eq_true (hex_digit c)).
  destruct c as [[] [] [] [] [] [] [] []]; vm_compute; done.
Qed.

Lemma elem_of_run_Seq i r1 r2 st st' :
  st' ∈ run i (Seq r1 r2) st ↔ ∃ mid, mid ∈ run i r1 st ∧ st' ∈ run i r2 mid.
Proof.
  cbn [run]. rewrite list_elem_of_bind.
  split; intros (mid & H1 & H2); exists mid; done.
Qed.

Lemma elem_of_run_Char i c p s st' :
  st' ∈ run i (Char c) (p, s)
  ↔ ∃ ch rest, s = String ch rest
               ∧ canonicalize i ch = canonicalize i c ∧ st' = (S p, rest).
Proof.
  cbn [run fst snd]. destruct s as [|ch rest].
  - split; [by intros ?%not_elem_of_nil|by intros (? & ? & ? & _)].
  - case_bool_decide as Hc.
    + rewrite list_elem_of_singleton. split.
      * intros ->. by exists ch, rest.
      * by intros (? & ? & [= <- <-] & _ & ->).
    + split; [by intros ?%not_elem_of_nil|].
      intros (? & ? & [= <- <-] & ? & _). done.
Qed.

Lemma elem_of_run_Class i ranges p s st' :
  st' ∈ run i (Class ranges) (p, s)
  ↔ ∃ ch rest, s = String ch rest
               ∧ in_class i ranges ch = true ∧ st' = (S p, rest).
Proof.
  cbn [run fst snd]. destruct s as [|ch rest].
  - split; [by intros ?%not_elem_of_nil|by intros (? & ? & ? & _)].
  - destruct (in_class i ranges ch) eqn:Hc.
    + rewrite list_elem_of_singleton. split.
      * intros ->. by exists ch, rest.
      * by intros (? & ? & [= <- <-] & _ & ->).
    + split; [by intros ?%not_elem_of_nil|].
      intros (? & ? & [= <- <-] & ? & _). congruence.
Qed.

(** [{n}] of the class of hexadecimal digits consumes exactly n of
    them. *)
Lemma elem_of_times_hex n : ∀ p s st',
  st' ∈ times n (run true (Class [("a", "f"); ("0", "9")]%char)) (p, s)
  ↔ ∃ body, s = body +:+ st'.2 ∧ String.length body = n
            ∧ Forall hex_digit (String.list_ascii_of_string body)
            ∧ st'.1 = (p + n)%nat.
Proof.
  induction n as [|n IH]; intros p s st'.
  - cbn [times]. rewrite list_elem_of_singleton. split.
    + intros ->. exists EmptyString. split_and!; [done..|constructor|simpl; lia].
    + intros (body & -> & Hlen & _ & Hp). destruct body; [|done].
      destruct st' as [p' s']. simpl in *. f_equal. lia.
  - cbn [times]. rewrite list_elem_of_bind. split.
    + intros (mid & Hst & Hmid).
      apply elem_of_run_Class in Hmid as (ch & rest & -> & Hch & ->).
      apply IH in Hst as (body & -> & Hlen & Hall & Hp).
      exists (String ch body). split_and!; [done|simpl; lia| |lia].
      simpl. constructor; [by apply class_hex|done].
    + intros (body & -> & Hlen & Hall & Hp).
      destruct body as [|ch body]; [done|].
      simpl in Hlen, Hall. apply Forall_cons in Hall as [Hch Hall].
      exists (S p, body +:+ st'.2). split.
      * apply IH. exists body. split_and!; [done|lia|done|lia].
      * apply elem_of_run_Class. exists ch, (body +:+ st'.2).
        split_and!; [done|by apply class_hex|done].
Qed.

Lemma later_positions_fail i r s : ∀ p,
  existsb (λ st, bool_decide (run i (Seq Bol r) st ≠ [])) (positions (S p) s)
  = false.
Proof.
  induction s as [|ch s IH]; intros p; cbn [positions existsb].
  - cbn. done.
  - rewrite IH, orb_false_r. cbn. done.
Qed.

Lemma append_empty_r (s : string) : s +:+ EmptyString = s.
Proof.
  induction s as [|c s IH]; [done|].
  change (String c (s +:+ EmptyString) = String c s). by f_equal.
Qed.

End regexp.

(** X19.  matchHexOfLength(text, n) holds exactly when text is 0x or 0X
    followed by n hexadecimal digits of either case, and nothing else;
    such a text has n + 2 characters. *)
Theorem matchHexOfLength_spec (text : string) (n : nat) :
  (matchHexOfLength text n = true
   ↔ ∃ x body, text = String "0" (String x body)
               ∧ (x = "x"%char ∨ x = "X"%char)
               ∧ String.length body = n
               ∧ Forall hex_digit (String.list_ascii_of_string body))
  ∧ (matchHexOfLength text n = true → String.length text = (n + 2)%nat).
Proof.
  assert (Hspec : matchHexOfLength text n = true
    ↔ ∃ x body, text = String "0" (String x body)
                ∧ (x = "x"%char ∨ x = "X"%char)
                ∧ String.length body = n
                ∧ Forall hex_digit (String.list_ascii_of_string body)).
  { unfold matchHexOfLength, RegExp.test.
    destruct text as [|c0 text]; cbn [RegExp.positions existsb].
    { split; [done|]. by intros (? & ? & ? & _). }
    rewrite later_positions_fail, orb_false_r, bool_decide_eq_true.
    split.
    - intros Hne.
      destruct (RegExp.run _ _ _) as [|st l] eqn:Hrun; [done|]. clear Hne.
      assert (Hst : st ∈ st :: l) by left. rewrite <- Hrun in Hst.
      apply elem_of_run_Seq in Hst as (m0 & H0 & Hst).
      cbn in H0. apply list_elem_of_singleton in H0 as ->.
      apply elem_of_run_Seq in Hst as (m1 & H1 & Hst).
      apply elem_of_run_Char in H1 as (ch & rest & [= <- <-] & Hc0 & ->).
      apply elem_of_run_Seq in Hst as (m2 & H2 & Hst).
      apply elem_of_run_Char in H2 as (x & body & -> & Hx & ->).
      apply elem_of_run_Seq in Hst as (m3 & H3 & Hst).
      apply elem_of_times_hex in H3 as (hex & -> & Hlen & Hall & _).
      cbn [RegExp.run] in Hst. case_bool_decide as Hend; [|by apply not_elem_of_nil in Hst].
      rewrite Hend.
      apply char_0 in Hc0 as ->. apply char_x in Hx.
      exists x, hex. split_and!; [|done..].
      by rewrite append_empty_r.
    - intros (x & body & [= -> ->] & Hx & Hlen & Hall).
      assert (Hst : (2 + n, EmptyString)%nat ∈
                RegExp.run true
                  (RegExp.Seq RegExp.Bol
                     (RegExp.Seq (RegExp.Char "0")
                        (RegExp.Seq (RegExp.Char "x")
                           (RegExp.Seq
                              (RegExp.Repeat n
                                 (RegExp.Class [("a", "f"); ("0", "9")]%char))
                              RegExp.Eol))))
                  (0%nat, String "0" (String x body))).
      { apply elem_of_run_Seq. exists (0%nat, String "0" (String x body)).
        split; [cbn; left|].
        apply elem_of_run_Seq. exists (1%nat, String x body).
        split; [apply elem_of_run_Char; by eexists _, _|].
        apply elem_of_run_Seq. exists (2%nat, body).
        split.
        { apply elem_of_run_Char. exists x, body.
          split_and!; [done|by apply char_x|done]. }
        apply elem_of_run_Seq. exists ((2 + n)%nat, EmptyString).
        split; [|cbn; left].
        apply elem_of_times_hex. exists body.
        split_and!; [|done..]. cbn [snd]. by rewrite append_empty_r. }
      intros Hnil. rewrite Hnil in Hst. by apply not_elem_of_nil in Hst. }
  split; [done|].
  intros (x & body & -> & _ & Hlen & _)%Hspec. simpl. lia.
Qed.

Lemma matchHexOfLength_spec_witness :
  matchHexOfLength "0xAb" 2 = true ∧ String.length "0xAb" = 4%nat.
Proof.
  assert (Hmatch : matchHexOfLength "0xAb" 2 = true).
  { apply (matchHexOfLength_spec "0xAb" 2). exists "x"%char, "Ab".
    split_and!; [reflexivity|by left|reflexivity|].
    repeat constructor; refine (bool_decide_unpack _ _); vm_compute; exact I. }
  split; [exact Hmatch|].
  apply (proj2 (matchHexOfLength_spec "0xAb" 2) Hmatch).
Defined.
